(** * T2H: the rendering and composition engine, embedded in Rocq

    A shallow embedding of the Python back end (backend/app): the job
    orchestrator and its progress writes, the job state machine behind the
    HTTP surface, the imperfection model and stroke renderer of the
    handwriting engine, the ruled-paper generator, the diagram cache and
    converter, and the layer compositor.

    Python floats are IEEE binary64 values and are embedded as Rocq's
    primitive floats; Python ints are [Z]; [str] is [string], one [ascii]
    per code point of the Latin-1 range. Text with a code point beyond
    that range is outside the embedding: what is proved of a function
    that looks at the case of characters is proved for Latin-1 text. *)

From Stdlib Require Import ZArith List String Ascii Bool Lia Floats Uint63.
From stdpp Require Import base gmap strings list pretty.

Set Warnings "-inexact-float".
Open Scope Z_scope.

(** ** Python numbers *)

Module Py.

(** [float(z)] for an int of magnitude below 2^63. *)
Definition of_int (z : Z) : float :=
  if z <? 0 then PrimFloat.opp (PrimFloat.of_uint63 (Uint63.of_Z (- z)))
  else PrimFloat.of_uint63 (Uint63.of_Z z).

(** [int(x)]: truncation toward zero; [None] stands for the ValueError /
    OverflowError raised on a nan or an infinity. *)
Definition int (x : float) : option Z :=
  match Prim2SF x with
  | S754_zero _ => Some 0
  | S754_finite s m e =>
      let v := if 0 <=? e then Z.pos m * 2 ^ e else Z.pos m / 2 ^ (- e) in
      Some (if s then - v else v)
  | S754_infinity _ | S754_nan => None
  end.

(** [range(a, b, step)] for a positive step. *)
Definition range (a b step : Z) : list Z :=
  map (fun i : nat => a + step * Z.of_nat i)
      (seq 0 (Z.to_nat ((b - a + step - 1) / step))).

End Py.

(** ** Exceptions *)

Inductive exn : Type :=
| ValueError (msg : string)
| IndexError
| ZeroDivisionError
| IntegrityError (msg : string)
| HTTPException (status_code : Z) (detail : string)
| KeyError (key : string)
| RuntimeFault (msg : string).

Inductive Result (A : Type) : Type :=
| Ok (a : A)
| Raise (e : exn).
Arguments Ok {A} a.
Arguments Raise {A} e.

Definition rbind {A B} (m : Result A) (f : A -> Result B) : Result B :=
  match m with
  | Ok a => f a
  | Raise e => Raise e
  end.

Definition of_option {A} (o : option A) (e : exn) : Result A :=
  match o with
  | Some a => Ok a
  | None => Raise e
  end.

(** [str(e)] *)
Definition str (e : exn) : string :=
  match e with
  | ValueError msg | IntegrityError msg | RuntimeFault msg | KeyError msg => msg
  | IndexError => "string index out of range"
  | ZeroDivisionError => "division by zero"
  | HTTPException c d => pretty c +:+ ": " +:+ d
  end.

#[global] Instance Result_ret : MRet Result := @Ok.
#[global] Instance Result_bind : MBind Result := fun A B f m => rbind m f.

(** ** schemas.py *)

Module Schemas.

Inductive PaperType : Type := LINED | GRAPH | BLANK | ENGINEERING.

(** [ProcessConfig] and its defaults. The validators bound
    [imperfection_level] to 0.0..0.20, [line_spacing] to 20..40 and
    [font_size] to 12..32. *)
Record ProcessConfig : Type := mkProcessConfig {
  handwriting_style : string;
  imperfection_level : float;
  paper_type : PaperType;
  ink_color : string;
  line_spacing : Z;
  font_size : Z;
  enable_smudges : bool;
  enable_coffee_stains : bool;
  enable_page_shadows : bool;
  enable_annotations : bool
}.

Definition default_config : ProcessConfig :=
  mkProcessConfig "Caveat" 0.07%float LINED "#1a1a2e" 28 18 true false true false.

End Schemas.
Import Schemas.

(** ** models.py *)

Module Models.

Inductive JobStatus : Type := UPLOADED | PROCESSING | COMPLETED | FAILED.

#[global] Instance JobStatus_eq_dec : EqDecision JobStatus.
Proof. solve_decision. Defined.

(** [JobStatus.X.value] *)
Definition value (s : JobStatus) : string :=
  match s with
  | UPLOADED => "uploaded"
  | PROCESSING => "processing"
  | COMPLETED => "completed"
  | FAILED => "failed"
  end.

(** One row of the [jobs] table. Timestamps are clock readings. *)
Record Job : Type := mkJob {
  id : string;
  filename : string;
  status : JobStatus;
  config : option ProcessConfig;
  num_pages : Z;
  progress : Z;
  current_stage : string;
  upload_path : option string;
  result_path : option string;
  error_message : option string;
  updated_at : Z;
  completed_at : option Z
}.

(** One row of the [diagram_cache] table; [image_hash] is declared
    [unique=True]. *)
Record DiagramCache : Type := mkDiagramCache {
  image_hash : string;
  diagram_type : string;
  original_path : string;
  converted_path : string;
  created_at : Z;
  last_accessed : Z
}.

End Models.
Import Models.

(** ** services/processor.py *)

Module Processor.

(** The keyword arguments of one [_update_job] call. *)
Record Update : Type := mkUpdate {
  u_status : option JobStatus;
  u_progress : option Z;
  u_current_stage : option string;
  u_error_message : option string;
  u_result_path : option string;
  u_completed_at : option Z
}.

Definition progress_stage (p : Z) (stage : string) : Update :=
  mkUpdate None (Some p) (Some stage) None None None.

Definition set_fields (u : Update) (now : Z) (job : Job) : Job :=
  mkJob (id job) (filename job)
        (default (status job) (u_status u))
        (config job) (num_pages job)
        (default (progress job) (u_progress u))
        (default (current_stage job) (u_current_stage u))
        (upload_path job)
        (match u_result_path u with Some p => Some p | None => result_path job end)
        (match u_error_message u with Some m => Some m | None => error_message job end)
        now
        (match u_completed_at u with Some t => Some t | None => completed_at job end).

(** [_update_job] on a session that takes the query: a write against a
    missing record does nothing. On a session left with a failed flush
    the query raises instead and nothing is written; the task as a whole
    ([Task.task_writes]) accounts for that. *)
Definition _update_job (db : gmap string Job) (job_id : string)
    (u : Update) (now : Z) : gmap string Job :=
  match db !! job_id with
  | Some job => <[job_id := set_fields u now job]> db
  | None => db
  end.

(** [int(5 + (page_num - 1) / num_pages * 80)] *)
Definition page_progress_base (page_num num_pages : Z) : Result Z :=
  if num_pages =? 0 then Raise ZeroDivisionError
  else
    of_option
      (Py.int (PrimFloat.add (Py.of_int 5)
                 (PrimFloat.mul
                    (PrimFloat.div (Py.of_int (page_num - 1)) (Py.of_int num_pages))
                    (Py.of_int 80))))
      (ValueError "cannot convert float to integer").

(** What the collaborators do on one page: whether the extractor reports
    embedded images, and which sub-step (1 extract, 2 paper, 3 text,
    4 diagrams, 5 compose) raises, if any. *)
Record PageRun : Type := mkPageRun {
  images : bool;
  fault : option (Z * string)
}.

Definition faults_at (pr : PageRun) (step : Z) : option string :=
  match fault pr with
  | Some (s, msg) => if s =? step then Some msg else None
  | None => None
  end.

(** The writes of one turn of the page loop, and the message of the
    exception that ends it, if one is raised. *)
Definition page_writes (num_pages page_num : Z) (pr : PageRun)
    : list Update * option string :=
  match page_progress_base page_num num_pages with
  | Raise e => ([], Some (str e))
  | Ok base =>
    let w1 := progress_stage base
      ("Extracting page " +:+ pretty page_num +:+ "/" +:+ pretty num_pages +:+ "...") in
    match faults_at pr 1 with Some m => ([w1], Some m) | None =>
    let w2 := progress_stage (base + 5)
      ("Rendering paper for page " +:+ pretty page_num +:+ "...") in
    match faults_at pr 2 with Some m => ([w1; w2], Some m) | None =>
    let w3 := progress_stage (base + 10)
      ("Writing text on page " +:+ pretty page_num +:+ "...") in
    match faults_at pr 3 with Some m => ([w1; w2; w3], Some m) | None =>
    let w4 := if images pr
              then [progress_stage (base + 15)
                      ("Converting diagrams on page " +:+ pretty page_num +:+ "...")]
              else [] in
    match (if images pr then faults_at pr 4 else None) with
    | Some m => ([w1; w2; w3] ++ w4, Some m)
    | None =>
    let w5 := progress_stage (base + 18)
      ("Composing page " +:+ pretty page_num +:+ "...") in
    ([w1; w2; w3] ++ w4 ++ [w5], faults_at pr 5)
    end end end end
  end.

(** [for page_num in range(1, num_pages + 1)] *)
Fixpoint page_loop (num_pages : Z) (page_nums : list Z) (run : Z -> PageRun)
    : list Update * option string :=
  match page_nums with
  | [] => ([], None)
  | page_num :: rest =>
      match page_writes num_pages page_num (run page_num) with
      | (ws, Some m) => (ws, Some m)
      | (ws, None) =>
          let '(ws', r) := page_loop num_pages rest run in (ws ++ ws', r)
      end
  end.

Definition failed (msg : string) : Update :=
  mkUpdate (Some FAILED) None (Some "Failed"%string) (Some msg) None None.

(** [process_document_task], from the point where the job record and its
    upload have been found and [get_info] has returned [num_pages]: the
    [_update_job] calls of the run, in order. [export_fault] is the
    exception of the export step, if it raises. *)
Definition process_document_task (num_pages : Z) (run : Z -> PageRun)
    (export_fault : option string) (result : string) (now : Z) : list Update :=
  let w0 := progress_stage 5 "Extracting PDF content..." in
  match page_loop num_pages (Py.range 1 (num_pages + 1) 1) run with
  | (ws, Some m) => w0 :: ws ++ [failed m]
  | (ws, None) =>
      let w6 := progress_stage 90 "Generating output files..." in
      match export_fault with
      | Some m => w0 :: ws ++ [w6; failed m]
      | None =>
          w0 :: ws ++
          [w6; mkUpdate (Some COMPLETED) (Some 100) (Some "Completed"%string)
                        None (Some result) (Some now)]
      end
  end.

(** The progress values of a run, in the order they are written. *)
Definition progress_values (ws : list Update) : list Z :=
  omap u_progress ws.

Fixpoint nondecreasing (l : list Z) : bool :=
  match l with
  | a :: (b :: _) as tl => (a <=? b) && nondecreasing tl
  | _ => true
  end.

Definition within_0_100 (l : list Z) : bool :=
  forallb (fun p => (0 <=? p) && (p <=? 100)) l.

(** A run on which no collaborator raises. *)
Definition successful_run (num_pages : Z) (imgs : Z -> bool) : list Update :=
  process_document_task num_pages (fun p => mkPageRun (imgs p) None)
    None "result.pdf" 0.

End Processor.

(** ** api.py *)

Module Api.

Record ProcessResponse : Type := mkProcessResponse {
  pr_job_id : string;
  pr_status : string;
  pr_message : string
}.

Record StatusResponse : Type := mkStatusResponse {
  sr_job_id : string;
  sr_status : string;
  sr_progress : Z;
  sr_current_stage : string;
  sr_num_pages : Z;
  sr_error_message : option string
}.

(** What a handler leaves behind: its response or HTTP error, the jobs
    table after it, and the background task it queued, if any. *)
Record Outcome (A : Type) : Type := mkOutcome {
  response : Result A;
  jobs : gmap string Job;
  queued : option (string * ProcessConfig)
}.
Arguments mkOutcome {A} _ _ _.
Arguments response {A} _.
Arguments jobs {A} _.
Arguments queued {A} _.

(** [POST /process/{job_id}] *)
Definition process_document (db : gmap string Job) (job_id : string)
    (request : ProcessConfig) (now : Z) : Outcome ProcessResponse :=
  match db !! job_id with
  | None => mkOutcome (Raise (HTTPException 404 "Job not found")) db None
  | Some job =>
      if decide (status job = PROCESSING) then
        mkOutcome (Raise (HTTPException 400 "Job is already processing")) db None
      else if decide (status job = COMPLETED) then
        mkOutcome (Raise (HTTPException 400 "Job already completed")) db None
      else
        let job' :=
          mkJob (id job) (filename job) PROCESSING (Some request)
                (num_pages job) 0 "Starting..." (upload_path job)
                (result_path job) (error_message job) now (completed_at job) in
        mkOutcome
          (Ok (mkProcessResponse job_id "processing"
                 "Processing started. Use /status endpoint to track progress."))
          (<[job_id := job']> db)
          (Some (job_id, request))
  end.

(** [GET /status/{job_id}] *)
Definition get_status (db : gmap string Job) (job_id : string)
    : Outcome StatusResponse :=
  match db !! job_id with
  | None => mkOutcome (Raise (HTTPException 404 "Job not found")) db None
  | Some job =>
      mkOutcome
        (Ok (mkStatusResponse (id job) (value (status job)) (progress job)
               (current_stage job) (num_pages job) (error_message job)))
        db None
  end.

(** [DELETE /jobs/{job_id}], as far as the jobs table goes. *)
Definition delete_job (db : gmap string Job) (job_id : string)
    : Outcome string :=
  match db !! job_id with
  | None => mkOutcome (Raise (HTTPException 404 "Job not found")) db None
  | Some _ => mkOutcome (Ok "Job deleted successfully"%string) (delete job_id db) None
  end.

(** The reading of the specification: a job that is Failed or Completed
    is left as it is by a start-processing request. *)
Definition terminal_under_start (job : Job) : Prop :=
  forall db job_id request now,
    db !! job_id = Some job ->
    jobs (process_document db job_id request now) !! job_id = Some job.

Definition failed_job : Job :=
  mkJob "j1" "notes.pdf" FAILED (Some default_config) 2 45 "Failed"
        (Some "uploads/j1/original.pdf"%string) None (Some "boom"%string) 7 None.

Definition completed_job : Job :=
  mkJob "j2" "notes.pdf" COMPLETED (Some default_config) 2 100 "Completed"
        (Some "uploads/j2/original.pdf"%string)
        (Some "results/j2/result.pdf"%string) None 9 (Some 9).

End Api.

(** ** Python's [random] module

    Code that draws from the module-level generator is a tree of requests:
    [random.random()] asks for a float of [0, 1), [_randbelow(n)] (behind
    [choice], [randint] and [randrange]) for an int of [0, n). *)

Module Random.

Inductive Rand (A : Type) : Type :=
| Ret (a : A)
| NextFloat (k : float -> Rand A)
| RandBelow (n : Z) (k : Z -> Rand A).
Arguments Ret {A} a.
Arguments NextFloat {A} k.
Arguments RandBelow {A} n k.

Fixpoint bind {A B} (m : Rand A) (f : A -> Rand B) : Rand B :=
  match m with
  | Ret a => f a
  | NextFloat k => NextFloat (fun r => bind (k r) f)
  | RandBelow n k => RandBelow n (fun v => bind (k v) f)
  end.

#[global] Instance Rand_ret : MRet Rand := @Ret.
#[global] Instance Rand_bind : MBind Rand := fun A B f m => bind m f.

(** [random.random()] *)
Definition random : Rand float := NextFloat Ret.

(** [random.uniform(a, b)]: [a + (b - a) * self.random()] *)
Definition uniform_at (a b r : float) : float := (a + (b - a) * r)%float.

Definition uniform (a b : float) : Rand float :=
  NextFloat (fun r => Ret (uniform_at a b r)).

(** [random.randint(a, b)]; [None] is the ValueError of an empty range. *)
Definition randint (a b : Z) : Rand (option Z) :=
  if b - a + 1 <=? 0 then Ret None
  else RandBelow (b - a + 1) (fun v => Ret (Some (a + v))).

(** [random.choice(seq)] on a sequence with first element [x]. The
    generator answers within the range; on any other answer the model
    yields [x]. *)
Definition choice {A} (x : A) (xs : list A) : Rand A :=
  RandBelow (Z.of_nat (length (x :: xs)))
            (fun i => Ret (nth (Z.to_nat i) (x :: xs) x)).

(** [itertools.accumulate(weights)] *)
Fixpoint accumulate_from (total : float) (ws : list float) : list float :=
  match ws with
  | [] => []
  | w :: ws' => (total + w)%float :: accumulate_from (total + w)%float ws'
  end.

Definition accumulate (ws : list float) : list float :=
  match ws with
  | [] => []
  | w :: ws' => w :: accumulate_from w ws'
  end.

(** [bisect.bisect_right(a, x, lo, hi)] *)
Fixpoint bisect (fuel : nat) (a : list float) (x : float) (lo hi : Z) : Z :=
  match fuel with
  | O => lo
  | S fuel' =>
      if lo <? hi then
        let mid := (lo + hi) / 2 in
        if (x <? nth (Z.to_nat mid) a nan)%float
        then bisect fuel' a x lo mid
        else bisect fuel' a x (mid + 1) hi
      else lo
  end.

(** [random.choices(population, weights=weights, k=1)[0]] on a population
    with first element [x]: one float draw, scaled by the total weight and
    located among the cumulative weights. *)
Definition choices {A} (x : A) (xs : list A) (weights : list float) : Rand A :=
  let population := x :: xs in
  let cum_weights := accumulate weights in
  let total := (List.last cum_weights 0 + 0)%float in
  let hi := Z.of_nat (length population) - 1 in
  NextFloat (fun r =>
    Ret (nth (Z.to_nat (bisect (length population) cum_weights (r * total)%float 0 hi))
             population x)).

(** One answer of the generator. *)
Inductive Draw : Type :=
| DFloat (r : float)
| DBelow (v : Z).

(** [Runs m draws a]: the program [m], given exactly the answers [draws],
    in order, returns [a]. A float answer lies in [0, 1), an answer to
    [_randbelow(n)] in [0, n). *)
Inductive Runs {A : Type} : Rand A -> list Draw -> A -> Prop :=
| Runs_ret a : Runs (Ret a) [] a
| Runs_float k r draws a :
    (0 <=? r)%float = true -> (r <? 1)%float = true ->
    Runs (k r) draws a -> Runs (NextFloat k) (DFloat r :: draws) a
| Runs_below n k v draws a :
    0 <= v < n ->
    Runs (k v) draws a -> Runs (RandBelow n k) (DBelow v :: draws) a.

(** Every [_randbelow(n)] request of the program has a positive [n]. *)
Inductive proper {A : Type} : Rand A -> Prop :=
| proper_ret a : proper (Ret a)
| proper_float k : (forall r, proper (k r)) -> proper (NextFloat k)
| proper_below n k : 0 < n -> (forall v, proper (k v)) -> proper (RandBelow n k).

(** A random source: an endless supply of raw values, the i-th request
    being served from the i-th one. *)
Record Source : Type := mkSource {
  floats : nat -> float;
  ints : nat -> Z
}.

(** A raw float is brought into [0, 1), a raw int into [0, n). *)
Definition to_unit (r : float) : float :=
  if ((0 <=? r) && (r <? 1))%float then r else 0%float.

(** Runs [m] against a source from request number [i] on; returns the
    result and the answers given. *)
Fixpoint interp {A} (m : Rand A) (src : Source) (i : nat) : A * list Draw :=
  match m with
  | Ret a => (a, [])
  | NextFloat k =>
      let r := to_unit (floats src i) in
      let '(a, ds) := interp (k r) src (S i) in (a, DFloat r :: ds)
  | RandBelow n k =>
      let v := ints src i `mod` n in
      let '(a, ds) := interp (k v) src (S i) in (a, DBelow v :: ds)
  end.

End Random.
Import Random.

(** ** Python's [str] *)

Module Str.

(** [len(s)] *)
Definition len (s : string) : Z := Z.of_nat (String.length s).

(** [c.isspace()] on the Latin-1 range. *)
Definition isspace (c : ascii) : bool :=
  let n := Z.of_nat (nat_of_ascii c) in
  ((9 <=? n) && (n <=? 13)) || ((28 <=? n) && (n <=? 32))
  || (n =? 133) || (n =? 160).

(** No character of the string is whitespace. *)
Fixpoint nospace (s : string) : bool :=
  match s with
  | EmptyString => true
  | String c s' => negb (isspace c) && nospace s'
  end.

(** [s.split()]: the maximal runs of non-whitespace, in order. [word] is
    the run being read. *)
Fixpoint split_from (word : string) (s : string) : list string :=
  match s with
  | EmptyString =>
      match word with EmptyString => [] | _ => [word] end
  | String c s' =>
      if isspace c then
        match word with
        | EmptyString => split_from EmptyString s'
        | _ => word :: split_from EmptyString s'
        end
      else split_from (word +:+ String c EmptyString) s'
  end.

Definition split (s : string) : list string := split_from EmptyString s.

Fixpoint lstrip (s : string) : string :=
  match s with
  | EmptyString => EmptyString
  | String c s' => if isspace c then lstrip s' else s
  end.

Fixpoint rstrip (s : string) : string :=
  match s with
  | EmptyString => EmptyString
  | String c s' =>
      match rstrip s' with
      | EmptyString => if isspace c then EmptyString else String c EmptyString
      | r => String c r
      end
  end.

(** [s.strip()] *)
Definition strip (s : string) : string := rstrip (lstrip s).

(** An index or slice bound as Python reads it: counted from the end when
    negative. *)
Definition from_end (s : string) (i : Z) : Z := if i <? 0 then len s + i else i.

(** [s[i]]; [None] is the IndexError. *)
Definition item (s : string) (i : Z) : option ascii :=
  let j := from_end s i in
  if (0 <=? j) && (j <? len s) then String.get (Z.to_nat j) s else None.

(** [s[:i]] *)
Definition slice_to (s : string) (i : Z) : string :=
  String.substring 0 (Z.to_nat (from_end s i)) s.

(** [s[i:]] *)
Definition slice_from (s : string) (i : Z) : string :=
  let j := Z.to_nat (from_end s i) in
  String.substring j (String.length s - j) s.

Definition is_ascii_upper (c : ascii) : bool :=
  let n := Z.of_nat (nat_of_ascii c) in (65 <=? n) && (n <=? 90).

Definition is_ascii_lower (c : ascii) : bool :=
  let n := Z.of_nat (nat_of_ascii c) in (97 <=? n) && (n <=? 122).

(** Upper-case letters of the Latin-1 range: A-Z, and 192-222 but the
    multiplication sign 215. *)
Definition isupper (c : ascii) : bool :=
  let n := Z.of_nat (nat_of_ascii c) in
  is_ascii_upper c || ((192 <=? n) && (n <=? 222) && negb (n =? 215)).

(** [c.lower()] within the Latin-1 range. *)
Definition lower (c : ascii) : ascii :=
  if isupper c then ascii_of_nat (nat_of_ascii c + 32) else c.

(** [c.upper()] for a character whose upper case lies in the Latin-1
    range; the micro sign, the sharp s and y with diaeresis (181, 223,
    255) leave the range and are kept as they are. *)
Definition upper (c : ascii) : ascii :=
  let n := Z.of_nat (nat_of_ascii c) in
  if is_ascii_lower c || ((224 <=? n) && (n <=? 254) && negb (n =? 247))
  then ascii_of_nat (nat_of_ascii c - 32) else c.

Definition of_char (c : ascii) : string := String c EmptyString.

End Str.

(** ** Pillow

    The part of PIL the back end calls, as its documentation and C sources
    describe it. A raster has a mode, a size and a pixel at every
    coordinate; a pixel is a red, green, blue, alpha tuple of bytes, the
    alpha of an RGB raster being 255. *)

Module PIL.

Definition Pixel : Type := Z * Z * Z * Z.

Definition alpha_of (p : Pixel) : Z := snd p.

Inductive Mode : Type := RGB | RGBA.

#[global] Instance Mode_eq_dec : EqDecision Mode.
Proof. solve_decision. Defined.

Record Image : Type := mkImage {
  mode : Mode;
  width : Z;
  height : Z;
  getpixel : Z -> Z -> Pixel
}.

Definition size (im : Image) : Z * Z := (width im, height im).

(** [Image.new(mode, size, color)] *)
Definition new (m : Mode) (sz : Z * Z) (color : Pixel) : Image :=
  mkImage m (fst sz) (snd sz) (fun _ _ => color).

Definition opaque (p : Pixel) : Pixel :=
  let '(r, g, b, _) := p in (r, g, b, 255).

(** [im.convert(mode)]: to RGBA an opaque alpha band is added, to RGB the
    alpha band is dropped. *)
Definition convert (im : Image) (m : Mode) : Image :=
  match m, mode im with
  | RGB, RGBA | RGBA, RGB =>
      mkImage m (width im) (height im) (fun x y => opaque (getpixel im x y))
  | _, _ => im
  end.

(** The pixels of [im.resize(size, Image.Resampling.LANCZOS)], a
    parameter of the model. *)
Definition Resampler : Type := Image -> Z * Z -> Z -> Z -> Pixel.

(** [im.resize(size, LANCZOS)]: a copy when the size is the image's own,
    a ValueError when a side is below 1. *)
Definition resize (lanczos : Resampler) (im : Image) (sz : Z * Z) : Result Image :=
  if decide (size im = sz) then Ok im
  else if (fst sz <? 1) || (snd sz <? 1)
       then Raise (ValueError "height and width must be > 0")
       else Ok (mkImage (mode im) (fst sz) (snd sz) (lanczos im sz)).

Definition SHIFTFORDIV255 (a : Z) : Z := Z.shiftr (Z.shiftr a 8 + a) 8.

(** [DIV255(a)]: division by 255, rounded. *)
Definition DIV255 (a : Z) : Z := SHIFTFORDIV255 (a + 128).

(** One pixel of [Image.alpha_composite(dst, src)] (AlphaComposite.c). *)
Definition over (dst src : Pixel) : Pixel :=
  let '(dr, dg, db, da) := dst in
  let '(sr, sg, sb, sa) := src in
  if sa =? 0 then dst
  else
    let blend := da * (255 - sa) in
    let outa255 := sa * 255 + blend in
    let coef1 := sa * 255 * 255 * 128 / outa255 in
    let coef2 := 255 * 128 - coef1 in
    let channel s d :=
      Z.shiftr (SHIFTFORDIV255 (s * coef1 + d * coef2 + Z.shiftl 128 7)) 7 in
    (channel sr dr, channel sg dg, channel sb db, SHIFTFORDIV255 (outa255 + 128)).

(** [Image.alpha_composite(im1, im2)] *)
Definition alpha_composite (im1 im2 : Image) : Result Image :=
  if decide (mode im1 = RGBA /\ mode im2 = RGBA /\ size im1 = size im2)
  then Ok (mkImage RGBA (width im1) (height im1)
                   (fun x y => over (getpixel im1 x y) (getpixel im2 x y)))
  else Raise (ValueError "images do not match").

(** [BLEND(mask, in1, in2)] of Paste.c *)
Definition blend (mask in1 in2 : Z) : Z :=
  DIV255 (in1 * (255 - mask) + in2 * mask).

Definition blend_pixel (mask : Z) (p1 p2 : Pixel) : Pixel :=
  let '(r1, g1, b1, a1) := p1 in
  let '(r2, g2, b2, a2) := p2 in
  (blend mask r1 r2, blend mask g1 g2, blend mask b1 b2, blend mask a1 a2).

Definition inside (im : Image) (x y : Z) : bool :=
  (0 <=? x) && (x <? width im) && (0 <=? y) && (y <? height im).

(** [im.paste(src, (x0, y0), mask)] for RGBA rasters, [mask] of the size
    of [src]: the part of the box that falls on the image is mixed in by
    the alpha band of the mask, the rest of the image is kept, and so is
    its size. *)
Definition paste (im src : Image) (box : Z * Z) (mask : Image) : Image :=
  let '(x0, y0) := box in
  mkImage (mode im) (width im) (height im)
    (fun x y =>
       if inside im x y && inside src (x - x0) (y - y0) then
         blend_pixel (alpha_of (getpixel mask (x - x0) (y - y0)))
                     (getpixel im x y) (getpixel src (x - x0) (y - y0))
       else getpixel im x y).

(** A font as [ImageFont] hands it out: a TrueType file at a pixel size,
    or the built-in bitmap font of [load_default()]. *)
Inductive Font : Type :=
| truetype (path : string) (size : Z)
| load_default.

(** The calls made on an [ImageDraw] handle. An int coordinate is
    recorded as the float PIL reads it as. *)
Inductive DrawOp : Type :=
| draw_text (xy : float * float) (s : string) (f : Font) (fill : Pixel)
| draw_line (points : list (float * float)) (fill : Pixel) (width : Z).

Definition BBox : Type := float * float * float * float.

End PIL.
Import PIL.

(** ** services/handwriting_engine.py *)

Module HandwritingEngine.
Import Str.

(** The fields [__init__] sets. *)
Record Engine : Type := mkEngine {
  style : string;
  imperfection_level : float;
  ink_color : Z * Z * Z;
  font_size : Z;
  line_spacing : Z;
  enable_smudges : bool;
  font : Font;
  small_font : Font
}.


Section Init.

(** Which font files can be opened, and [_parse_color]. *)
Variable readable : string -> bool.
Variable _parse_color : string -> Z * Z * Z.



End Init.

Inductive SegType : Type := normal | error | strikethrough | erasure.

(** A segment dict: ["text"], ["type"] and, for some types, ["correction"]. *)
Record Segment : Type := mkSegment {
  text : string;
  type : SegType;
  correction : option string
}.

(** The [nearby] table, read as [nearby.get(ch, ch)]. *)
Definition nearby_get (ch : ascii) : ascii :=
  match ch with
  | "a" => "s" | "s" => "a" | "d" => "s" | "e" => "r" | "r" => "t"
  | "t" => "y" | "i" => "o" | "o" => "p" | "n" => "m" | "m" => "n"
  | _ => ch
  end%char.

(** The body of a [try] branch: an IndexError or ValueError in it falls
    through to the final [return word]. *)
Definition or_word (word : string) (attempt : option string) : string :=
  default word attempt.

(** [_make_spelling_error] *)
Definition _make_spelling_error (word : string) : Rand string :=
  if len word <? 3 then mret word
  else
    error_type ← choice "swap"%string ["double"; "miss"; "nearby"]%string;
    if String.eqb error_type "swap" && (3 <=? len word) then
      pos ← randint 1 (len word - 2);
      mret (or_word word
        (pos ← pos;
         a ← item word (pos + 1);
         b ← item word pos;
         Some (slice_to word pos +:+ of_char a +:+ of_char b
               +:+ slice_from word (pos + 2))))
    else if String.eqb error_type "double" then
      pos ← randint 0 (len word - 1);
      mret (or_word word
        (pos ← pos;
         a ← item word pos;
         Some (slice_to word pos +:+ of_char a +:+ slice_from word pos)))
    else if String.eqb error_type "miss" && (4 <=? len word) then
      pos ← randint 1 (len word - 2);
      mret (or_word word
        (pos ← pos;
         Some (slice_to word pos +:+ slice_from word (pos + 1))))
    else if String.eqb error_type "nearby" then
      pos ← randint 0 (len word - 1);
      mret (or_word word
        (pos ← pos;
         c ← item word pos;
         let ch := lower c in
         let replacement := nearby_get ch in
         let replacement := if isupper c then upper replacement else replacement in
         Some (slice_to word pos +:+ of_char replacement
               +:+ slice_from word (pos + 1))))
    else mret word.

(** The segment for one word of the line. *)
Definition imperfect_word (self : Engine) (word : string) : Rand Segment :=
  match strip word with
  | EmptyString => mret (mkSegment " " normal None)
  | _ =>
      roll ← random;
      if (roll <? imperfection_level self)%float && (2 <? len word) then
        mistake ← choices "spelling"%string ["strikethrough"; "erasure"]%string
                    [0.4; 0.4; 0.2]%float;
        if String.eqb mistake "spelling" then
          misspelled ← _make_spelling_error word;
          mret (mkSegment misspelled error (Some word))
        else if String.eqb mistake "strikethrough" then
          mret (mkSegment word strikethrough (Some word))
        else
          mret (mkSegment word erasure None)
      else mret (mkSegment word normal None)
  end.

(** [for word in words: ... segments.append(...)] *)
Fixpoint imperfect_words (self : Engine) (words : list string)
    : Rand (list Segment) :=
  match words with
  | [] => mret []
  | word :: rest =>
      segment ← imperfect_word self word;
      segments ← imperfect_words self rest;
      mret (segment :: segments)
  end.

(** [_apply_imperfections] *)
Definition _apply_imperfections (self : Engine) (text : string)
    : Rand (list Segment) :=
  imperfect_words self (split text).

(** *** The stroke renderer *)

(** The ink colour tuple extended by an alpha value. *)
Definition with_alpha (c : Z * Z * Z) (alpha : Z) : Pixel :=
  let '(r, g, b) := c in (r, g, b, alpha).

(** Programs that draw from [random] and may raise. *)
Definition RandE (A : Type) : Type := Rand (Result A).

Definition bindE {A B} (m : RandE A) (f : A -> RandE B) : RandE B :=
  bind m (fun r => match r with Ok a => f a | Raise e => Ret (Raise e) end).

Definition liftE {A} (m : Rand A) : RandE A := bind m (fun a => Ret (Ok a)).

Definition retE {A} (a : A) : RandE A := Ret (Ok a).

(** [int(x)] *)
Definition int (x : float) : RandE Z :=
  Ret (of_option (Py.int x) (ValueError "cannot convert float to integer")).

(** [segment["correction"]] *)
Definition get_correction (segment : Segment) : RandE string :=
  Ret (of_option (correction segment) (KeyError "correction")).

Section Render.

(** [draw.textbbox(xy, text, font=font)]: left, top, right, bottom. *)
Variable textbbox : float * float -> string -> Font -> BBox.

(** [for px in range(...): wave = random.uniform(-1.5, 1.5);
    points.append((px, mid_y + wave))] *)
Fixpoint wave_points (pxs : list Z) (mid_y : float) : Rand (list (float * float)) :=
  match pxs with
  | [] => mret []
  | px :: rest =>
      wave ← uniform (-1.5) 1.5;
      points ← wave_points rest mid_y;
      mret ((Py.of_int px, (mid_y + wave)%float) :: points)
  end.

(** One turn of the loop of [_render_line]: the calls on [draw] for one
    segment, and the cursor after it. *)
Definition render_segment (self : Engine) (y scale cursor_x : float)
    (segment : Segment) : RandE (list DrawOp * float) :=
  let text := text segment in
  bindE (liftE (uniform (-2) 2)) (fun u1 =>
  let jx := (u1 * scale)%float in
  bindE (liftE (uniform (-1.5) 1.5)) (fun u2 =>
  let jy := (u2 * scale)%float in
  bindE (liftE (uniform 0.75 1.0)) (fun pressure =>
  bindE (int (255 * pressure)%float) (fun alpha =>
  let ink := with_alpha (ink_color self) alpha in
  let pos_x := (cursor_x + jx)%float in
  let pos_y := (y + jy)%float in
  let '(b0, b1, b2, b3) := textbbox (pos_x, pos_y) text (font self) in
  let advance (ops : list DrawOp) : RandE (list DrawOp * float) :=
    let word_width := (b2 - b0)%float in
    bindE (liftE (uniform 4 8)) (fun gap =>
    retE (ops, (cursor_x + (word_width + gap * scale))%float)) in
  match type segment with
  | strikethrough =>
      let op1 := draw_text (pos_x, pos_y) text (font self) ink in
      let mid_y := ((b1 + b3) / 2)%float in
      bindE (int (b0 - 3)%float) (fun lo =>
      bindE (int (b2 + 3)%float) (fun hi =>
      bindE (liftE (wave_points (Py.range lo hi 4) mid_y)) (fun points =>
      let op2 := if 1 <? Z.of_nat (length points)
                 then [draw_line points (with_alpha (ink_color self) 200) 2]
                 else [] in
      let corr_y := (b1 - Py.of_int (font_size self) * scale - 2)%float in
      bindE (int (Py.of_int alpha * 0.9)%float) (fun corr_alpha =>
      let corr_ink := with_alpha (ink_color self) corr_alpha in
      bindE (liftE (uniform (-3) 3)) (fun dx =>
      bindE (get_correction segment) (fun corr =>
      advance ([op1] ++ op2 ++
               [draw_text ((pos_x + dx)%float, corr_y) corr
                          (small_font self) corr_ink])))))))
  | error =>
      let op1 := draw_text (pos_x, pos_y) text (font self) ink in
      let mid_y := ((b1 + b3) / 2)%float in
      let op2 := draw_line [(b0, mid_y); (b2, mid_y)]
                           (with_alpha (ink_color self) 150) 1 in
      let corr_y := (b1 - Py.of_int (font_size self) * scale - 2)%float in
      bindE (liftE (uniform (-2) 2)) (fun dx =>
      bindE (get_correction segment) (fun corr =>
      bindE (int (Py.of_int alpha * 0.9)%float) (fun corr_alpha =>
      advance [op1; op2;
               draw_text ((pos_x + dx)%float, corr_y) corr (small_font self)
                         (with_alpha (ink_color self) corr_alpha)])))
  | erasure =>
      let faded_ink := with_alpha (ink_color self) 60 in
      let op1 := draw_text (pos_x, pos_y) text (font self) faded_ink in
      bindE (liftE (uniform 1 3)) (fun dx =>
      bindE (liftE (uniform (-1) 1)) (fun dy =>
      advance [op1;
               draw_text ((pos_x + dx)%float, (pos_y + dy)%float) text
                         (font self) ink]))
  | normal =>
      advance [draw_text (pos_x, pos_y) text (font self) ink]
  end)))).

(** [_render_line]: the calls on [draw], in order. *)
Fixpoint render_segments (self : Engine) (y scale cursor_x : float)
    (segments : list Segment) : RandE (list DrawOp) :=
  match segments with
  | [] => retE []
  | segment :: rest =>
      bindE (render_segment self y scale cursor_x segment) (fun '(ops, cursor_x') =>
      bindE (render_segments self y scale cursor_x' rest) (fun ops' =>
      retE (ops ++ ops')))
  end.

Definition _render_line (self : Engine) (segments : list Segment)
    (x y scale : float) : RandE (list DrawOp) :=
  render_segments self y scale x segments.

End Render.

(** The reading of the specification for a Misspelled segment: the second
    call is a two-point line lying at or below the bottom of the box of
    the text drawn by the first call. *)
Definition underlined_beneath (bottom : float) (ops : list DrawOp) : bool :=
  match ops with
  | [draw_text _ _ _ _; draw_line [(_, y0); (_, y1)] _ _; draw_text _ _ _ _] =>
      ((bottom <=? y0) && (bottom <=? y1))%float
  | _ => false
  end.

(** A text box of 10 by 20 pixels per character, for examples. *)
Definition box_metrics (xy : float * float) (s : string) (f : Font) : BBox :=
  let '(x, y) := xy in
  (x, y, (x + 10 * Py.of_int (len s))%float, (y + 20)%float).

(** The word a segment stands for: its correction where it carries one,
    its text otherwise. *)
Definition original (seg : Segment) : string :=
  default (text seg) (correction seg).

(** The reading of the specification: the words and the whitespace runs
    of a line, in order. [run] is the token being read, [ws] tells whether
    it is whitespace. *)
Fixpoint tokens_from (run : string) (ws : bool) (s : string) : list string :=
  match s with
  | EmptyString => match run with EmptyString => [] | _ => [run] end
  | String c s' =>
      if Bool.eqb (isspace c) ws then tokens_from (run +:+ of_char c) ws s'
      else match run with
           | EmptyString => tokens_from (of_char c) (isspace c) s'
           | _ => run :: tokens_from (of_char c) (isspace c) s'
           end
  end.

Definition tokens (s : string) : list string := tokens_from EmptyString false s.

(** Every word and every whitespace token of the line is the text, or the
    corrected text, of some segment. *)
Definition covers_tokens (line : string) (segments : list Segment) : Prop :=
  forall t, In t (tokens line) ->
    exists seg, In seg segments /\ (text seg = t \/ correction seg = Some t).

Definition engine (level : float) : Engine :=
  mkEngine "Caveat" level (26, 26, 46) 18 28 true
           (truetype "fonts/Caveat-Regular.ttf" 18)
           (truetype "fonts/Caveat-Regular.ttf" 13).

Definition other_engine : Engine :=
  mkEngine "Patrick Hand" 0.2 (0, 0, 0) 24 32 false
           (truetype "fonts/PatrickHand-Regular.ttf" 24)
           (truetype "fonts/PatrickHand-Regular.ttf" 18).

(** A run on "helo world of" at probability 0.2: a swap, a strike, and a
    short word left alone. *)
Definition misspelling_draws : list Draw :=
  [DFloat 0.1; DFloat 0.1; DBelow 0; DBelow 0;
   DFloat 0.1; DFloat 0.5; DFloat 0.9].

Definition misspelling_segments : list Segment :=
  [mkSegment "hleo" error (Some "helo"%string);
   mkSegment "world" strikethrough (Some "world"%string);
   mkSegment "of" normal None].

(** A source that always answers with the same float and int. *)
Definition constant_source (r : float) (v : Z) : Source :=
  mkSource (fun _ => r) (fun _ => v).

End HandwritingEngine.

(** ** services/paper_renderer.py *)

Module PaperRenderer.

Definition line_color : Pixel := (190, 210, 230, 128).
Definition margin_color : Pixel := (240, 130, 130, 100).

(** [for x in range(0, w, 15): jitter = random.uniform(-0.3, 0.3);
    points.append((x, y + jitter))] *)
Fixpoint rule_points (xs : list Z) (y : Z) : Rand (list (float * float)) :=
  match xs with
  | [] => mret []
  | x :: rest =>
      jitter ← uniform (-0.3) 0.3;
      points ← rule_points rest y;
      mret ((Py.of_int x, (Py.of_int y + jitter)%float) :: points)
  end.

(** [while y < h - 20: ...; y += spacing], run for at most [fuel] turns;
    [None] when the loop has not ended by then. *)
Fixpoint rule_lines (fuel : nat) (w h spacing y : Z) : Rand (option (list DrawOp)) :=
  match fuel with
  | O => mret None
  | S fuel' =>
      if y <? h - 20 then
        points ← rule_points (Py.range 0 w 15) y;
        let line := if 1 <? Z.of_nat (length points)
                    then [draw_line points line_color 1] else [] in
        rest ← rule_lines fuel' w h spacing (y + spacing);
        mret (option_map (app line) rest)
      else mret (Some [])
  end.

(** The number of turns the rule loop takes from [y] on. *)
Definition turns (h spacing y : Z) : Z :=
  Z.max 0 ((h - 20 - y + spacing - 1) / spacing).

(** [_draw_lined]: the calls on [draw], in order. *)
Definition _draw_lined (fuel : nat) (w h : Z) (config : ProcessConfig)
    : Rand (option (Result (list DrawOp))) :=
  let spacing := Schemas.line_spacing config in
  match Py.int (Py.of_int w * 0.12)%float with
  | None => mret (Some (Raise (ValueError "cannot convert float to integer")))
  | Some margin_x =>
      let margin := draw_line [(Py.of_int margin_x, Py.of_int 0);
                               (Py.of_int margin_x, Py.of_int h)]
                              margin_color 2 in
      rules ← rule_lines fuel w h spacing (spacing + 40);
      mret (option_map (fun ops => Ok (margin :: ops)) rules)
  end.

Definition is_rule (op : DrawOp) : bool :=
  match op with
  | draw_line _ fill 1 => bool_decide (fill = line_color)
  | _ => false
  end.

(** The number of horizontal rule lines among the calls. *)
Definition rule_count (ops : list DrawOp) : Z :=
  Z.of_nat (length (List.filter is_rule ops)).

End PaperRenderer.

(** ** The diagram dicts *)

Module Diagrams.

(** What [diagram.get("converted_image")] can hold: a raster, raw bytes,
    or a value that is neither. *)
Inductive Converted : Type :=
| as_image (im : Image)
| as_bytes (b : string)
| as_other.

(** A diagram dict; [None] is an absent key. *)
Record Diagram : Type := mkDiagram {
  image : option Image;
  image_bytes : option string;
  image_hash : string;
  x : option float;
  y : option float;
  width : option float;
  height : option float;
  converted_image : option Converted;
  from_cache : option bool;
  warning : option string
}.

Definition set_converted (d : Diagram) (c : option Converted) : Diagram :=
  mkDiagram (image d) (image_bytes d) (image_hash d) (x d) (y d) (width d)
            (height d) c (from_cache d) (warning d).

Definition set_from_cache (d : Diagram) (b : bool) : Diagram :=
  mkDiagram (image d) (image_bytes d) (image_hash d) (x d) (y d) (width d)
            (height d) (converted_image d) (Some b) (warning d).

Definition set_warning (d : Diagram) (w : string) : Diagram :=
  mkDiagram (image d) (image_bytes d) (image_hash d) (x d) (y d) (width d)
            (height d) (converted_image d) (from_cache d) (Some w).

End Diagrams.
Import Diagrams.

(** ** services/layout_composer.py *)

Module LayoutComposer.

Section Compose.

(** Lanczos resampling, and [Image.open(io.BytesIO(b))] ([None] when the
    bytes are no image). *)
Variable lanczos : Resampler.
Variable open_bytes : string -> option Image.

(** [int(diagram.get(key, default) * scale)] *)
Definition scaled (v : option float) (dflt : Z) (scale : float) : Result Z :=
  of_option (Py.int (default (Py.of_int dflt) v * scale)%float)
            (ValueError "cannot convert float to integer").

(** The raster a diagram is pasted from, if the loop does not skip it. *)
Definition usable (diagram : Diagram) : Result (option Image) :=
  match converted_image diagram with
  | None => Ok None
  | Some (as_bytes b) =>
      match open_bytes b with
      | Some im => Ok (Some (PIL.convert im RGBA))
      | None => Raise (RuntimeFault "cannot identify image file")
      end
  | Some (as_image im) => Ok (Some im)
  | Some as_other => Ok None
  end.

(** The target rectangle in pixels: x, y, w, h. *)
Definition target (diagram : Diagram) (converted : Image) (scale : float)
    : Result (Z * Z * Z * Z) :=
  x ← scaled (Diagrams.x diagram) 0 scale;
  y ← scaled (Diagrams.y diagram) 0 scale;
  w ← scaled (Diagrams.width diagram) (PIL.width converted) scale;
  h ← scaled (Diagrams.height diagram) (PIL.height converted) scale;
  Ok (x, y, w, h).

(** [if converted.mode != "RGBA": converted = converted.convert("RGBA")] *)
Definition ensure_rgba (converted : Image) : Image :=
  if decide (mode converted = RGBA) then converted
  else PIL.convert converted RGBA.

(** One turn of [for diagram in diagrams]. *)
Definition paste_diagram (scale : float) (page : Image) (diagram : Diagram)
    : Result Image :=
  converted ← usable diagram;
  match converted with
  | None => Ok page
  | Some converted =>
      '(x, y, w, h) ← target diagram converted scale;
      converted ← resize lanczos converted (w, h);
      let converted := ensure_rgba converted in
      Ok (paste page converted (x, y) converted)
  end.

Fixpoint paste_diagrams (scale : float) (page : Image) (diagrams : list Diagram)
    : Result Image :=
  match diagrams with
  | [] => Ok page
  | diagram :: rest =>
      page' ← paste_diagram scale page diagram;
      paste_diagrams scale page' rest
  end.

(** The page after layer 1: the paper under the text layer. *)
Definition with_text (paper : Image) (text_layer : option Image) : Result Image :=
  let page := PIL.convert paper RGBA in
  match text_layer with
  | None => Ok page
  | Some text_layer =>
      text_layer ← (if decide (size text_layer = size page) then Ok text_layer
                    else resize lanczos text_layer (size page));
      alpha_composite page text_layer
  end.

(** [compose_page] *)
Definition compose_page (paper : Image) (text_layer : option Image)
    (diagrams : list Diagram) (scale : float) : Result Image :=
  page ← with_text paper text_layer;
  page ← paste_diagrams scale page diagrams;
  Ok (PIL.convert page RGB).

(** The inputs on which no call of [compose_page] raises: the text layer
    is RGBA and of the paper's size, or can be resized to it; every
    diagram the loop does not skip has a raster that opens and a target
    rectangle of finite coordinates, at least one pixel wide and high
    (or of the raster's own size). *)
Definition text_layer_ok (paper : Image) (text_layer : option Image) : bool :=
  match text_layer with
  | None => true
  | Some t =>
      bool_decide (mode t = RGBA) &&
      (bool_decide (size t = size paper)
       || ((1 <=? PIL.width paper) && (1 <=? PIL.height paper)))
  end.

Definition pasteable (scale : float) (diagram : Diagram) : bool :=
  match usable diagram with
  | Raise _ => false
  | Ok None => true
  | Ok (Some converted) =>
      match target diagram converted scale with
      | Raise _ => false
      | Ok (_, _, w, h) =>
          bool_decide (size converted = (w, h)) || ((1 <=? w) && (1 <=? h))
      end
  end.

(** A diagram the loop pastes (its raster opens and its coordinates are
    finite) whose target rectangle is less than one pixel wide or high
    and is not the raster's own size: [resize] raises on it. *)
Definition flat (scale : float) (diagram : Diagram) : bool :=
  match usable diagram with
  | Ok (Some converted) =>
      match target diagram converted scale with
      | Ok (_, _, w, h) =>
          negb (bool_decide (size converted = (w, h))) && ((w <? 1) || (h <? 1))
      | Raise _ => false
      end
  | _ => false
  end.

End Compose.

(** The pixel of a result at a coordinate, if there is a result. *)
Definition pixel_at (r : Result Image) (x y : Z) : option Pixel :=
  match r with
  | Ok im => Some (getpixel im x y)
  | Raise _ => None
  end.

Definition is_byte (v : Z) : Prop := 0 <= v <= 255.

Definition byte_pixel (p : Pixel) : Prop :=
  let '(r, g, b, _) := p in is_byte r /\ is_byte g /\ is_byte b.

(** The reading of the specification: [out] shows the raster [src],
    pasted at [(x0, y0)], unmixed wherever the raster is not fully
    transparent. *)
Definition overwritten_within_mask (out src : Image) (x0 y0 : Z) : Prop :=
  forall x y,
    inside out x y = true -> inside src (x - x0) (y - y0) = true ->
    alpha_of (getpixel src (x - x0) (y - y0)) <> 0 ->
    fst (getpixel out x y) = fst (getpixel src (x - x0) (y - y0)).

(** Rasters and diagrams for examples. *)
Definition nearest : Resampler :=
  fun im sz x y =>
    getpixel im (x * PIL.width im / fst sz) (y * PIL.height im / snd sz).

Definition no_bytes (b : string) : option Image := None.

Definition white_paper (w h : Z) : Image := PIL.new RGB (w, h) (255, 255, 255, 255).

Definition blank_text (w h : Z) : Image := PIL.new RGBA (w, h) (0, 0, 0, 0).

Definition diagram_at (im : Image) (x y w h : float) : Diagram :=
  mkDiagram (Some im) None "h" (Some x) (Some y) (Some w) (Some h)
            (Some (as_image im)) None None.

(** A diagram of four times the page's area, hanging over its left and
    bottom edges. *)
Definition overhanging_diagram : Diagram :=
  diagram_at (PIL.new RGBA (2, 2) (10, 20, 30, 255)) (-1) 2 8 8.

Definition overhanging_page : Image :=
  match compose_page nearest no_bytes (white_paper 4 4) (Some (blank_text 4 4))
          ([] ++ [overhanging_diagram]) 1 with
  | Ok out => out
  | Raise _ => white_paper 0 0
  end.

End LayoutComposer.

(** ** services/diagram_converter.py *)

Module DiagramConverter.

Definition BASE_PROMPT : string :=
  "Convert this diagram to a hand-drawn sketch with TRANSPARENT BACKGROUND. "
  +:+ "No paper background, no white background. Only the hand-drawn lines, labels, "
  +:+ "and elements should be visible. Make it look naturally drawn with pencil/pen, "
  +:+ "slightly imperfect lines, like a student drew it.".

Definition generic_prompt : string :=
  " Sketchy natural hand-drawn appearance, pencil/pen style.".

(** [TYPE_PROMPTS.get(diagram_type, TYPE_PROMPTS["generic"])] *)
Definition type_prompt (diagram_type : string) : string :=
  if String.eqb diagram_type "circuit" then
    " Use pencil style, hand-drawn circuit symbols (resistors, capacitors, wires), slightly imperfect lines."
  else if String.eqb diagram_type "flowchart" then
    " Pen style, hand-drawn boxes with rounded corners, natural arrows, slight size variations."
  else if String.eqb diagram_type "graph" then
    " Pencil drawn axes and curves, natural mathematical notation, hand-labeled axes."
  else if String.eqb diagram_type "chemistry" then
    " Hand-drawn molecular structures, bond lines, chemical symbols in handwriting."
  else if String.eqb diagram_type "biology" then
    " Hand-drawn anatomical sketch with labels and arrows, natural biological illustration."
  else if String.eqb diagram_type "math" then
    " Hand-drawn geometric shapes, equations, labeled points, pencil style."
  else generic_prompt.

(** The converter object: the API key and the cache directory. *)
Record Converter : Type := mkConverter {
  api_key : string;
  cache_dir : string
}.

(** What the converter works on: the files on disk (each blob a raster),
    the rows of the [diagram_cache] table when a session is attached, and
    the clock. *)
Record World : Type := mkWorld {
  files : gmap string Image;
  db : option (list DiagramCache);
  utcnow : Z
}.

(** What one call of the stylization service comes to: status 200 with an
    image, status 200 without one, status 429, another status, or an
    exception raised inside the [try] (transport failure, unreadable
    body or image). *)
Inductive Response : Type :=
| Stylized (im : Image)
| NoPrediction
| RateLimited
| ErrorStatus (status_code : Z)
| CallFails (msg : string).

(** The service: the response to the request with the given prompt on the
    given attempt. *)
Definition Service : Type := string -> Z -> Response.

Inductive Event : Type :=
| Post (attempt : Z)
| Sleep (seconds : Z)
| Log.

#[global] Instance Event_eq_dec : EqDecision Event.
Proof. solve_decision. Defined.



(** [_detect_type] *)
Definition _detect_type (diagram : Diagram) : string := "generic".

(** [_generate_prompt] *)
Definition _generate_prompt (diagram_type : string) : string :=
  BASE_PROMPT +:+ type_prompt diagram_type.

(** [for attempt in range(3): try: ... except Exception: ...] *)
Fixpoint attempts (api : Z -> Response) (todo : list Z) : option Image * list Event :=
  match todo with
  | [] => (None, [])
  | attempt :: rest =>
      match api attempt with
      | Stylized im => (Some im, [Post attempt])
      | NoPrediction =>
          let '(r, events) := attempts api rest in (r, Post attempt :: events)
      | RateLimited =>
          let '(r, events) := attempts api rest in
          (r, Post attempt :: Sleep (2 ^ attempt) :: events)
      | ErrorStatus _ => (None, [Post attempt; Log])
      | CallFails _ =>
          let '(r, events) := attempts api rest in
          (r, Post attempt :: Log ::
                (if attempt <? 2 then [Sleep (2 ^ attempt)] else []) ++ events)
      end
  end.

(** [_call_imagen] *)
Definition _call_imagen (api : Service) (diagram : Diagram) (diagram_type : string)
    : option Image * list Event :=
  let prompt := _generate_prompt diagram_type in
  match image_bytes diagram, image diagram with
  | None, None => (None, [])
  | _, _ => attempts (api prompt) (Py.range 0 3 1)
  end.

Definition cached_path (self : Converter) (img_hash : string) : string :=
  cache_dir self +:+ "/" +:+ img_hash +:+ ".png".

Definition orig_path (self : Converter) (img_hash : string) : string :=
  cache_dir self +:+ "/" +:+ img_hash +:+ "_original.png".

(** [query(DiagramCache).filter(image_hash == h).first()] *)
Definition first_entry (table : list DiagramCache) (h : string) : option DiagramCache :=
  List.find (fun row => String.eqb (Models.image_hash row) h) table.

(** [cache_entry.last_accessed = now; db.commit()] *)
Definition touch (table : list DiagramCache) (h : string) (now : Z) : list DiagramCache :=
  map (fun row =>
         if String.eqb (Models.image_hash row) h then
           mkDiagramCache (Models.image_hash row) (diagram_type row)
                          (original_path row) (converted_path row)
                          (created_at row) now
         else row) table.

(** [db.add(row); db.commit()]: the column [image_hash] is unique, a
    second row with a hash already in the table is refused. *)
Definition add_commit (table : list DiagramCache) (row : DiagramCache)
    : Result (list DiagramCache) :=
  match first_entry table (Models.image_hash row) with
  | Some _ => Raise (IntegrityError "UNIQUE constraint failed: diagram_cache.image_hash")
  | None => Ok (table ++ [row])
  end.

(** The index entry for a hash whose blob is on disk. *)
Definition db_hit (world : World) (h : string) : option (DiagramCache * Image) :=
  match db world with
  | None => None
  | Some table =>
      match first_entry table h with
      | None => None
      | Some entry =>
          match files world !! converted_path entry with
          | Some blob => Some (entry, blob)
          | None => None
          end
      end
  end.

Definition configured (self : Converter) : bool :=
  negb (String.eqb (api_key self) "" || String.eqb (api_key self) "your_api_key_here").

(** [diagram.get("image", diagram.get("image_bytes"))] *)
Definition original_of (diagram : Diagram) : option Converted :=
  match image diagram with
  | Some im => Some (as_image im)
  | None => as_bytes <$> image_bytes diagram
  end.

(** [_convert_single]: the diagram returned or the exception raised, the
    world afterwards, and the calls and sleeps on the way. *)
Definition _convert_single (self : Converter) (api : Service) (world : World)
    (diagram : Diagram) : Result Diagram * World * list Event :=
  let img_hash := image_hash diagram in
  match files world !! cached_path self img_hash with
  | Some blob =>
      (Ok (set_from_cache
             (set_converted diagram (Some (as_image (PIL.convert blob RGBA)))) true),
       world, [])
  | None =>
  match db_hit world img_hash with
  | Some (entry, blob) =>
      (Ok (set_from_cache
             (set_converted diagram (Some (as_image (PIL.convert blob RGBA)))) true),
       mkWorld (files world)
               ((fun table => touch table img_hash (utcnow world)) <$> db world)
               (utcnow world),
       [])
  | None =>
  if negb (configured self) then
    (Ok (set_warning (set_converted diagram (original_of diagram))
           "No Imagen API key configured. Using original diagram."),
     world, [])
  else
    let diagram_type := _detect_type diagram in
    let '(converted_img, events) := _call_imagen api diagram diagram_type in
    match converted_img with
    | Some img =>
        let files1 := <[cached_path self img_hash := img]> (files world) in
        match db world with
        | Some table =>
            let files2 := match image diagram with
                          | Some orig => <[orig_path self img_hash := orig]> files1
                          | None => files1
                          end in
            let row := mkDiagramCache img_hash diagram_type
                         (orig_path self img_hash) (cached_path self img_hash)
                         (utcnow world) (utcnow world) in
            match add_commit table row with
            | Ok table' =>
                (Ok (set_converted diagram (Some (as_image img))),
                 mkWorld files2 (Some table') (utcnow world), events)
            | Raise e =>
                (Raise e, mkWorld files2 (Some table) (utcnow world), events)
            end
        | None =>
            (Ok (set_converted diagram (Some (as_image img))),
             mkWorld files1 None (utcnow world), events)
        end
    | None =>
        let fallback := match image diagram with
                        | Some orig => set_converted diagram (Some (as_image orig))
                        | None => diagram
                        end in
        (Ok (set_warning fallback "AI conversion failed. Using original."),
         world, events)
    end
  end end.

(** [convert_diagrams] *)
Fixpoint convert_diagrams (self : Converter) (api : Service) (world : World)
    (diagrams : list Diagram) : Result (list Diagram) * World * list Event :=
  match diagrams with
  | [] => (Ok [], world, [])
  | diagram :: rest =>
      match _convert_single self api world diagram with
      | (Raise e, world', events) => (Raise e, world', events)
      | (Ok converted, world', events) =>
          let '(r, world'', events') := convert_diagrams self api world' rest in
          (rbind r (fun results => Ok (converted :: results)), world'',
           events ++ events')
      end
  end.


(** A converter, a diagram and two worlds for examples: in [stale_world]
    the index has a row for the diagram's hash and the blob is gone. *)
Definition converter : Converter := mkConverter "secret-key" "cache/diagrams".

Definition region : Diagram :=
  mkDiagram (Some (PIL.new RGB (2, 2) (9, 9, 9, 255))) (Some "PNG..."%string)
            "abc123" (Some 72%float) (Some 72%float) (Some 144%float)
            (Some 144%float) None None None.

Definition stale_row : DiagramCache :=
  mkDiagramCache "abc123" "generic" "cache/diagrams/abc123_original.png"
                 "cache/diagrams/abc123.png" 5 5.

Definition stale_world : World := mkWorld ∅ (Some [stale_row]) 20.

Definition sketch : Image := PIL.new RGBA (2, 2) (0, 0, 0, 200).

Definition always (r : Response) : Service := fun _ _ => r.

End DiagramConverter.

(** ** services/handwriting_engine.py: the keyboard neighbours *)

Module Misspelling.
Import Schemas Models Processor Api Random Str PIL HandwritingEngine PaperRenderer Diagrams LayoutComposer DiagramConverter.
Import Str HandwritingEngine.

(** The character the [nearby] branch of [_make_spelling_error] puts in
    for a character [c] of the Latin-1 range:
    [nearby.get(c.lower(), c.lower())], upper-cased when [c.isupper()].
    Words with a character beyond the Latin-1 range are outside this
    embedding: there [lower()] and [upper()] can change a character that
    is in no table here, or return two characters for one. *)
Definition nearby_key (c : ascii) : ascii :=
  if isupper c then upper (nearby_get (lower c)) else nearby_get (lower c).

(** The three characters of the Latin-1 range whose [upper()] is not a
    character of the range (the micro sign and y with diaeresis) or is
    two characters long (the sharp s): [Str.upper] is Python's [upper()]
    on every other character of the range. *)
Definition upper_leaves_latin1 (c : ascii) : bool :=
  let n := Z.of_nat (nat_of_ascii c) in (n =? 181) || (n =? 223) || (n =? 255).

End Misspelling.

(** ** Loops over programs that draw from [random] and may raise *)

Module Loops.
Import Schemas Models Processor Api Random Str PIL HandwritingEngine PaperRenderer Diagrams LayoutComposer DiagramConverter.
Import HandwritingEngine.

(** [random.randint(a, b)], the empty range raising ValueError. *)
Definition randintE (a b : Z) : RandE Z :=
  bind (randint a b)
       (fun v => Ret (of_option v (ValueError "empty range for randrange()"))).

(** [for x in xs: state = body(state, x)]; an exception ends the loop. *)
Fixpoint for_each {A S : Type} (xs : list A) (body : S -> A -> RandE S) (s : S)
    : RandE S :=
  match xs with
  | [] => retE s
  | x :: rest => bindE (body s x) (for_each rest body)
  end.

End Loops.

(** ** services/handwriting_engine.py: the ink colour and the smudges *)

Module InkColor.
Import Schemas Models Processor Api Random Str PIL HandwritingEngine PaperRenderer Diagrams LayoutComposer DiagramConverter.
Import Str.

(** The value of a digit of base 16. *)
Definition hex_value (c : ascii) : option Z :=
  let n := Z.of_nat (nat_of_ascii c) in
  if (48 <=? n) && (n <=? 57) then Some (n - 48)
  else if (97 <=? n) && (n <=? 102) then Some (n - 87)
  else if (65 <=? n) && (n <=? 70) then Some (n - 55)
  else None.

(** The whitespace [int] skips at both ends of a [str]: the ASCII blanks,
    and the two other whitespace characters of the Latin-1 range, which
    are turned into a blank before the literal is read. *)
Definition int_space (c : ascii) : bool :=
  let n := Z.of_nat (nat_of_ascii c) in
  ((9 <=? n) && (n <=? 13)) || (n =? 32) || (n =? 133) || (n =? 160).

Fixpoint skip_spaces (s : string) : string :=
  match s with
  | String c s' => if int_space c then skip_spaces s' else s
  | EmptyString => EmptyString
  end.

(** The digits of the literal: underscores are allowed between digits,
    one at a time. [prev] tells whether the character before was an
    underscore, [seen] whether a digit has been read. What follows the
    digits must be whitespace up to the end. *)
Fixpoint hex_digits (acc : Z) (prev seen : bool) (s : string) : option Z :=
  match s with
  | EmptyString => if prev || negb seen then None else Some acc
  | String c s' =>
      if Ascii.eqb c "_" then
        if prev then None else hex_digits acc true seen s'
      else
        match hex_value c with
        | Some d => hex_digits (16 * acc + d) false true s'
        | None =>
            if prev || negb seen then None
            else match skip_spaces s with
                 | EmptyString => Some acc
                 | _ => None
                 end
        end
  end.

(** After the sign: an optional [0x] or [0X], which one underscore may
    follow; the digits may not start with an underscore otherwise. *)
Definition hex_body (s : string) : option Z :=
  let after_prefix :=
    match s with
    | String "0" (String "x" s') | String "0" (String "X" s') =>
        match s' with
        | String "_" s'' => s''
        | _ => s'
        end
    | _ => s
    end in
  match after_prefix with
  | String "_" _ => None
  | _ => hex_digits 0 false false after_prefix
  end.

(** [int(s, 16)] on a [str]; [None] is the ValueError of an invalid
    literal. *)
Definition int_base16 (s : string) : option Z :=
  match skip_spaces s with
  | String "+" s' => hex_body s'
  | String "-" s' => Z.opp <$> hex_body s'
  | s' => hex_body s'
  end.

(** [s.lstrip("#")] *)
Fixpoint lstrip_hash (s : string) : string :=
  match s with
  | String "#" s' => lstrip_hash s'
  | _ => s
  end.

(** [n] number signs in a row, then [s]. *)
Fixpoint number_signs (n : nat) (s : string) : string :=
  match n with
  | O => s
  | S n' => String "#" (number_signs n' s)
  end.

(** [s[i:i+2]] for [i] from 0 up *)
Definition pair_at (s : string) (i : nat) : string := String.substring i 2 s.

(** [_parse_color]; the three literals are read in order. *)
Definition _parse_color (color_hex : string) : Result (Z * Z * Z) :=
  let color_hex := lstrip_hash color_hex in
  let component i :=
    of_option (int_base16 (pair_at color_hex i))
              (ValueError "invalid literal for int() with base 16") in
  r ← component 0%nat;
  g ← component 2%nat;
  b ← component 4%nat;
  Ok (r, g, b).

End InkColor.

(** ** Rasters and NumPy arrays *)

Module Arrays.
Import Schemas Models Processor Api Random Str PIL HandwritingEngine PaperRenderer Diagrams LayoutComposer DiagramConverter.

(** The behaviours that differ between versions of NumPy and Pillow:
    what [min(255, a + v)] leaves in a uint8 array for the uint8 scalar
    [a] and the Python int [v] (up to NumPy 1 the sum is a wide int and
    the minimum caps it; from NumPy 2 on the sum is a uint8 and wraps
    around), and the exception, if any, of converting a raster with a
    side of 0 pixels to an array and of building a raster from an array
    with no element. *)
Record Versions : Type := mkVersions {
  uint8_sum : Z -> Z -> Z;
  array_of_empty : option exn;
  image_of_empty : option exn
}.

Definition empty (w h : Z) : bool := (w =? 0) || (h =? 0).

(** The pixels of an array of the shape (height, width, bands), read as
    [arr[y, x]]. *)
Definition Pixels : Type := Z -> Z -> Pixel.

(** [np.array(image)] *)
Definition array (lib : Versions) (image : Image) : Result Pixels :=
  match array_of_empty lib with
  | Some e => if empty (PIL.width image) (PIL.height image) then Raise e
              else Ok (getpixel image)
  | None => Ok (getpixel image)
  end.

(** [Image.fromarray(arr)] for a uint8 array of [h] rows, [w] columns and
    three or four bands. *)
Definition fromarray (lib : Versions) (m : Mode) (w h : Z) (arr : Pixels)
    : Result Image :=
  match image_of_empty lib with
  | Some e => if empty w h then Raise e else Ok (mkImage m w h arr)
  | None => Ok (mkImage m w h arr)
  end.

(** [Image.new(mode, size, color)] with its check of the size. *)
Definition checked_new (m : Mode) (sz : Z * Z) (color : Pixel) : Result Image :=
  if (fst sz <? 0) || (snd sz <? 0)
  then Raise (ValueError "Width and height must be >= 0")
  else Ok (PIL.new m sz color).

(** The colour bands of a pixel. *)
Definition rgb (p : Pixel) : Z * Z * Z :=
  let '(r, g, b, _) := p in (r, g, b).

(** NumPy 1 and Pillow 10, for examples. *)
Definition capped_sum (a v : Z) : Z := Z.min 255 (a + v).
Definition numpy1 : Versions := mkVersions capped_sum None None.

End Arrays.

Module Smudges.
Import Schemas Models Processor Api Random Str PIL HandwritingEngine PaperRenderer Diagrams LayoutComposer DiagramConverter.
Import HandwritingEngine Loops Arrays.

Definition set_alpha (img_array : Pixels) (px py a : Z) : Pixels :=
  fun x y =>
    if (x =? px) && (y =? py)
    then let '(r, g, b, _) := img_array x y in (r, g, b, a)
    else img_array x y.

(** The body of the two [for] loops for one offset. An RGB array has no
    fourth band: reading it raises IndexError. *)
Definition smudge_pixel (lib : Versions) (image : Image) (sx sy radius : Z)
    (img_array : Pixels) (dx dy : Z) : RandE Pixels :=
  if dx * dx + dy * dy <=? radius * radius then
    let px := sx + dx in
    let py := sy + dy in
    if (0 <=? px) && (px <? PIL.width image) && (0 <=? py) && (py <? PIL.height image)
    then
      match mode image with
      | RGB => Ret (Raise IndexError)
      | RGBA =>
          if 0 <? alpha_of (img_array px py) then
            bindE (randintE 0 20) (fun v =>
            retE (set_alpha img_array px py
                    (uint8_sum lib (alpha_of (img_array px py)) v)))
          else retE img_array
      end
    else retE img_array
  else retE img_array.

(** One turn of [for _ in range(num_smudges)]. *)
Definition smudge (lib : Versions) (image : Image) (img_array : Pixels)
    : RandE Pixels :=
  bindE (randintE 50 (PIL.width image - 50)) (fun sx =>
  bindE (randintE 50 (PIL.height image - 50)) (fun sy =>
  bindE (randintE 3 8) (fun radius =>
  for_each (Py.range (- radius) (radius + 1) 1)
    (fun img_array dx =>
       for_each (Py.range (- radius) (radius + 1) 1)
         (fun img_array dy => smudge_pixel lib image sx sy radius img_array dx dy)
         img_array)
    img_array))).

(** [_apply_smudges] *)
Definition _apply_smudges (lib : Versions) (image : Image) : RandE Image :=
  bindE (Ret (array lib image)) (fun img_array =>
  bindE (randintE 0 3) (fun num_smudges =>
  bindE (for_each (Py.range 0 num_smudges 1)
                  (fun img_array _ => smudge lib image img_array)
                  img_array) (fun img_array =>
  Ret (fromarray lib (mode image) (PIL.width image) (PIL.height image) img_array)))).

(** What a smudge pass keeps of the canvas: the colour bands, and every
    pixel without ink. *)
Definition ink_kept (image : Image) (img_array : Pixels) : Prop :=
  forall x y,
    rgb (img_array x y) = rgb (getpixel image x y) /\
    (alpha_of (getpixel image x y) = 0 -> img_array x y = getpixel image x y).

(** The canvases on which a smudge pass can raise: those without an
    alpha band and those less than 100 pixels wide or high. *)
Definition smudge_fault (image : Image) : Prop :=
  mode image = RGB \/ PIL.width image < 100 \/ PIL.height image < 100.

(** A source whose i-th answer is built from i + 2, for examples. *)
Definition counting_source : Source :=
  mkSource (fun _ => 0%float) (fun i => Z.of_nat i + 2).

(** A canvas with one stroke of ink across it, for examples. *)
Definition stroke_canvas : Image :=
  mkImage RGBA 200 200 (fun x y => if y =? 100 then (26, 26, 46, 250) else (0, 0, 0, 0)).

End Smudges.

(** ** services/paper_renderer.py: grain, grids, stains, shadow, [render] *)

Module PaperEffects.
Import Schemas Models Processor Api Random Str PIL HandwritingEngine PaperRenderer Diagrams LayoutComposer DiagramConverter.
Import HandwritingEngine Loops Arrays PaperRenderer.

(** [PAPER_COLORS.get(config.get("paper_color", "white"), ...)]: the dict
    of a [ProcessConfig] has no ["paper_color"]. *)
Definition base_color : Pixel := (253, 252, 250, 255).

(** An int16 sum wraps around. *)
Definition int16 (v : Z) : Z := (v + 32768) mod 65536 - 32768.

(** [np.clip(v, 0, 255)] *)
Definition clip (v : Z) : Z := Z.max 0 (Z.min 255 v).

(** One pixel of [np.clip(arr + noise, 0, 255).astype(np.uint8)];
    [noise y x i] is the int16 sample for band [i] of the pixel. *)
Definition grain_pixel (noise : Z -> Z -> Z -> Z) (m : Mode) (x y : Z) (p : Pixel)
    : Pixel :=
  let '(r, g, b, a) := p in
  let band i v := clip (int16 (v + noise y x i)) in
  (band 0 r, band 1 g, band 2 b,
   match m with RGBA => band 3 a | RGB => a end).

(** [_add_grain] *)
Definition _add_grain (lib : Versions) (noise : Z -> Z -> Z -> Z) (paper : Image)
    : Result Image :=
  arr ← array lib paper;
  fromarray lib (mode paper) (PIL.width paper) (PIL.height paper)
            (fun x y => grain_pixel noise (mode paper) x y (arr x y)).

(** *** Graph paper *)

Definition graph_color : Pixel := (200, 215, 230, 80).

(** [config.get("grid_size", 20)]: the dict of a [ProcessConfig] has no
    ["grid_size"]. *)
Definition grid_size (config : ProcessConfig) : Z := 20.

(** [for x in range(grid_size, w, grid_size): ...] *)
Fixpoint graph_verticals (xs : list Z) (h : Z) : Rand (list DrawOp) :=
  match xs with
  | [] => mret []
  | x :: rest =>
      jitter ← uniform (-0.2) 0.2;
      ops ← graph_verticals rest h;
      mret (draw_line [((Py.of_int x + jitter)%float, Py.of_int 0);
                       ((Py.of_int x + jitter)%float, Py.of_int h)]
                      graph_color 1 :: ops)
  end.

(** [for y in range(grid_size, h, grid_size): ...] *)
Fixpoint graph_horizontals (ys : list Z) (w : Z) : Rand (list DrawOp) :=
  match ys with
  | [] => mret []
  | y :: rest =>
      jitter ← uniform (-0.2) 0.2;
      ops ← graph_horizontals rest w;
      mret (draw_line [(Py.of_int 0, (Py.of_int y + jitter)%float);
                       (Py.of_int w, (Py.of_int y + jitter)%float)]
                      graph_color 1 :: ops)
  end.

(** [_draw_graph]: the calls on [draw], in order. *)
Definition _draw_graph (w h : Z) (config : ProcessConfig) : Rand (list DrawOp) :=
  let grid_size := grid_size config in
  verticals ← graph_verticals (Py.range grid_size w grid_size) h;
  horizontals ← graph_horizontals (Py.range grid_size h grid_size) w;
  mret (verticals ++ horizontals).

(** *** Engineering paper *)

Definition minor_color : Pixel := (210, 225, 210, 50).
Definition major_color : Pixel := (170, 200, 170, 100).

Definition vertical (h : Z) (color : Pixel) (x : Z) : DrawOp :=
  draw_line [(Py.of_int x, Py.of_int 0); (Py.of_int x, Py.of_int h)] color 1.

Definition horizontal (w : Z) (color : Pixel) (y : Z) : DrawOp :=
  draw_line [(Py.of_int 0, Py.of_int y); (Py.of_int w, Py.of_int y)] color 1.

(** The two loops of one grid. *)
Definition grid (size : Z) (color : Pixel) (w h : Z) : list DrawOp :=
  map (vertical h color) (Py.range size w size)
  ++ map (horizontal w color) (Py.range size h size).

(** [_draw_engineering]: the calls on [draw], in order. *)
Definition _draw_engineering (w h : Z) (config : ProcessConfig) : list DrawOp :=
  let minor_size := 5 in
  let major_size := 25 in
  grid minor_size minor_color w h ++ grid major_size major_color w h.

(** *** Coffee stains *)

(** A call of [draw.ellipse] with its bounding box x0, y0, x1, y1. *)
Inductive Ellipse : Type :=
| draw_ellipse (xy : Z * Z * Z * Z) (fill outline : option Pixel) (width : Z).

Definition box (e : Ellipse) : Z * Z * Z * Z :=
  match e with draw_ellipse xy _ _ _ => xy end.

Definition stain_color (alpha : Z) : Pixel := (139, 90, 43, alpha).

(** [range(a, b, -1)] *)
Definition range_down (a b : Z) : list Z :=
  map (fun i : nat => a - Z.of_nat i) (seq 0 (Z.to_nat (a - b))).

(** One turn of [for r in range(radius, radius - 8, -1)]. *)
Definition ring (cx cy : Z) (ops : list Ellipse) (r : Z) : RandE (list Ellipse) :=
  bindE (randintE 8 20) (fun alpha =>
  retE (ops ++ [draw_ellipse (cx - r, cy - r, cx + r, cy + r)
                             None (Some (stain_color alpha)) 2])).

(** One turn of [for _ in range(num_stains)]. *)
Definition stain (paper : Image) (ops : list Ellipse) : RandE (list Ellipse) :=
  bindE (randintE 100 (PIL.width paper - 100)) (fun cx =>
  bindE (randintE 100 (PIL.height paper - 100)) (fun cy =>
  bindE (randintE 25 55) (fun radius =>
  bindE (for_each (range_down radius (radius - 8)) (ring cx cy) ops) (fun ops =>
  let inner_r := radius - 10 in
  retE (if 0 <? inner_r
        then ops ++ [draw_ellipse (cx - inner_r, cy - inner_r,
                                   cx + inner_r, cy + inner_r)
                                  (Some (stain_color 8)) None 1]
        else ops))))).

(** The calls on the overlay's [draw], in order. *)
Definition stains (paper : Image) : RandE (list Ellipse) :=
  bindE (randintE 1 2) (fun num_stains =>
  for_each (Py.range 0 num_stains 1) (fun ops _ => stain paper ops) []).

(** What every call on the overlay comes to: the ellipse lies within the
    paper, at least 45 pixels from each edge, and is a faint outline
    (alpha 8 to 20, width 2) or a fainter fill (alpha 8). *)
Definition stain_call (paper : Image) (e : Ellipse) : Prop :=
  let '(x0, y0, x1, y1) := box e in
  45 <= x0 /\ x0 < x1 /\ x1 <= PIL.width paper - 45 /\
  45 <= y0 /\ y0 < y1 /\ y1 <= PIL.height paper - 45 /\
  match e with
  | draw_ellipse _ None (Some outline) 2 =>
      exists alpha, outline = stain_color alpha /\ 8 <= alpha <= 20
  | draw_ellipse _ (Some fill) None 1 => fill = stain_color 8
  | _ => False
  end.

(** [_add_coffee_stains]; [ellipses_drawn ops im] are the pixels of the
    raster [im] after the calls [ops] on its [ImageDraw] handle. *)
Definition _add_coffee_stains (ellipses_drawn : list Ellipse -> Image -> Pixels)
    (paper : Image) : RandE Image :=
  let overlay := PIL.new RGBA (size paper) (0, 0, 0, 0) in
  bindE (stains paper) (fun ops =>
  let overlay := mkImage RGBA (PIL.width overlay) (PIL.height overlay)
                         (ellipses_drawn ops overlay) in
  let paper_rgba := PIL.convert paper RGBA in
  Ret (composited ← alpha_composite paper_rgba overlay;
       Ok (PIL.convert composited RGB))).

(** *** Edge shadow *)

(** [arr[i]] along an axis of length [n]: a negative index counts from
    the end. *)
Definition index (n i : Z) : Result Z :=
  if (0 <=? i) && (i <? n) then Ok i
  else if (- n <=? i) && (i <? 0) then Ok (i + n)
  else Raise IndexError.

Section Shadow.

(** The float32 bands of one pixel of the array, with the conversion from
    a pixel ([np.array(paper, dtype=np.float32)]), the product with the
    [darken] of turn [i] of the loop, and the conversion back
    ([np.clip(v, 0, 255).astype(np.uint8)]). *)
Variable V : Type.
Variable of_pixel : Pixel -> V.
Variable darkened : Z -> V -> V.
Variable to_pixel : V -> Pixel.

(** [arr[row, :] *= darken] *)
Definition darken_row (arr : Z -> Z -> V) (i row : Z) : Z -> Z -> V :=
  fun x y => if y =? row then darkened i (arr x y) else arr x y.

(** [arr[:, column] *= darken] *)
Definition darken_column (arr : Z -> Z -> V) (i column : Z) : Z -> Z -> V :=
  fun x y => if x =? column then darkened i (arr x y) else arr x y.

(** One turn of [for i in range(fade)]. *)
Definition shadow_turn (h w : Z) (arr : Z -> Z -> V) (i : Z) : Result (Z -> Z -> V) :=
  top ← index h i;
  let arr := darken_row arr i top in
  bottom ← index h (h - 1 - i);
  let arr := darken_row arr i bottom in
  left ← index w i;
  let arr := darken_column arr i left in
  right ← index w (w - 1 - i);
  let arr := darken_column arr i right in
  Ok arr.

Fixpoint shadow_turns (h w : Z) (arr : Z -> Z -> V) (turns : list Z)
    : Result (Z -> Z -> V) :=
  match turns with
  | [] => Ok arr
  | i :: rest => arr ← shadow_turn h w arr i; shadow_turns h w arr rest
  end.

(** [_add_edge_shadow] *)
Definition _add_edge_shadow (lib : Versions) (paper : Image) : Result Image :=
  arr ← array lib paper;
  let h := PIL.height paper in
  let w := PIL.width paper in
  let fade := 40 in
  arr ← shadow_turns h w (fun x y => of_pixel (arr x y)) (Py.range 0 fade 1);
  fromarray lib (mode paper) w h (fun x y => to_pixel (arr x y)).

(** *** [render] *)

(** The noise of the grain, and the pixels of a raster after calls on its
    [ImageDraw] handle. *)
Variable noise : Z -> Z -> Z -> Z.
Variable lines_drawn : list DrawOp -> Image -> Pixels.
Variable ellipses_drawn : list Ellipse -> Image -> Pixels.

(** The lines or the grid of a paper type; [None] when the rule loop has
    not ended within [fuel] turns. *)
Definition pattern (fuel : nat) (paper_type : PaperType) (w h : Z)
    (config : ProcessConfig) : Rand (option (Result (list DrawOp))) :=
  match paper_type with
  | LINED => _draw_lined fuel w h config
  | GRAPH => ops ← _draw_graph w h config; mret (Some (Ok ops))
  | ENGINEERING => mret (Some (Ok (_draw_engineering w h config)))
  | BLANK => mret (Some (Ok []))
  end.

(** [render] on the dict of a [ProcessConfig]. *)
Definition render (lib : Versions) (fuel : nat) (paper_type : PaperType)
    (width height : Z) (config : ProcessConfig) : Rand (option (Result Image)) :=
  match paper ← checked_new RGB (width, height) base_color;
        _add_grain lib noise paper with
  | Raise e => Ret (Some (Raise e))
  | Ok paper =>
      bind (pattern fuel paper_type width height config) (fun drawn =>
      match drawn with
      | None => Ret None
      | Some (Raise e) => Ret (Some (Raise e))
      | Some (Ok ops) =>
          let paper := mkImage (mode paper) (PIL.width paper) (PIL.height paper)
                               (lines_drawn ops paper) in
          bind (if Schemas.enable_coffee_stains config
                then _add_coffee_stains ellipses_drawn paper
                else retE paper) (fun stained =>
          Ret (Some (paper ← stained;
                     if Schemas.enable_page_shadows config
                     then _add_edge_shadow lib paper
                     else Ok paper)))
      end)
  end.

End Shadow.

(** Exact arithmetic in place of float32, and rasters drawn on left as
    they are, for examples. *)
Definition exact_darkened (i : Z) (p : Pixel) : Pixel :=
  let '(r, g, b, a) := p in
  let d v := v * (920 + 2 * i) / 1000 in
  (d r, d g, d b, a).

Definition undrawn {A} (ops : list A) (im : Image) : Pixels := getpixel im.

Definition no_noise (y x i : Z) : Z := 0.

Definition graph_config : ProcessConfig :=
  mkProcessConfig "Caveat" 0.07%float GRAPH "#1a1a2e" 28 18 true false true false.

End PaperEffects.

(** ** services/handwriting_engine.py: [render_page] *)

Module TextLayer.
Import Schemas Models Processor Api Random Str PIL HandwritingEngine PaperRenderer Diagrams LayoutComposer DiagramConverter.
Import HandwritingEngine Loops Arrays Smudges.

(** A line dict of the extractor: ["text"], ["y"] and, if there, ["x"]. *)
Record Line : Type := mkLine {
  line_text : string;
  line_y : float;
  line_x : option float
}.

Section RenderPage.

Variable textbbox : float * float -> string -> Font -> BBox.
Variable lines_drawn : list DrawOp -> Image -> Pixels.

(** [for line in lines: ...]: the calls on [draw], in order. *)
Fixpoint render_lines (self : Engine) (scale : float) (lines : list Line)
    : RandE (list DrawOp) :=
  match lines with
  | [] => retE []
  | line :: rest =>
      bindE (liftE (_apply_imperfections self (line_text line))) (fun processed =>
      bindE (int (line_y line * scale)%float) (fun y_int =>
      bindE (liftE (uniform (-1) 1)) (fun u =>
      let y := (Py.of_int y_int + u)%float in
      bindE (int (default (Py.of_int 80) (line_x line) * scale)%float) (fun x_start =>
      bindE (_render_line textbbox self processed (Py.of_int x_start) y scale)
            (fun ops =>
      bindE (render_lines self scale rest) (fun ops' =>
      retE (ops ++ ops')))))))
  end.

(** [render_page] *)
Definition render_page (lib : Versions) (self : Engine) (lines : list Line)
    (page_width page_height scale : float) : RandE Image :=
  bindE (int (page_width * scale)%float) (fun canvas_w =>
  bindE (int (page_height * scale)%float) (fun canvas_h =>
  bindE (Ret (checked_new RGBA (canvas_w, canvas_h) (0, 0, 0, 0))) (fun canvas =>
  bindE (render_lines self scale lines) (fun ops =>
  let canvas := mkImage (mode canvas) (PIL.width canvas) (PIL.height canvas)
                        (lines_drawn ops canvas) in
  if enable_smudges self then _apply_smudges lib canvas else retE canvas)))).

End RenderPage.

End TextLayer.

(** ** services/diagram_converter.py: what a conversion keeps *)

Module CacheIndex.
Import Schemas Models Processor Api Random Str PIL HandwritingEngine PaperRenderer Diagrams LayoutComposer DiagramConverter.
Import DiagramConverter.

(** The column [image_hash] of the index. *)
Definition hashes (table : list DiagramCache) : list string :=
  map Models.image_hash table.

(** The keys of a diagram dict the converter never writes: the raster,
    its bytes and hash, and the placement on the page. *)
Definition same_region (d r : Diagram) : Prop :=
  image r = image d /\ image_bytes r = image_bytes d /\
  image_hash r = image_hash d /\
  Diagrams.x r = Diagrams.x d /\ Diagrams.y r = Diagrams.y d /\
  Diagrams.width r = Diagrams.width d /\ Diagrams.height r = Diagrams.height d.

(** What a conversion leaves of the cache: every file that was there is
    still there, the index is there if it was, its rows are the old ones
    (touched or not) followed by new ones, and its hashes are unique if
    they were. *)
Definition cache_grown (world world' : World) : Prop :=
  (forall path, is_Some (files world !! path) -> is_Some (files world' !! path)) /\
  utcnow world' = utcnow world /\
  match db world, db world' with
  | Some table, Some table' =>
      (exists added, hashes table' = hashes table ++ added) /\
      (NoDup (hashes table) -> NoDup (hashes table'))
  | None, None => True
  | _, _ => False
  end.

(** A converter without a key. *)
Definition keyless : Converter := mkConverter "" "cache/diagrams".

End CacheIndex.

(** ** services/layout_composer.py: [compose_document] *)

Module Document.
Import Schemas Models Processor Api Random Str PIL HandwritingEngine PaperRenderer Diagrams LayoutComposer DiagramConverter.
Import LayoutComposer.

(** A page data dict: ["paper"], ["text_layer"] (a raster or [None]) and
    [page_data.get("diagrams", [])]. *)
Record PageLayers : Type := mkPageLayers {
  paper : Image;
  text_layer : option Image;
  diagrams : list Diagram
}.

(** [compose_document]: an exception on a page ends the loop. *)
Fixpoint compose_document (lanczos : Resampler) (open_bytes : string -> option Image)
    (pages_data : list PageLayers) (scale : float) : Result (list Image) :=
  match pages_data with
  | [] => Ok []
  | page_data :: rest =>
      page ← compose_page lanczos open_bytes (paper page_data) (text_layer page_data)
                          (diagrams page_data) scale;
      composed ← compose_document lanczos open_bytes rest scale;
      Ok (page :: composed)
  end.

(** The layers of a page on which [compose_page] does not raise. *)
Definition composable (open_bytes : string -> option Image) (scale : float)
    (page_data : PageLayers) : bool :=
  text_layer_ok (paper page_data) (text_layer page_data)
  && forallb (pasteable open_bytes scale) (diagrams page_data).

(** The point lies in the target rectangle of a diagram the paste loop
    does not skip. *)
Definition covered (open_bytes : string -> option Image) (scale : float)
    (diagram : Diagram) (px py : Z) : Prop :=
  exists im x y w h,
    usable open_bytes diagram = Ok (Some im) /\
    target diagram im scale = Ok (x, y, w, h) /\
    x <= px < x + w /\ y <= py < y + h.

(** Two pages of a document, for examples. *)
Definition two_pages : list PageLayers :=
  [mkPageLayers (white_paper 4 4) (Some (blank_text 4 4)) [overhanging_diagram];
   mkPageLayers (white_paper 6 3) None []].

End Document.

(** ** services/pdf_processor.py: diagram regions and text lines *)

Module PDFProcessor.
Import Schemas Models Processor Api Random Str PIL HandwritingEngine PaperRenderer Diagrams LayoutComposer DiagramConverter.

(** An image dict of [_extract_images]: the bounds in PDF points. *)
Record Region : Type := mkRegion {
  region_x : float;
  region_y : float;
  region_width : float;
  region_height : float
}.

(** [a / b] on floats: a zero divisor raises. *)
Definition truediv (a b : float) : Result float :=
  if (b =? 0)%float then Raise ZeroDivisionError else Ok (a / b)%float.

(** [im.crop((left, top, right, bottom))] *)
Definition crop (im : Image) (box : Z * Z * Z * Z) : Image :=
  let '(x_left, y_top, x_right, y_bottom) := box in
  mkImage (mode im) (x_right - x_left) (y_bottom - y_top)
          (fun x y => getpixel im (x + x_left) (y + y_top)).

Section Extract.

(** The PNG encoding of a raster, and [hashlib.sha256(b).hexdigest()]. *)
Variable png_bytes : Image -> string.
Variable sha256_hexdigest : string -> string.

(** The crop box of a region on the page raster, after the clamps; [None]
    when an [int] raises inside the [try]. *)
Definition crop_box (page_image : Image) (scale_x scale_y : float) (region : Region)
    : option (Z * Z * Z * Z) :=
  x_left ← Py.int (region_x region * scale_x)%float;
  y_top ← Py.int (region_y region * scale_y)%float;
  x_right ← Py.int ((region_x region + region_width region) * scale_x)%float;
  y_bottom ← Py.int ((region_y region + region_height region) * scale_y)%float;
  Some (Z.max 0 x_left, Z.max 0 y_top,
        Z.min (PIL.width page_image) x_right, Z.min (PIL.height page_image) y_bottom).

(** One turn of [for region in image_regions]: the dict appended, if
    any. An exception is caught and the region is left out. *)
Definition extract_region (page_image : Image) (scale_x scale_y : float)
    (region : Region) : option Diagram :=
  match crop_box page_image scale_x scale_y region with
  | Some (x_left, y_top, x_right, y_bottom) =>
      if (x_left <? x_right) && (y_top <? y_bottom) then
        let cropped := crop page_image (x_left, y_top, x_right, y_bottom) in
        let img_bytes := png_bytes cropped in
        Some (mkDiagram (Some cropped) (Some img_bytes) (sha256_hexdigest img_bytes)
                        (Some (region_x region)) (Some (region_y region))
                        (Some (region_width region)) (Some (region_height region))
                        None None None)
      else None
  | None => None
  end.

(** [extract_diagram_images], given what [render_page_image] and
    [_get_page_size] return for the page. *)
Definition extract_diagram_images (page_image : option Image)
    (page_size : float * float) (image_regions : list Region) : Result (list Diagram) :=
  match image_regions with
  | [] => Ok []
  | _ =>
      match page_image with
      | None => Ok []
      | Some page_image =>
          scale_x ← truediv (Py.of_int (PIL.width page_image)) (fst page_size);
          scale_y ← truediv (Py.of_int (PIL.height page_image)) (snd page_size);
          Ok (omap (extract_region page_image scale_x scale_y) image_regions)
      end
  end.

End Extract.

(** The placement a diagram dict carries, and the one a region gives. *)
Definition placement (d : Diagram)
    : option float * option float * option float * option float :=
  (Diagrams.x d, Diagrams.y d, Diagrams.width d, Diagrams.height d).

Definition region_placement (r : Region)
    : option float * option float * option float * option float :=
  (Some (region_x r), Some (region_y r), Some (region_width r), Some (region_height r)).

(** What holds of an extracted diagram: its raster is a window of the page
    raster, at least one pixel wide and high and within the page. *)
Definition window_of (page_image : Image) (png_bytes : Image -> string)
    (sha256_hexdigest : string -> string) (d : Diagram) : Prop :=
  exists im x_left y_top,
    image d = Some im /\ mode im = mode page_image /\
    0 <= x_left /\ 1 <= PIL.width im /\ x_left + PIL.width im <= PIL.width page_image /\
    0 <= y_top /\ 1 <= PIL.height im /\ y_top + PIL.height im <= PIL.height page_image /\
    (forall x y, getpixel im x y = getpixel page_image (x_left + x) (y_top + y)) /\
    image_bytes d = Some (png_bytes im) /\
    image_hash d = sha256_hexdigest (png_bytes im) /\
    converted_image d = None.

(** *** Text lines *)

(** A text element dict of [_extract_text]. *)
Record TextElement : Type := mkTextElement {
  te_text : string;
  te_x : float;
  te_y : float;
  te_width : float;
  te_height : float;
  te_font_size : float;
  te_font_name : string;
  te_is_math : bool
}.

(** A line dict of [_group_into_lines]. *)
Record LineGroup : Type := mkLineGroup {
  lg_text : string;
  lg_y : float;
  lg_x : float;
  lg_elements : list TextElement;
  lg_font_size : float
}.

(** [sorted(l, key=...)] and [l.sort(key=...)], [lt a b] being
    [key(a) < key(b)]: a stable sort, each element going behind the
    elements that are not greater. On keys that [<] orders totally (floats
    other than nan) every stable sort returns this list. *)
Fixpoint insert_sorted {A} (lt : A -> A -> bool) (a : A) (l : list A) : list A :=
  match l with
  | [] => [a]
  | b :: l' => if lt a b then a :: l else b :: insert_sorted lt a l'
  end.

Definition sorted {A} (lt : A -> A -> bool) (l : list A) : list A :=
  fold_left (fun acc a => insert_sorted lt a acc) l [].

(** [(e1["y"], e1["x"]) < (e2["y"], e2["x"])] *)
Definition position_lt (e1 e2 : TextElement) : bool :=
  if negb (te_y e1 =? te_y e2)%float then (te_y e1 <? te_y e2)%float
  else if negb (te_x e1 =? te_x e2)%float then (te_x e1 <? te_x e2)%float
  else false.

Definition x_lt (e1 e2 : TextElement) : bool := (te_x e1 <? te_x e2)%float.

(** [" ".join(texts)] *)
Fixpoint join (texts : list string) : string :=
  match texts with
  | [] => EmptyString
  | [t] => t
  | t :: rest => t +:+ " " +:+ join rest
  end.

(** The line dict built from the line [first :: others] being read. *)
Definition line_of (first : TextElement) (others : list TextElement) (current_y : float)
    : LineGroup :=
  let current_line := sorted x_lt (first :: others) in
  let head := hd first current_line in
  mkLineGroup (join (map te_text current_line)) current_y (te_x head)
              current_line (te_font_size head).

(** [for elem in sorted_elements[1:]: ...] and the last line. *)
Fixpoint group_from (first : TextElement) (others : list TextElement)
    (current_y : float) (rest : list TextElement) : list LineGroup :=
  match rest with
  | [] => [line_of first others current_y]
  | elem :: rest' =>
      if (abs (te_y elem - current_y) <? 5)%float
      then group_from first (others ++ [elem]) current_y rest'
      else line_of first others current_y :: group_from elem [] (te_y elem) rest'
  end.

(** [_group_into_lines] *)
Definition _group_into_lines (text_elements : list TextElement) : list LineGroup :=
  match sorted position_lt text_elements with
  | [] => []
  | first :: rest => group_from first [] (te_y first) rest
  end.

(** Words for examples: two on one line, in reverse order, and one on
    the next line. *)
Definition word (t : string) (x y : float) : TextElement :=
  mkTextElement t x y 30 12 12 "Helvetica" false.

Definition three_words : list TextElement :=
  [word "world" 120 100.5; word "next" 72 130; word "hello" 72 100].

End PDFProcessor.

(** ** services/export_service.py *)

Module ExportService.
Import Schemas Models Processor Api Random Str PIL HandwritingEngine PaperRenderer Diagrams LayoutComposer DiagramConverter.

(** [str(Path(directory) / name)], for a directory path in normal form. *)
Definition child (directory name : string) : string :=
  directory +:+ "/" +:+ name.

(** The paths that exist on disk. *)
Definition Files : Type := gset string.

(** [export_pdf]. What becomes of a list with pages in it (the temporary
    JPEG files, the FPDF document and its output) is the parameter
    [write_pdf]: the fault raised, if any, and the files afterwards. *)
Definition export_pdf (write_pdf : list Image -> string -> Files -> option exn * Files)
    (pages : list Image) (output_path : string) (files : Files)
    : option exn * Files :=
  match pages with
  | [] => (None, files)
  | _ => write_pdf pages output_path files
  end.

(** [fmt.lower()] and the two JPEG spellings. *)
Fixpoint lower_str (s : string) : string :=
  match s with
  | EmptyString => EmptyString
  | String c s' => String (Str.lower c) (lower_str s')
  end.

Definition is_jpeg (fmt : string) : bool :=
  String.eqb (lower_str fmt) "jpg" || String.eqb (lower_str fmt) "jpeg".

(** [bg = Image.new("RGB", size, (255, 255, 255));
    bg.paste(page_img, mask=page_img.split()[3])]: the page mixed onto
    white by its own alpha band. *)
Definition flatten (page_img : Image) : Image :=
  let bg := PIL.new RGB (size page_img) (255, 255, 255, 255) in
  let pasted := paste bg page_img (0, 0) page_img in
  mkImage RGB (PIL.width pasted) (PIL.height pasted)
          (fun x y => opaque (getpixel pasted x y)).

(** What is saved for one page. *)
Definition saved (fmt : string) (page_img : Image) : Image :=
  if is_jpeg fmt then
    match mode page_img with
    | RGBA => flatten page_img
    | RGB => page_img
    end
  else page_img.

(** [for i, page_img in enumerate(pages): ...] from index [i] on: the
    files written, with their rasters. *)
Fixpoint export_from (i : Z) (pages : list Image) (output_dir fmt : string)
    : list (string * Image) :=
  match pages with
  | [] => []
  | page_img :: rest =>
      (child output_dir ("page_" +:+ pretty (i + 1) +:+ "." +:+ fmt), saved fmt page_img)
      :: export_from (i + 1) rest output_dir fmt
  end.

(** [export_images]: the files written and the paths returned. *)
Definition export_images (pages : list Image) (output_dir fmt : string)
    : list (string * Image) * list string :=
  let written := export_from 0 pages output_dir fmt in
  (written, map fst written).

(** A page with one clear and one inked pixel, for examples. *)
Definition two_pixel_page : Image :=
  mkImage RGBA 2 1 (fun x y => if x =? 0 then (9, 9, 9, 0) else (10, 20, 30, 255)).

End ExportService.

(** ** The whole background task and the handlers around it *)

Module Task.
Import Schemas Models Processor Api Random Str PIL HandwritingEngine PaperRenderer Diagrams LayoutComposer DiagramConverter.
Import Processor Api ExportService.

(** [settings]: the size limit and the two storage directories. *)
Record Settings : Type := mkSettings {
  MAX_FILE_SIZE_MB : Z;
  uploads_path : string;
  results_path : string
}.

Definition max_file_size_bytes (settings : Settings) : Z :=
  MAX_FILE_SIZE_MB settings * 1024 * 1024.

(** The jobs table and the disk, as far as the uploads and the results
    directories go (the diagram cache has its own model). *)
Record Store : Type := mkStore {
  jobs : gmap string Job;
  files : Files
}.

(** What the collaborators make of the document of a job: whether the
    upload is on disk, the exception of building the services
    ([HandwritingEngine(config)] parses the ink colour), what [get_info]
    returns, what the pages do, and the composed pages. [commit_fails]
    tells for which pages the exception of the diagram conversion is that
    of a failed [db.commit()] of the cache index (the IntegrityError of a
    hash that is in the index already). The converter works on the
    session of the task and nothing calls [rollback()], so that after
    such a commit the session refuses every query. *)
Record Document : Type := mkDocument {
  on_disk : bool;
  init_fault : option string;
  info : Result Z;
  run : Z -> PageRun;
  composed : Z -> Image;
  commit_fails : Z -> bool
}.

(** What a run of the task leaves: the [_update_job] calls that went
    through, the disk, and whether an exception left the task. *)
Record TaskRun : Type := mkTaskRun {
  writes : list Update;
  disk : Files;
  raises : bool
}.

(** The page on which the loop ends with an exception, if it does. *)
Fixpoint raising_page (num_pages : Z) (page_nums : list Z) (run : Z -> PageRun)
    : option Z :=
  match page_nums with
  | [] => None
  | page_num :: rest =>
      match page_writes num_pages page_num (run page_num) with
      | (_, Some _) => Some page_num
      | (_, None) => raising_page num_pages rest run
      end
  end.

(** Whether the loop ended in the diagram conversion of a page (step 4)
    with the converter's commit failing: the session is then unusable
    when the [except] clause runs. *)
Definition converter_raised (num_pages page_num : Z) (pr : PageRun) : bool :=
  match page_progress_base page_num num_pages with
  | Raise _ => false
  | Ok _ =>
      images pr && match fault pr with
                   | Some (step, _) => step =? 4
                   | None => false
                   end
  end.

Definition session_lost (doc : Document) (num_pages : Z) : bool :=
  match raising_page num_pages (Py.range 1 (num_pages + 1) 1) (run doc) with
  | Some page_num =>
      converter_raised num_pages page_num (run doc page_num)
      && commit_fails doc page_num
  | None => false
  end.

Section Task.

Variable settings : Settings.
Variable write_pdf : list Image -> string -> Files -> option exn * Files.

Definition result_dir (job_id : string) : string :=
  child (results_path settings) job_id.

Definition preview_dir (job_id : string) : string :=
  child (result_dir job_id) "preview".

Definition preview_path (job_id : string) (page_num : Z) : string :=
  child (preview_dir job_id) ("page_" +:+ pretty page_num +:+ ".png").

Definition pdf_output_path (job_id : string) : string :=
  child (result_dir job_id) "result.pdf".

(** [_update_job] called for each of [ws] in turn, the k-th call reading
    the clock as [clock k]. *)
Fixpoint updates (db : gmap string Job) (job_id : string) (ws : list Update)
    (clock : nat -> Z) (k : nat) : gmap string Job :=
  match ws with
  | [] => db
  | u :: rest => updates (_update_job db job_id u (clock k)) job_id rest clock (S k)
  end.

(** The export step: the two directories, one preview per composed page,
    then [export_pdf]. *)
Definition export (job_id : string) (num_pages : Z) (doc : Document) (files : Files)
    : option exn * Files :=
  let page_nums := Py.range 1 (num_pages + 1) 1 in
  let files := {[ result_dir job_id ]} ∪ files in
  let files := {[ preview_dir job_id ]} ∪ files in
  let files := list_to_set (map (preview_path job_id) page_nums) ∪ files in
  export_pdf write_pdf (map (composed doc) page_nums) (pdf_output_path job_id) files.

(** The task for a job record that is there: the [_update_job] calls
    that go through, the disk afterwards, and whether an exception leaves
    the task. When the page loop ends with the session lost, the
    [_update_job] call of the [except] clause raises at its query: the
    Failed write is not made, and that exception leaves the task after
    [db.close()]. *)
Definition task_writes (job : Job) (job_id : string) (doc : Document)
    (files : Files) (now : Z) : TaskRun :=
  let not_found :=
    mkUpdate (Some FAILED) None None (Some "PDF file not found"%string) None None in
  match upload_path job with
  | None => mkTaskRun [not_found] files false
  | Some pdf_path =>
      if String.eqb pdf_path "" || negb (on_disk doc)
      then mkTaskRun [not_found] files false
      else
        match init_fault doc with
        | Some m => mkTaskRun [failed m] files false
        | None =>
            match info doc with
            | Raise e => mkTaskRun [failed (str e)] files false
            | Ok num_pages =>
                match page_loop num_pages (Py.range 1 (num_pages + 1) 1) (run doc) with
                | (ws, Some _) =>
                    if session_lost doc num_pages then
                      mkTaskRun (progress_stage 5 "Extracting PDF content..." :: ws)
                                files true
                    else
                      mkTaskRun (process_document_task num_pages (run doc) None
                                   (pdf_output_path job_id) now) files false
                | (_, None) =>
                    let '(fault, files') := export job_id num_pages doc files in
                    mkTaskRun (process_document_task num_pages (run doc) (str <$> fault)
                                 (pdf_output_path job_id) now) files' false
                end
            end
        end
  end.

(** [process_document_task] from its first line: the jobs table and the
    disk it leaves. *)
Definition background_task (store : Store) (job_id : string) (doc : Document)
    (now : Z) (clock : nat -> Z) : Store :=
  match jobs store !! job_id with
  | None => store
  | Some job =>
      let r := task_writes job job_id doc (files store) now in
      mkStore (updates (jobs store) job_id (writes r) clock 0) (disk r)
  end.

(** Whether an exception leaves [process_document_task]. *)
Definition background_task_raises (store : Store) (job_id : string) (doc : Document)
    (now : Z) : bool :=
  match jobs store !! job_id with
  | None => false
  | Some job => raises (task_writes job job_id doc (files store) now)
  end.

(** *** api.py: upload, download, preview *)

Record UploadResponse : Type := mkUploadResponse {
  ur_job_id : string;
  ur_status : string;
  ur_filename : string;
  ur_pages : Z;
  ur_message : string
}.

(** [s.lower().endswith(".pdf")] *)
Definition is_pdf_name (s : string) : bool :=
  let n := String.length s in
  (4 <=? n)%nat && String.eqb (String.substring (n - 4) 4 (lower_str s)) ".pdf".

(** [POST /upload]: [job_id] is the uuid drawn, [page_count] what PyPDF2
    counts ([None] when it raises). *)
Definition upload_pdf (store : Store) (filename : option string)
    (content_length : Z) (job_id : string) (page_count : option Z) (now : Z)
    : Result UploadResponse * Store :=
  match filename with
  | None => (Raise (HTTPException 400 "Only PDF files are allowed"), store)
  | Some name =>
      if String.eqb name "" || negb (is_pdf_name name) then
        (Raise (HTTPException 400 "Only PDF files are allowed"), store)
      else if max_file_size_bytes settings <? content_length then
        (Raise (HTTPException 413
                  ("File too large. Maximum size is "
                   +:+ pretty (MAX_FILE_SIZE_MB settings) +:+ "MB")), store)
      else
        match jobs store !! job_id with
        | Some _ => (Raise (IntegrityError "UNIQUE constraint failed: jobs.id"), store)
        | None =>
            let upload_dir := child (uploads_path settings) job_id in
            let file_path := child upload_dir "original.pdf" in
            let num_pages := default 0 page_count in
            let job := mkJob job_id name UPLOADED None num_pages 0 ""
                             (Some file_path) None None now None in
            (Ok (mkUploadResponse job_id (value UPLOADED) name num_pages
                                  "File uploaded successfully"),
             mkStore (<[job_id := job]> (jobs store))
                     ({[ file_path ]} ∪ ({[ upload_dir ]} ∪ files store)))
        end
  end.

Inductive ExportFormat : Type := PDF | PNG | JPG.

Definition format_value (f : ExportFormat) : string :=
  match f with PDF => "pdf" | PNG => "png" | JPG => "jpg" end.

(** A [FileResponse]. *)
Record FileResponse : Type := mkFileResponse {
  fr_path : string;
  fr_filename : option string;
  fr_media_type : string
}.

(** [GET /download/{job_id}]; [stem] is [Path(name).stem]. *)
Definition download_result (stem : string -> string) (store : Store)
    (job_id : string) (format : ExportFormat) : Result FileResponse :=
  match jobs store !! job_id with
  | None => Raise (HTTPException 404 "Job not found")
  | Some job =>
      if negb (bool_decide (status job = COMPLETED)) then
        Raise (HTTPException 400 "Job not yet completed")
      else
        match result_path job with
        | Some result_path =>
            if String.eqb result_path "" || negb (bool_decide (result_path ∈ files store))
            then Raise (HTTPException 404 "Result file not found")
            else
              Ok (mkFileResponse result_path
                    (Some ("handwritten_" +:+ stem (filename job) +:+ "."
                           +:+ format_value format))
                    (match format with
                     | PDF => "application/pdf"
                     | _ => "image/" +:+ format_value format
                     end))
        | None => Raise (HTTPException 404 "Result file not found")
        end
  end.

(** [GET /preview/{job_id}/{page_num}] *)
Definition get_preview (store : Store) (job_id : string) (page_num : Z)
    : Result FileResponse :=
  match jobs store !! job_id with
  | None => Raise (HTTPException 404 "Job not found")
  | Some job =>
      if negb (bool_decide (status job = COMPLETED)) then
        Raise (HTTPException 400 "Job not yet completed")
      else if bool_decide (preview_path job_id page_num ∈ files store) then
        Ok (mkFileResponse (preview_path job_id page_num) None "image/png")
      else
        Raise (HTTPException 404
                 ("Preview for page " +:+ pretty page_num +:+ " not found"))
  end.

End Task.

(** Settings and a document for examples: a two-page upload on which
    nothing raises, and an export that writes its output. *)
Definition defaults : Settings := mkSettings 50 "storage/uploads" "storage/results".

Definition writes_output (pages : list Image) (output_path : string) (files : Files)
    : option exn * Files :=
  (None, {[ output_path ]} ∪ files).

Definition sound_document (num_pages : Z) : Document :=
  mkDocument true None (Ok num_pages) (fun _ => mkPageRun false None)
             (fun _ => white_paper 4 4) (fun _ => false).

(** A two-page document whose second page has a diagram with a stale
    row in the cache index: the converter's commit fails there. *)
Definition stale_cache_document : Document :=
  mkDocument true None (Ok 2)
             (fun page_num =>
                if page_num =? 2
                then mkPageRun true
                       (Some (4, "UNIQUE constraint failed: diagram_cache.image_hash"%string))
                else mkPageRun false None)
             (fun _ => white_paper 4 4) (fun page_num => page_num =? 2).

(** A job the API has started. *)
Definition started_job : Job :=
  mkJob "j4" "notes.pdf" PROCESSING (Some default_config) 2 0 "Starting..."
        (Some "storage/uploads/j4/original.pdf"%string) None None 3 None.

End Task.

(** ** What the writes of a task are *)

Module Writes.
Import Schemas Models Processor Api Random Str PIL HandwritingEngine PaperRenderer Diagrams LayoutComposer DiagramConverter.
Import Processor.

(** A progress write: it sets the progress and the stage and nothing
    else. *)
Definition progress_only (u : Update) : Prop :=
  u_status u = None /\ u_error_message u = None /\
  u_result_path u = None /\ u_completed_at u = None.

(** The write that ends a successful run. *)
Definition completed (result : string) (now : Z) : Update :=
  mkUpdate (Some COMPLETED) (Some 100) (Some "Completed"%string) None
           (Some result) (Some now).

(** The write for an upload that is not on disk. *)
Definition not_found : Update :=
  mkUpdate (Some FAILED) None None (Some "PDF file not found"%string) None None.

(** The columns no write of the task touches. *)
Definition same_upload (job job' : Job) : Prop :=
  id job' = id job /\ filename job' = filename job /\ config job' = config job /\
  num_pages job' = num_pages job /\ upload_path job' = upload_path job.

End Writes.

(** * Verification *)

Import Processor Api.

(** ** The orchestrator's progress writes *)

Lemma nondecreasing_spec (l : list Z) :
  nondecreasing l = true <->
  forall i a b, l !! i = Some a -> l !! S i = Some b -> a <= b.
Proof.
  induction l as [|a [|b tl] IH]; simpl.
  - split; [intros _ i a b H; discriminate | reflexivity].
  - split; [intros _ [|i] x y H1 H2; discriminate | reflexivity].
  - rewrite andb_true_iff, Z.leb_le, IH. split.
    + intros [Hab Htl] [|i] x y H1 H2; simpl in *.
      * congruence.
      * eapply Htl; eassumption.
    + intros H. split.
      * apply (H 0%nat); reflexivity.
      * intros i x y H1 H2. apply (H (S i)); assumption.
Qed.

(** C3. On a five-page document without diagrams the orchestrator writes
    5, 5, 10, 15, 23 and then 21: the first write of page 2 lies below the
    last write of page 1, so the progress sequence is not non-decreasing.
    On an eighty-page document the last page writes 101 and 102 before the
    export step writes 90, so the sequence also leaves [0,100]. Both runs
    nevertheless end at 100. *)
Theorem progress_not_monotone_on_five_pages :
  progress_values (successful_run 5 (fun _ => false)) =
    [5; 5; 10; 15; 23; 21; 26; 31; 39; 37; 42; 47; 55; 53; 58; 63; 71;
     69; 74; 79; 87; 90; 100] /\
  nondecreasing (progress_values (successful_run 5 (fun _ => false))) = false /\
  within_0_100 (progress_values (successful_run 80 (fun _ => false))) = false /\
  last (progress_values (successful_run 80 (fun _ => false))) = Some 100.
Proof. repeat split; vm_compute; reflexivity. Qed.

Lemma In_range (a b n : Z) : a <= n < b -> In n (Py.range a b 1).
Proof.
  intros Hn. unfold Py.range. apply in_map_iff.
  exists (Z.to_nat (n - a)). split; [lia|].
  apply in_seq. rewrite Z.div_1_r. lia.
Qed.

(** The drop at the first page boundary is there for every page count from
    5 up (checked here up to 300 pages). *)
Lemma progress_drops_from_five_pages (n : Z) (imgs : bool) :
  5 <= n <= 300 ->
  nondecreasing (progress_values (successful_run n (fun _ => imgs))) = false.
Proof.
  intros Hn.
  assert (forallb (fun n => negb (nondecreasing
                     (progress_values (successful_run n (fun _ => imgs)))))
                  (Py.range 5 301 1) = true) as Hall.
  { destruct imgs; vm_compute; reflexivity. }
  rewrite forallb_forall in Hall.
  specialize (Hall n (In_range 5 301 n ltac:(lia))).
  apply negb_true_iff in Hall. exact Hall.
Qed.

(** Up to four pages the sequence is as the specification describes it,
    with or without diagrams on the pages. *)
Lemma progress_monotone_up_to_four_pages (n : Z) (imgs : bool) :
  0 <= n <= 4 ->
  let ps := progress_values (successful_run n (fun _ => imgs)) in
  nondecreasing ps = true /\ within_0_100 ps = true /\ last ps = Some 100.
Proof.
  intros Hn.
  assert (n = 0 \/ n = 1 \/ n = 2 \/ n = 3 \/ n = 4) as Hc by lia.
  destruct imgs; destruct Hc as [->|[->|[->|[->| ->]]]];
    vm_compute; repeat split; reflexivity.
Qed.

Lemma update_job_missing_record db job_id u now :
  db !! job_id = None -> _update_job db job_id u now = db.
Proof. intros H. unfold _update_job. rewrite H. reflexivity. Qed.

(** ** The job state machine *)

(** Deleting is open to a job in any state, a Completed one included. *)
Lemma delete_job_removes db job_id job :
  db !! job_id = Some job -> jobs (delete_job db job_id) !! job_id = None.
Proof.
  intros H. unfold delete_job. rewrite H. cbn [jobs]. apply lookup_delete_eq.
Qed.

(** C4, as the specification states it, fails on a Failed job: a
    start-processing request is accepted and moves the job back to
    Processing with progress 0. *)
Lemma failed_job_is_restarted :
  status failed_job = FAILED /\
  response (process_document {[ "j1"%string := failed_job ]} "j1" default_config 8)
    = Ok (mkProcessResponse "j1" "processing"
            "Processing started. Use /status endpoint to track progress.") /\
  (status <$> jobs (process_document {[ "j1"%string := failed_job ]} "j1"
                      default_config 8) !! "j1"%string) = Some PROCESSING /\
  ~ terminal_under_start failed_job.
Proof.
  split; [reflexivity|]. split; [vm_compute; reflexivity|].
  split; [vm_compute; reflexivity|].
  intros H.
  specialize (H {[ "j1"%string := failed_job ]} "j1"%string default_config 8).
  assert ((status <$> jobs (process_document {[ "j1"%string := failed_job ]} "j1"
                    default_config 8) !! "j1"%string) = Some FAILED) as Hs.
  { rewrite H; [reflexivity | apply lookup_singleton_eq]. }
  vm_compute in Hs. discriminate.
Qed.

(** C4, amended. Completed is terminal for the start-processing request:
    the request is refused with HTTP 400, the jobs table is left as it
    is and no background task is queued. A Failed job is not terminal:
    the request is accepted, the job is set to Processing with progress 0
    and stage "Starting...", and a background task is queued for it. *)
Theorem start_processing_on_finished_jobs
    (db : gmap string Job) (job_id : string) (request : ProcessConfig)
    (now : Z) (job : Job) :
  db !! job_id = Some job ->
  (status job = COMPLETED ->
     process_document db job_id request now =
       mkOutcome (Raise (HTTPException 400 "Job already completed")) db None) /\
  (status job = FAILED ->
     exists job',
       jobs (process_document db job_id request now) = <[job_id := job']> db /\
       status job' = PROCESSING /\ progress job' = 0 /\
       current_stage job' = "Starting..."%string /\
       config job' = Some request /\
       queued (process_document db job_id request now) = Some (job_id, request)).
Proof.
  intros Hjob. unfold process_document. rewrite Hjob. split; intros Hs.
  - rewrite Hs. reflexivity.
  - rewrite Hs. simpl. eexists. repeat split.
Qed.

Lemma start_processing_on_finished_jobs_witness :
  ({[ "j2"%string := completed_job ]} : gmap string Job) !! "j2"%string
    = Some completed_job /\
  process_document {[ "j2"%string := completed_job ]} "j2" default_config 10 =
    mkOutcome (Raise (HTTPException 400 "Job already completed"))
      {[ "j2"%string := completed_job ]} None.
Proof.
  split; [apply lookup_singleton_eq|].
  apply (proj1 (start_processing_on_finished_jobs
                  {[ "j2"%string := completed_job ]} "j2"%string default_config 10
                  completed_job (lookup_singleton_eq _ _))).
  reflexivity.
Defined.

(** ** The random-draw semantics *)

Import HandwritingEngine Str.

Lemma bind_unfold {A B} (m : Rand A) (f : A -> Rand B) : m ≫= f = bind m f.
Proof. reflexivity. Qed.

Lemma Runs_deterministic {A} (m : Rand A) draws a1 a2 :
  Runs m draws a1 -> Runs m draws a2 -> a1 = a2.
Proof.
  intros H1. revert a2.
  induction H1 as [a | k r draws a Hlo Hhi H1 IH | n k v draws a Hv H1 IH];
    intros a2 H2; inversion H2; subst; auto.
Qed.

Lemma Runs_bind {A B} (m : Rand A) (f : A -> Rand B) d1 d2 a b :
  Runs m d1 a -> Runs (f a) d2 b -> Runs (bind m f) (d1 ++ d2) b.
Proof.
  intros H1 H2. induction H1; simpl; [assumption | |]; constructor; auto.
Qed.

Lemma Runs_bind_inv {A B} (m : Rand A) (f : A -> Rand B) draws b :
  Runs (bind m f) draws b ->
  exists d1 d2 a, draws = d1 ++ d2 /\ Runs m d1 a /\ Runs (f a) d2 b.
Proof.
  revert draws. induction m as [a | k IH | n k IH]; simpl; intros draws H.
  - exists [], draws, a. repeat split; [constructor | assumption].
  - inversion H as [| k' r ds b' Hlo Hhi Hk |]; subst.
    destruct (IH _ _ Hk) as (d1 & d2 & a & -> & Hm & Hf).
    exists (DFloat r :: d1), d2, a. repeat split; [constructor | ]; assumption.
  - inversion H as [| | n' k' v ds b' Hv Hk]; subst.
    destruct (IH _ _ Hk) as (d1 & d2 & a & -> & Hm & Hf).
    exists (DBelow v :: d1), d2, a. repeat split; [constructor | ]; assumption.
Qed.

Lemma proper_bind {A B} (m : Rand A) (f : A -> Rand B) :
  proper m -> (forall a, proper (f a)) -> proper (bind m f).
Proof.
  intros Hm Hf. induction Hm; simpl; [apply Hf | |]; constructor; auto.
Qed.

Lemma to_unit_range r :
  (0 <=? to_unit r)%float = true /\ (to_unit r <? 1)%float = true.
Proof.
  unfold to_unit.
  destruct ((0 <=? r)%float) eqn:Hlo; destruct ((r <? 1)%float) eqn:Hhi;
    simpl; split; solve [assumption | reflexivity].
Qed.

(** Against any source a proper program runs to the end, and what [interp]
    computes is a run in the sense of [Runs]. *)
Lemma interp_Runs {A} (m : Rand A) (src : Source) (i : nat) :
  proper m -> Runs m (snd (interp m src i)) (fst (interp m src i)).
Proof.
  intros Hm. revert i.
  induction Hm as [a | k Hk IH | n k Hn Hk IH]; intros i; simpl.
  - constructor.
  - specialize (IH (to_unit (floats src i)) (S i)).
    destruct (interp (k (to_unit (floats src i))) src (S i)) as [a ds]. simpl in *.
    constructor; [apply to_unit_range | apply to_unit_range | assumption].
  - specialize (IH (ints src i `mod` n) (S i)).
    destruct (interp (k (ints src i `mod` n)) src (S i)) as [a ds]. simpl in *.
    constructor; [apply Z.mod_pos_bound; assumption | assumption].
Qed.

Lemma interp_run {A} (m : Rand A) (src : Source) (i : nat) a draws :
  proper m -> interp m src i = (a, draws) -> Runs m draws a.
Proof.
  intros Hm He. pose proof (interp_Runs m src i Hm) as H.
  rewrite He in H. exact H.
Qed.

(** ** The imperfection model *)

Lemma nospace_snoc s c :
  nospace s = true -> isspace c = false -> nospace (s +:+ of_char c) = true.
Proof.
  intros Hs Hc. induction s as [|d s IH]; simpl in *.
  - rewrite Hc. reflexivity.
  - apply andb_true_iff in Hs as [Hd Hs]. rewrite Hd, IH by assumption. reflexivity.
Qed.

Lemma snoc_nonempty s c : s +:+ of_char c <> EmptyString.
Proof. destruct s; discriminate. Qed.

Lemma split_from_words word s :
  nospace word = true ->
  Forall (fun w => w <> EmptyString /\ nospace w = true) (split_from word s).
Proof.
  revert word. induction s as [|c s IH]; intros word Hw; simpl.
  - destruct word; [constructor | repeat constructor; [discriminate | assumption]].
  - destruct (isspace c) eqn:Hc.
    + destruct word.
      * apply IH. reflexivity.
      * constructor; [split; [discriminate | assumption] | apply IH; reflexivity].
    + apply IH. apply nospace_snoc; assumption.
Qed.

Lemma split_words s :
  Forall (fun w => w <> EmptyString /\ nospace w = true) (split s).
Proof. apply split_from_words. reflexivity. Qed.

Lemma rstrip_nospace w : nospace w = true -> rstrip w = w.
Proof.
  induction w as [|c w IH]; simpl; [reflexivity|].
  intros H. apply andb_true_iff in H as [Hc Hw]. rewrite IH by assumption.
  apply negb_true_iff in Hc. rewrite Hc. destruct w; reflexivity.
Qed.

Lemma strip_nospace w : nospace w = true -> strip w = w.
Proof.
  intros H. unfold strip.
  assert (lstrip w = w) as ->.
  { destruct w as [|c w]; simpl in *; [reflexivity|].
    apply andb_true_iff in H as [Hc _]. apply negb_true_iff in Hc.
    rewrite Hc. reflexivity. }
  apply rstrip_nospace. assumption.
Qed.

Lemma proper_randint a b : proper (randint a b).
Proof.
  unfold randint. destruct (Z.leb_spec (b - a + 1) 0); repeat constructor. lia.
Qed.

Lemma proper_make_spelling_error word : proper (_make_spelling_error word).
Proof.
  unfold _make_spelling_error.
  destruct (len word <? 3); [constructor|].
  rewrite bind_unfold. apply proper_bind.
  - constructor; [simpl; lia | constructor].
  - intros et.
    repeat match goal with
           | |- proper (if ?c then _ else _) => destruct c
           | |- proper (_ ≫= _) => rewrite bind_unfold; apply proper_bind
           | |- proper (randint _ _) => apply proper_randint
           | |- forall _, _ => intro
           | |- proper (mret _) => constructor
           end.
Qed.

Lemma proper_imperfect_word self word : proper (imperfect_word self word).
Proof.
  unfold imperfect_word. destruct (strip word); [constructor|].
  rewrite bind_unfold. apply proper_bind; [repeat constructor|].
  intros roll.
  destruct ((roll <? imperfection_level self)%float && (2 <? len word));
    [|constructor].
  rewrite bind_unfold. apply proper_bind; [repeat constructor|].
  intros mistake.
  repeat match goal with
         | |- proper (if ?c then _ else _) => destruct c
         | |- proper (_ ≫= _) => rewrite bind_unfold; apply proper_bind
         | |- proper (_make_spelling_error _) => apply proper_make_spelling_error
         | |- forall _, _ => intro
         | |- proper (mret _) => constructor
         end.
Qed.

Lemma proper_apply_imperfections self line :
  proper (_apply_imperfections self line).
Proof.
  unfold _apply_imperfections.
  induction (split line) as [|w ws IH]; simpl; [constructor|].
  rewrite bind_unfold. apply proper_bind; [apply proper_imperfect_word|].
  intros seg. rewrite bind_unfold. apply proper_bind; [assumption|].
  intros segs. constructor.
Qed.

(** A word that is not blank yields one segment that stands for it. *)
Lemma imperfect_word_original self word draws seg :
  strip word <> EmptyString ->
  Runs (imperfect_word self word) draws seg -> original seg = word.
Proof.
  intros Hw. unfold imperfect_word.
  destruct (strip word) eqn:Hs; [congruence|]. clear Hs Hw.
  rewrite bind_unfold. intros H.
  apply Runs_bind_inv in H as (d1 & d2 & roll & -> & _ & H).
  destruct ((roll <? imperfection_level self)%float && (2 <? len word)).
  - rewrite bind_unfold in H.
    apply Runs_bind_inv in H as (d3 & d4 & mistake & -> & _ & H).
    destruct (String.eqb mistake "spelling").
    + rewrite bind_unfold in H.
      apply Runs_bind_inv in H as (d5 & d6 & misspelled & -> & _ & H).
      inversion H; subst. reflexivity.
    + destruct (String.eqb mistake "strikethrough"); inversion H; subst; reflexivity.
  - inversion H; subst. reflexivity.
Qed.

Lemma imperfect_words_original self words draws segs :
  Forall (fun w => w <> EmptyString /\ nospace w = true) words ->
  Runs (imperfect_words self words) draws segs ->
  map original segs = words.
Proof.
  intros Hws. revert draws segs.
  induction Hws as [|w ws [Hne Hns] Hws IH]; intros draws segs H; simpl in H.
  - inversion H; subst. reflexivity.
  - rewrite bind_unfold in H.
    apply Runs_bind_inv in H as (d1 & d2 & seg & -> & Hseg & H).
    rewrite bind_unfold in H.
    apply Runs_bind_inv in H as (d3 & d4 & segs' & -> & Hsegs & H).
    inversion H; subst. simpl. f_equal.
    + eapply imperfect_word_original; [|eassumption].
      rewrite strip_nospace; assumption.
    + eapply IH; eassumption.
Qed.


Lemma imperfect_words_level self1 self2 words :
  imperfection_level self1 = imperfection_level self2 ->
  imperfect_words self1 words = imperfect_words self2 words.
Proof.
  intros Hp. induction words as [|w ws IH]; simpl; [reflexivity|].
  rewrite IH. unfold imperfect_word. rewrite Hp. reflexivity.
Qed.

(** C7, as the specification states it, fails on the line "helo world"
    with imperfection probability 0: the model returns exactly the two
    Normal segments "helo" and "world", and the whitespace token between
    the two words is the text of no segment. *)
Lemma whitespace_token_not_covered :
  interp (_apply_imperfections (engine 0) "helo world") (constant_source 0.5 0) 0
    = ([mkSegment "helo" normal None; mkSegment "world" normal None],
       [DFloat 0.5; DFloat 0.5]) /\
  Runs (_apply_imperfections (engine 0) "helo world") [DFloat 0.5; DFloat 0.5]
       [mkSegment "helo" normal None; mkSegment "world" normal None] /\
  tokens "helo world" = ["helo"; " "; "world"]%string /\
  ~ covers_tokens "helo world"
      [mkSegment "helo" normal None; mkSegment "world" normal None].
Proof.
  split; [vm_compute; reflexivity|]. split.
  { apply (interp_run _ (constant_source 0.5 0) 0);
      [apply proper_apply_imperfections | vm_compute; reflexivity]. }
  split; [vm_compute; reflexivity|].
  intros H. destruct (H " "%string) as (seg & Hin & Hseg).
  { vm_compute. auto. }
  simpl in Hin. destruct Hin as [<-|[<-|[]]]; simpl in Hseg;
    destruct Hseg; discriminate.
Qed.

(** C7, amended. For every input line the model returns one segment per
    whitespace-separated word of the line, in the original order: against
    any random source it runs to the end, and on every run the words the
    segments stand for (the correction of a Misspelled or Struck-through
    segment, the text of any other) are exactly [line.split()]. Whitespace
    is not represented: no segment stands for an empty word or for a word
    with a whitespace character in it. *)
Theorem apply_imperfections_one_segment_per_word (self : Engine) (line : string) :
  (forall src i,
     Runs (_apply_imperfections self line)
          (snd (interp (_apply_imperfections self line) src i))
          (fst (interp (_apply_imperfections self line) src i))) /\
  (forall draws segs,
     Runs (_apply_imperfections self line) draws segs ->
     map original segs = split line /\
     Forall (fun seg => original seg <> EmptyString /\
                        nospace (original seg) = true) segs).
Proof.
  split.
  - intros src i. apply interp_Runs, proper_apply_imperfections.
  - intros draws segs H.
    assert (map original segs = split line) as Hmap.
    { eapply imperfect_words_original; [apply split_words | exact H]. }
    split; [assumption|].
    pose proof (split_words line) as Hw. rewrite <- Hmap in Hw.
    apply Forall_map in Hw. exact Hw.
Qed.

(** C9. The imperfection model is deterministic given its random source:
    two runs on the same text, with the same imperfection probability and
    the same sequence of random draws, return the same segments (texts,
    defect kinds and corrections), whatever the other settings of the two
    engines. *)
Theorem apply_imperfections_deterministic
    (self1 self2 : Engine) (line : string) (draws : list Draw)
    (segs1 segs2 : list Segment) :
  imperfection_level self1 = imperfection_level self2 ->
  Runs (_apply_imperfections self1 line) draws segs1 ->
  Runs (_apply_imperfections self2 line) draws segs2 ->
  segs1 = segs2.
Proof.
  intros Hp H1 H2. unfold _apply_imperfections in *.
  rewrite (imperfect_words_level self1 self2 _ Hp) in H1.
  eapply Runs_deterministic; eassumption.
Qed.

Lemma misspelling_run (self : Engine) :
  imperfection_level self = 0.2%float ->
  Runs (_apply_imperfections self "helo world of") misspelling_draws
       misspelling_segments.
Proof.
  intros Hp. unfold _apply_imperfections.
  rewrite (imperfect_words_level self (engine 0.2) _ Hp).
  apply (interp_run (_apply_imperfections (engine 0.2) "helo world of")
           (mkSource (fun i => nth i [0.1; 0.1; 0; 0; 0.1; 0.5; 0.9]%float 0%float)
                     (fun _ => 0)) 0);
    [apply proper_apply_imperfections | vm_compute; reflexivity].
Qed.

Lemma apply_imperfections_deterministic_witness :
  imperfection_level (engine 0.2) =
    imperfection_level other_engine /\
  Runs (_apply_imperfections (engine 0.2) "helo world of")
       misspelling_draws misspelling_segments /\
  Runs (_apply_imperfections
other_engine "helo world of")
       misspelling_draws misspelling_segments /\
  misspelling_segments = misspelling_segments.
Proof.
  split; [reflexivity|].
  split; [apply misspelling_run; reflexivity|].
  split; [apply misspelling_run; reflexivity|].
  apply (apply_imperfections_deterministic
           (engine 0.2)
other_engine "helo world of" misspelling_draws);
    [reflexivity | apply misspelling_run; reflexivity
     | apply misspelling_run; reflexivity].
Defined.


(** ** The stroke renderer *)

(** C5, as the specification states it, fails on the Misspelled segment
    "hleo" (for "helo") drawn at (80, 100) with a text box 20 pixels high:
    the line is drawn at y = 110, the vertical middle of the box, above its
    bottom edge at y = 120. It strikes the word through; it is not beneath
    it. *)
Lemma misspelled_word_is_struck_not_underlined :
  fst (interp (_render_line box_metrics (engine 0)
                 [mkSegment "hleo" error (Some "helo"%string)] 80 100 1)
              (constant_source 0.5 0) 0)
    = Ok [draw_text (80, 100)%float "hleo"
            (truetype "fonts/Caveat-Regular.ttf" 18) (26, 26, 46, 223);
          draw_line [(80, 110); (120, 110)]%float (26, 26, 46, 150) 1;
          draw_text (80, 80)%float "helo"
            (truetype "fonts/Caveat-Regular.ttf" 13) (26, 26, 46, 200)] /\
  box_metrics (80, 100)%float "hleo" (truetype "fonts/Caveat-Regular.ttf" 18)
    = (80, 100, 120, 120)%float /\
  underlined_beneath 120
    [draw_text (80, 100)%float "hleo"
       (truetype "fonts/Caveat-Regular.ttf" 18) (26, 26, 46, 223);
     draw_line [(80, 110); (120, 110)]%float (26, 26, 46, 150) 1;
     draw_text (80, 80)%float "helo"
       (truetype "fonts/Caveat-Regular.ttf" 13) (26, 26, 46, 200)] = false.
Proof. repeat split; vm_compute; reflexivity. Qed.


(** C5, amended. For every segment whose defect kind is Misspelled, a
    run of the renderer that draws it makes exactly three calls: the
    misspelled text in the main font with the pressure-jittered ink; then a
    light (alpha 150), thin (width 1), straight two-point line across the
    text's box at its vertical middle (top + bottom) / 2, a strike-through;
    then the correct word in the engine's small font, above the box at
    top - font_size * scale - 2. *)
Theorem misspelled_segment_is_struck_and_corrected
    (textbbox : float * float -> string -> Font -> BBox) (self : Engine)
    (y scale cursor_x : float) (segment : Segment)
    (draws : list Draw) (ops : list DrawOp) (cursor_x' : float) :
  type segment = error ->
  Runs (render_segment textbbox self y scale cursor_x segment) draws
       (Ok (ops, cursor_x')) ->
  exists r1 r2 r3 r4 r5 alpha corr corr_alpha,
    draws = [DFloat r1; DFloat r2; DFloat r3; DFloat r4; DFloat r5] /\
    Py.int (255 * uniform_at 0.75 1.0 r3)%float = Some alpha /\
    correction segment = Some corr /\
    Py.int (Py.of_int alpha * 0.9)%float = Some corr_alpha /\
    let pos_x := (cursor_x + uniform_at (-2) 2 r1 * scale)%float in
    let pos_y := (y + uniform_at (-1.5) 1.5 r2 * scale)%float in
    let '(x_left, y_top, x_right, y_bottom) :=
      textbbox (pos_x, pos_y) (text segment) (font self) in
    let mid_y := ((y_top + y_bottom) / 2)%float in
    ops =
      [draw_text (pos_x, pos_y) (text segment) (font self)
                 (with_alpha (ink_color self) alpha);
       draw_line [(x_left, mid_y); (x_right, mid_y)]
                 (with_alpha (ink_color self) 150) 1;
       draw_text ((pos_x + uniform_at (-2) 2 r4)%float,
                  (y_top - Py.of_int (font_size self) * scale - 2)%float)
                 corr (small_font self)
                 (with_alpha (ink_color self) corr_alpha)] /\
    cursor_x' = (cursor_x + (x_right - x_left + uniform_at 4 8 r5 * scale))%float.
Proof.
  intros Ht H. unfold render_segment in H. rewrite Ht in H.
  cbn [bindE liftE bind uniform int get_correction retE] in H.
  inversion H as [| k1 r1 ds1 a1 _ _ H1 |]; subst; clear H.
  inversion H1 as [| k2 r2 ds2 a2 _ _ H2 |]; subst; clear H1.
  inversion H2 as [| k3 r3 ds3 a3 _ _ H3 |]; subst; clear H2.
  destruct (Py.int (255 * uniform_at 0.75 1 r3)%float) as [alpha|] eqn:Ha;
    cbn [of_option] in H3; [|inversion H3].
  destruct (textbbox _ _ _) as [[[b0 b1] b2] b3] eqn:Hb.
  cbn [bindE liftE bind uniform int get_correction retE] in H3.
  inversion H3 as [| k4 r4 ds4 a4 _ _ H4 |]; subst; clear H3.
  destruct (correction segment) as [corr|] eqn:Hc;
    cbn [of_option] in H4; [|inversion H4].
  destruct (Py.int (Py.of_int alpha * 0.9)%float) as [corr_alpha|] eqn:Hca;
    cbn [of_option] in H4; [|inversion H4].
  inversion H4 as [| k5 r5 ds5 a5 _ _ H5 |]; subst; clear H4.
  inversion H5; subst.
  exists r1, r2, r3, r4, r5, alpha, corr, corr_alpha.
  repeat split; try assumption.
  cbv zeta. rewrite Hb. split; reflexivity.
Qed.

(** Against any random source, a Misspelled segment is either drawn by
    those three calls or the renderer raises: on a pressure that is no
    finite number, or on a segment that carries no correction. *)
Lemma misspelled_segment_outcome
    (textbbox : float * float -> string -> Font -> BBox) (self : Engine)
    (y scale cursor_x : float) (txt : string) (corr : option string)
    (src : Source) (i : nat) :
  let r1 := to_unit (floats src i) in
  let r2 := to_unit (floats src (S i)) in
  let r3 := to_unit (floats src (S (S i))) in
  let r4 := to_unit (floats src (S (S (S i)))) in
  let r5 := to_unit (floats src (S (S (S (S i))))) in
  let pos_x := (cursor_x + uniform_at (-2) 2 r1 * scale)%float in
  let pos_y := (y + uniform_at (-1.5) 1.5 r2 * scale)%float in
  let '(x_left, y_top, x_right, y_bottom) := textbbox (pos_x, pos_y) txt (font self) in
  let mid_y := ((y_top + y_bottom) / 2)%float in
  fst (interp (render_segment textbbox self y scale cursor_x
                 (mkSegment txt error corr)) src i) =
    match Py.int (255 * uniform_at 0.75 1.0 r3)%float with
    | None => Raise (ValueError "cannot convert float to integer")
    | Some alpha =>
        match corr with
        | None => Raise (KeyError "correction")
        | Some c =>
            match Py.int (Py.of_int alpha * 0.9)%float with
            | None => Raise (ValueError "cannot convert float to integer")
            | Some corr_alpha =>
                Ok ([draw_text (pos_x, pos_y) txt (font self)
                               (with_alpha (ink_color self) alpha);
                     draw_line [(x_left, mid_y); (x_right, mid_y)]
                               (with_alpha (ink_color self) 150) 1;
                     draw_text ((pos_x + uniform_at (-2) 2 r4)%float,
                                (y_top - Py.of_int (font_size self) * scale - 2)%float)
                               c (small_font self)
                               (with_alpha (ink_color self) corr_alpha)],
                    (cursor_x + (x_right - x_left + uniform_at 4 8 r5 * scale))%float)
            end
        end
    end.
Proof.
  cbv zeta. unfold render_segment.
  cbn [bindE liftE bind uniform int get_correction retE interp type text correction].
  destruct (Py.int (255 * uniform_at 0.75 1 (to_unit (floats src (S (S i)))))%float)
    as [alpha|]; cbn [of_option interp fst]; [|destruct (textbbox _ _ _) as [[[? ?] ?] ?]; reflexivity].
  destruct (textbbox _ _ _) as [[[b0 b1] b2] b3].
  cbn [bindE liftE bind uniform int get_correction retE interp type text correction].
  destruct corr as [c|]; cbn [of_option interp fst]; [|reflexivity].
  destruct (Py.int (Py.of_int alpha * 0.9)%float) as [corr_alpha|];
    cbn [of_option interp fst]; reflexivity.
Qed.

Lemma misspelled_segment_is_struck_and_corrected_witness :
  type (mkSegment "hleo" error (Some "helo"%string)) = error /\
  Runs (render_segment box_metrics (engine 0) 100 1 80
          (mkSegment "hleo" error (Some "helo"%string)))
       [DFloat 0.5; DFloat 0.5; DFloat 0.5; DFloat 0.5; DFloat 0.5]
       (Ok ([draw_text (80, 100)%float "hleo"
               (truetype "fonts/Caveat-Regular.ttf" 18) (26, 26, 46, 223);
             draw_line [(80, 110); (120, 110)]%float (26, 26, 46, 150) 1;
             draw_text (80, 80)%float "helo"
               (truetype "fonts/Caveat-Regular.ttf" 13) (26, 26, 46, 200)],
            126%float)) /\
  exists r1 r2 r3 r4 r5 alpha corr corr_alpha,
    [DFloat 0.5; DFloat 0.5; DFloat 0.5; DFloat 0.5; DFloat 0.5]
      = [DFloat r1; DFloat r2; DFloat r3; DFloat r4; DFloat r5] /\
    Py.int (255 * uniform_at 0.75 1.0 r3)%float = Some alpha /\
    Some "helo"%string = Some corr /\
    Py.int (Py.of_int alpha * 0.9)%float = Some corr_alpha.
Proof.
  assert (Runs (render_segment box_metrics (engine 0) 100 1 80
                  (mkSegment "hleo" error (Some "helo"%string)))
               [DFloat 0.5; DFloat 0.5; DFloat 0.5; DFloat 0.5; DFloat 0.5]
               (Ok ([draw_text (80, 100)%float "hleo"
                       (truetype "fonts/Caveat-Regular.ttf" 18) (26, 26, 46, 223);
                     draw_line [(80, 110); (120, 110)]%float (26, 26, 46, 150) 1;
                     draw_text (80, 80)%float "helo"
                       (truetype "fonts/Caveat-Regular.ttf" 13) (26, 26, 46, 200)],
                    126%float))) as Hrun.
  { unfold render_segment.
    cbn [bindE liftE bind uniform int get_correction retE type].
    do 3 (constructor; [reflexivity | reflexivity |]).
    replace (Py.int (255 * uniform_at 0.75 1 0.5)%float) with (Some 223)
      by (vm_compute; reflexivity).
    cbn [of_option box_metrics bindE liftE bind uniform retE].
    constructor; [reflexivity | reflexivity |].
    cbn [correction of_option].
    replace (Py.int (Py.of_int 223 * 0.9)%float) with (Some 200)
      by (vm_compute; reflexivity).
    cbn [of_option].
    constructor; [reflexivity | reflexivity |].
    unfold retE.
    match goal with
    | |- Runs (Ret ?a) [] ?b => replace a with b by (vm_compute; reflexivity)
    end.
    constructor. }
  split; [reflexivity|]. split; [exact Hrun|].
  destruct (misspelled_segment_is_struck_and_corrected box_metrics (engine 0)
              100 1 80 (mkSegment "hleo" error (Some "helo"%string)) _ _ _
              eq_refl Hrun)
    as (r1 & r2 & r3 & r4 & r5 & alpha & corr & corr_alpha & Hd & Ha & Hc & Hca & _).
  exists r1, r2, r3, r4, r5, alpha, corr, corr_alpha. auto.
Defined.


(** ** The ruled paper *)

Import PaperRenderer.

Lemma proper_rule_points xs y : proper (rule_points xs y).
Proof.
  induction xs as [|x xs IH]; cbn [rule_points]; [constructor|].
  rewrite bind_unfold. apply proper_bind; [repeat constructor|].
  intros j. rewrite bind_unfold. apply proper_bind; [assumption|].
  intros pts. constructor.
Qed.

Lemma proper_rule_lines fuel w h spacing y : proper (rule_lines fuel w h spacing y).
Proof.
  revert y. induction fuel as [|fuel IH]; intros y; cbn [rule_lines]; [constructor|].
  destruct (y <? h - 20); [|constructor].
  rewrite bind_unfold. apply proper_bind; [apply proper_rule_points|].
  intros pts. rewrite bind_unfold. apply proper_bind; [apply IH|].
  intros rest. constructor.
Qed.

Lemma proper_draw_lined fuel w h config : proper (_draw_lined fuel w h config).
Proof.
  unfold _draw_lined. destruct (Py.int _); [|constructor].
  rewrite bind_unfold. apply proper_bind; [apply proper_rule_lines|].
  intros rules. constructor.
Qed.

Lemma rule_points_length xs y draws pts :
  Runs (rule_points xs y) draws pts -> length pts = length xs.
Proof.
  revert draws pts.
  induction xs as [|x xs IH]; intros draws pts H; cbn [rule_points] in H.
  - inversion H; subst. reflexivity.
  - rewrite bind_unfold in H.
    apply Runs_bind_inv in H as (d1 & d2 & j & -> & _ & H).
    rewrite bind_unfold in H.
    apply Runs_bind_inv in H as (d3 & d4 & pts' & -> & Hpts & H).
    inversion H; subst. simpl. f_equal. eapply IH; eassumption.
Qed.

Lemma range_length a b step :
  length (Py.range a b step) = Z.to_nat ((b - a + step - 1) / step).
Proof. unfold Py.range. rewrite length_map, length_seq. reflexivity. Qed.

Lemma turns_step h spacing y :
  0 < spacing -> y < h - 20 ->
  turns h spacing y = 1 + turns h spacing (y + spacing).
Proof.
  intros Hs Hy. unfold turns.
  replace (h - 20 - y + spacing - 1) with (h - 21 - y + 1 * spacing) by lia.
  rewrite Z.div_add by lia.
  replace (h - 20 - (y + spacing) + spacing - 1) with (h - 21 - y) by lia.
  assert (0 <= (h - 21 - y) / spacing) by (apply Z.div_pos; lia). lia.
Qed.

Lemma turns_end h spacing y :
  0 < spacing -> h - 20 <= y -> turns h spacing y = 0.
Proof.
  intros Hs Hy. unfold turns.
  assert ((h - 20 - y + spacing - 1) / spacing <= 0); [|lia].
  assert ((h - 20 - y + spacing - 1) / spacing < 1); [|lia].
  apply Z.div_lt_upper_bound; lia.
Qed.

(** With fuel beyond the number of turns the loop ends, and on a page more
    than 15 pixels wide every turn draws one rule line. *)
Lemma rule_lines_count w h spacing fuel y draws r :
  0 < spacing -> 15 < w ->
  (Z.to_nat (turns h spacing y) < fuel)%nat ->
  Runs (rule_lines fuel w h spacing y) draws r ->
  exists ops, r = Some ops /\ rule_count ops = turns h spacing y.
Proof.
  intros Hs Hw. revert y draws r.
  induction fuel as [|fuel IH]; intros y draws r Hfuel H; [lia|].
  cbn [rule_lines] in H. destruct (Z.ltb_spec y (h - 20)) as [Hy|Hy].
  - rewrite bind_unfold in H.
    apply Runs_bind_inv in H as (d1 & d2 & pts & -> & Hpts & H).
    rewrite bind_unfold in H.
    apply Runs_bind_inv in H as (d3 & d4 & rest & -> & Hrest & H).
    inversion H; subst; clear H.
    rewrite (turns_step h spacing y) in * by assumption.
    assert (0 <= turns h spacing (y + spacing)) by (unfold turns; lia).
    apply IH in Hrest as (ops & -> & Hops); [|lia].
    apply rule_points_length in Hpts. rewrite range_length in Hpts.
    assert (2 <= (w - 0 + 15 - 1) / 15) by (apply Z.div_le_lower_bound; lia).
    destruct (Z.ltb_spec 1 (Z.of_nat (length pts))) as [_|Hlen]; [|lia].
    eexists. split; [reflexivity|].
    unfold rule_count in *. simpl. lia.
  - inversion H; subst. exists []. split; [reflexivity|].
    rewrite turns_end by assumption. reflexivity.
Qed.

(** C8, as the specification states it, fails on degenerate pages. On a
    page 10 pixels high with spacing 28 no rule line is drawn while
    floor((10 - 60) / 28) is -2; on a page 10 pixels wide and 1000 high
    every rule would have a single point and none is drawn, while
    floor((1000 - 60) / 28) is 33. *)
Lemma degenerate_pages_have_no_rule_lines :
  fst (interp (_draw_lined 50 800 10 default_config) (constant_source 0.5 0) 0)
    = Some (Ok [draw_line [(96, 0); (96, 10)]%float margin_color 2]) /\
  rule_count [draw_line [(96, 0); (96, 10)]%float margin_color 2] = 0 /\
  (10 - 60) / 28 = -2 /\
  Z.abs (rule_count [draw_line [(96, 0); (96, 10)]%float margin_color 2]
         - (10 - 60) / 28) = 2 /\
  fst (interp (_draw_lined 50 10 1000 default_config) (constant_source 0.5 0) 0)
    = Some (Ok [draw_line [(1, 0); (1, 1000)]%float margin_color 2]) /\
  rule_count [draw_line [(1, 0); (1, 1000)]%float margin_color 2] = 0 /\
  (1000 - 60) / 28 = 33.
Proof. repeat split; vm_compute; reflexivity. Qed.

(** C8, amended. For lined paper with rule spacing S >= 1, pixel width
    above 15 and pixel height H, the rule loop ends and exactly
    max(0, floor((H - 61) / S)) horizontal rule lines are drawn; for
    H >= 60 - S that number is floor((H - 60) / S) within 1. *)
Theorem lined_paper_rule_count
    (config : ProcessConfig) (w h margin_x : Z) (fuel : nat)
    (src : Source) (i : nat) :
  0 < Schemas.line_spacing config ->
  15 < w ->
  Py.int (Py.of_int w * 0.12)%float = Some margin_x ->
  (Z.to_nat h < fuel)%nat ->
  exists ops,
    fst (interp (_draw_lined fuel w h config) src i) = Some (Ok ops) /\
    rule_count ops = Z.max 0 ((h - 61) / Schemas.line_spacing config) /\
    (60 - Schemas.line_spacing config <= h ->
     Z.abs (rule_count ops - (h - 60) / Schemas.line_spacing config) <= 1).
Proof.
  intros Hs Hw Hm Hfuel.
  pose proof (interp_Runs (_draw_lined fuel w h config) src i
                (proper_draw_lined _ _ _ _)) as H.
  destruct (interp (_draw_lined fuel w h config) src i) as [r draws].
  simpl in *. unfold _draw_lined in H. rewrite Hm in H.
  rewrite bind_unfold in H.
  apply Runs_bind_inv in H as (d1 & d2 & rules & -> & Hrules & H).
  inversion H; subst; clear H.
  set (S := Schemas.line_spacing config) in *.
  assert (turns h S (S + 40) = Z.max 0 ((h - 61) / S)) as Hturns.
  { unfold turns. f_equal. f_equal. lia. }
  assert ((h - 61) / S <= h - 61 \/ (h - 61) / S <= 0) as Hle.
  { destruct (Z.le_gt_cases 0 (h - 61)).
    - left. apply Z.div_le_upper_bound; nia.
    - right. assert ((h - 61) / S < 0); [|lia]. apply Z.div_lt_upper_bound; lia. }
  apply rule_lines_count in Hrules as (ops & -> & Hcount); try assumption; [|lia].
  eexists. split; [reflexivity|].
  assert (rule_count (draw_line [(Py.of_int margin_x, Py.of_int 0);
                                 (Py.of_int margin_x, Py.of_int h)]
                                margin_color 2 :: ops) = rule_count ops) as ->
    by reflexivity.
  rewrite Hcount, Hturns. split; [reflexivity|].
  intros Hh.
  assert ((h - 60) / S - 1 <= (h - 61) / S <= (h - 60) / S) as [Hlo Hhi].
  { split.
    - replace ((h - 60) / S - 1) with ((h - 60 + (-1) * S) / S)
        by (rewrite Z.div_add by lia; lia).
      apply Z.div_le_mono; lia.
    - apply Z.div_le_mono; lia. }
  assert (-1 <= (h - 60) / S) by (apply Z.div_le_lower_bound; lia).
  lia.
Qed.

Lemma lined_paper_rule_count_witness :
  0 < Schemas.line_spacing default_config /\
  15 < 1240 /\
  Py.int (Py.of_int 1240 * 0.12)%float = Some 148 /\
  (Z.to_nat 1754 < 1800)%nat /\
  exists ops,
    fst (interp (_draw_lined 1800 1240 1754 default_config)
                (constant_source 0.5 0) 0) = Some (Ok ops) /\
    rule_count ops = Z.max 0 ((1754 - 61) / Schemas.line_spacing default_config) /\
    (60 - Schemas.line_spacing default_config <= 1754 ->
     Z.abs (rule_count ops - (1754 - 60) / Schemas.line_spacing default_config) <= 1).
Proof.
  split; [reflexivity|]. split; [reflexivity|].
  split; [vm_compute; reflexivity|]. split; [lia|].
  apply (lined_paper_rule_count default_config 1240 1754 148 1800
           (constant_source 0.5 0) 0);
    [reflexivity | reflexivity | vm_compute; reflexivity | lia].
Defined.


(** ** The layer compositor *)

Import LayoutComposer.

Ltac rsimpl := cbn [mbind Result_bind rbind mret Result_ret] in *.

Lemma convert_mode im m : mode (PIL.convert im m) = m.
Proof. unfold PIL.convert. destruct m, (mode im) eqn:E; simpl; congruence. Qed.

Lemma convert_size im m : size (PIL.convert im m) = size im.
Proof. unfold PIL.convert. destruct m, (mode im); reflexivity. Qed.

Lemma convert_rgb_pixel im x y :
  mode im = RGBA ->
  getpixel (PIL.convert im RGB) x y = opaque (getpixel im x y).
Proof. intros Hm. unfold PIL.convert. rewrite Hm. reflexivity. Qed.

Lemma resize_ok lanczos im sz r :
  resize lanczos im sz = Ok r -> size r = sz /\ mode r = mode im.
Proof.
  unfold resize. destruct (decide (size im = sz)) as [<-|_].
  - intros [= <-]. split; reflexivity.
  - destruct ((fst sz <? 1) || (snd sz <? 1)); [discriminate|].
    intros [= <-]. destruct sz. split; reflexivity.
Qed.

Lemma resize_succeeds lanczos im w h :
  size im = (w, h) \/ (1 <= w /\ 1 <= h) ->
  exists r, resize lanczos im (w, h) = Ok r.
Proof.
  intros Hsz. unfold resize. destruct (decide (size im = (w, h))); [eauto|].
  destruct Hsz as [|[Hw Hh]]; [contradiction|]. simpl.
  destruct (Z.ltb_spec w 1); [lia|]. destruct (Z.ltb_spec h 1); [lia|].
  simpl. eauto.
Qed.

Lemma alpha_composite_ok im1 im2 r :
  alpha_composite im1 im2 = Ok r -> size r = size im1 /\ mode r = RGBA.
Proof.
  unfold alpha_composite. destruct (decide _); [|discriminate].
  intros [= <-]. split; reflexivity.
Qed.

Lemma paste_size im src box mask : size (paste im src box mask) = size im.
Proof. unfold paste. destruct box. reflexivity. Qed.

Lemma paste_mode im src box mask : mode (paste im src box mask) = mode im.
Proof. unfold paste. destruct box. reflexivity. Qed.

Lemma ensure_rgba_mode im : mode (ensure_rgba im) = RGBA.
Proof.
  unfold ensure_rgba. destruct (decide _); [assumption | apply convert_mode].
Qed.

Lemma ensure_rgba_size im : size (ensure_rgba im) = size im.
Proof. unfold ensure_rgba. destruct (decide _); [reflexivity | apply convert_size]. Qed.

Lemma with_text_ok lanczos paper text_layer page :
  with_text lanczos paper text_layer = Ok page ->
  size page = size paper /\ mode page = RGBA.
Proof.
  unfold with_text. destruct text_layer as [t|].
  - destruct (decide _); rsimpl.
    + intros H. apply alpha_composite_ok in H as [Hs Hm].
      rewrite Hs, convert_size. auto.
    + destruct (resize lanczos t _); rsimpl; [|discriminate].
      intros H. apply alpha_composite_ok in H as [Hs Hm].
      rewrite Hs, convert_size. auto.
  - intros H. assert (page = PIL.convert paper RGBA) as -> by congruence.
    rewrite convert_size, convert_mode. auto.
Qed.

(** A turn of the diagram loop that does not raise is a skip, or a paste
    of the resized raster at its target position. *)
Lemma paste_diagram_inv lanczos open_bytes scale page diagram page' :
  paste_diagram lanczos open_bytes scale page diagram = Ok page' ->
  (usable open_bytes diagram = Ok None /\ page' = page) \/
  (exists im x y w h r,
      usable open_bytes diagram = Ok (Some im) /\
      target diagram im scale = Ok (x, y, w, h) /\
      resize lanczos im (w, h) = Ok r /\
      page' = paste page (ensure_rgba r) (x, y) (ensure_rgba r)).
Proof.
  unfold paste_diagram. destruct (usable open_bytes diagram) as [[im|]|]; rsimpl.
  - destruct (target diagram im scale) as [[[[x y] w] h]|] eqn:Ht; rsimpl;
      [|discriminate].
    destruct (resize lanczos im (w, h)) as [r|] eqn:Hr; rsimpl; [|discriminate].
    intros [= <-]. right. exists im, x, y, w, h, r. auto.
  - intros [= <-]. auto.
  - discriminate.
Qed.

Lemma paste_diagram_ok lanczos open_bytes scale page diagram page' :
  paste_diagram lanczos open_bytes scale page diagram = Ok page' ->
  size page' = size page /\ mode page' = mode page.
Proof.
  intros H. apply paste_diagram_inv in H
    as [[_ ->]|(im & x & y & w & h & r & _ & _ & _ & ->)].
  - auto.
  - rewrite paste_size, paste_mode. auto.
Qed.

Lemma paste_diagrams_ok lanczos open_bytes scale diagrams page page' :
  paste_diagrams lanczos open_bytes scale page diagrams = Ok page' ->
  size page' = size page /\ mode page' = mode page.
Proof.
  revert page. induction diagrams as [|d ds IH]; intros page; cbn [paste_diagrams].
  - intros [= <-]. auto.
  - destruct (paste_diagram lanczos open_bytes scale page d) as [p|] eqn:Hd;
      rsimpl; [|discriminate].
    intros H. apply IH in H as [Hs Hm]. apply paste_diagram_ok in Hd as [Hs' Hm'].
    split; congruence.
Qed.

Lemma paste_diagrams_snoc lanczos open_bytes scale diagrams d page :
  paste_diagrams lanczos open_bytes scale page (diagrams ++ [d]) =
    match paste_diagrams lanczos open_bytes scale page diagrams with
    | Ok page' => paste_diagram lanczos open_bytes scale page' d
    | Raise e => Raise e
    end.
Proof.
  revert page.
  induction diagrams as [|d' ds IH]; intros page; cbn [paste_diagrams app].
  - destruct (paste_diagram lanczos open_bytes scale page d); reflexivity.
  - destruct (paste_diagram lanczos open_bytes scale page d'); rsimpl;
      [apply IH | reflexivity].
Qed.

Lemma compose_page_ok lanczos open_bytes paper text_layer diagrams scale out :
  compose_page lanczos open_bytes paper text_layer diagrams scale = Ok out ->
  size out = size paper /\ mode out = RGB.
Proof.
  unfold compose_page.
  destruct (with_text lanczos paper text_layer) as [page|] eqn:Ht; rsimpl;
    [|discriminate].
  destruct (paste_diagrams lanczos open_bytes scale page diagrams) as [page'|] eqn:Hd;
    rsimpl; [|discriminate].
  intros H. assert (out = PIL.convert page' RGB) as -> by congruence.
  apply with_text_ok in Ht as [Hs _].
  apply paste_diagrams_ok in Hd as [Hs' _].
  rewrite convert_size, convert_mode. split; congruence.
Qed.

Lemma with_text_succeeds lanczos paper text_layer :
  text_layer_ok paper text_layer = true ->
  exists page, with_text lanczos paper text_layer = Ok page.
Proof.
  unfold text_layer_ok, with_text. destruct text_layer as [t|]; [|eauto].
  intros H. apply andb_true_iff in H as [Hm Hs]. apply bool_decide_eq_true in Hm.
  rewrite convert_size.
  assert (forall t', mode t' = RGBA -> size t' = size paper ->
                     exists page, alpha_composite (PIL.convert paper RGBA) t' = Ok page)
    as Hcomp.
  { intros t' Hm' Hs'. unfold alpha_composite.
    destruct (decide _) as [|Hn]; [eauto|]. exfalso. apply Hn.
    rewrite convert_mode, convert_size. auto. }
  destruct (decide (size t = size paper)) as [He|Hne]; rsimpl.
  - apply Hcomp; assumption.
  - apply orb_true_iff in Hs as [Hs|Hs].
    + apply bool_decide_eq_true in Hs. contradiction.
    + apply andb_true_iff in Hs as [Hw Hh]. apply Z.leb_le in Hw, Hh.
      destruct (resize_succeeds lanczos t (PIL.width paper) (PIL.height paper))
        as [r Hr]; [right; auto|].
      change (size paper) with (PIL.width paper, PIL.height paper) at 1.
      rewrite Hr. rsimpl.
      apply resize_ok in Hr as [Hrs Hrm]. apply Hcomp; [congruence | exact Hrs].
Qed.

Lemma paste_diagram_succeeds lanczos open_bytes scale page diagram :
  pasteable open_bytes scale diagram = true ->
  exists page', paste_diagram lanczos open_bytes scale page diagram = Ok page'.
Proof.
  unfold pasteable, paste_diagram.
  destruct (usable open_bytes diagram) as [[im|]|]; rsimpl; [|eauto|discriminate].
  destruct (target diagram im scale) as [[[[x y] w] h]|]; rsimpl; [|discriminate].
  intros H.
  destruct (resize_succeeds lanczos im w h) as [r ->]; [|rsimpl; eauto].
  apply orb_true_iff in H as [H|H].
  - left. apply bool_decide_eq_true in H. assumption.
  - right. apply andb_true_iff in H as [Hw Hh]. apply Z.leb_le in Hw, Hh. auto.
Qed.

Lemma paste_diagrams_succeeds lanczos open_bytes scale diagrams page :
  forallb (pasteable open_bytes scale) diagrams = true ->
  exists page', paste_diagrams lanczos open_bytes scale page diagrams = Ok page'.
Proof.
  revert page.
  induction diagrams as [|d ds IH]; intros page; cbn [paste_diagrams forallb];
    [eauto|].
  intros H. apply andb_true_iff in H as [Hd Hds].
  destruct (paste_diagram_succeeds lanczos open_bytes scale page d Hd) as [p ->].
  rsimpl. apply IH. assumption.
Qed.


Lemma DIV255_exact b : is_byte b -> DIV255 (255 * b) = b.
Proof.
  unfold is_byte, DIV255, SHIFTFORDIV255. intros Hb.
  rewrite !Z.shiftr_div_pow2 by lia. change (2 ^ 8) with 256.
  pose proof (Z.div_mod (255 * b + 128) 256 ltac:(lia)) as H1.
  pose proof (Z.mod_pos_bound (255 * b + 128) 256 ltac:(lia)) as H2.
  set (q1 := (255 * b + 128) / 256) in *.
  symmetry. apply (Z.div_unique _ _ _ (q1 - b + 128)); lia.
Qed.

Lemma blend_opaque a b : is_byte b -> blend 255 a b = b.
Proof.
  intros Hb. unfold blend.
  replace (a * (255 - 255) + b * 255) with (255 * b) by lia.
  apply DIV255_exact. assumption.
Qed.

Lemma blend_transparent a b : is_byte a -> blend 0 a b = a.
Proof.
  intros Ha. unfold blend.
  replace (a * (255 - 0) + b * 0) with (255 * a) by lia.
  apply DIV255_exact. assumption.
Qed.

Lemma inside_size im1 im2 x y : size im1 = size im2 -> inside im1 x y = inside im2 x y.
Proof. unfold size, inside. intros [= -> ->]. reflexivity. Qed.

Lemma opaque_blend m p s : opaque (blend_pixel m (opaque p) s) = opaque (blend_pixel m p s).
Proof. destruct p as [[[r g] b] a], s as [[[sr sg] sb] sa]. reflexivity. Qed.

(** C6, as the specification states it, fails on a half-transparent
    diagram pixel: a black pixel of alpha 128 pasted on white paper leaves
    the grey (127, 127, 127), a mix of diagram and paper, not the diagram's
    black. *)
Lemma half_transparent_pixel_is_mixed :
  pixel_at (compose_page nearest no_bytes (white_paper 1 1) (Some (blank_text 1 1))
              [diagram_at (PIL.new RGBA (1, 1) (0, 0, 0, 128)) 0 0 1 1] 1) 0 0
    = Some (127, 127, 127, 255) /\
  exists out,
    compose_page nearest no_bytes (white_paper 1 1) (Some (blank_text 1 1))
      [diagram_at (PIL.new RGBA (1, 1) (0, 0, 0, 128)) 0 0 1 1] 1 = Ok out /\
    ~ overwritten_within_mask out (PIL.new RGBA (1, 1) (0, 0, 0, 128)) 0 0.
Proof.
  assert (pixel_at (compose_page nearest no_bytes (white_paper 1 1)
                      (Some (blank_text 1 1))
                      [diagram_at (PIL.new RGBA (1, 1) (0, 0, 0, 128)) 0 0 1 1] 1) 0 0
          = Some (127, 127, 127, 255)) as Hpix by (vm_compute; reflexivity).
  split; [exact Hpix|].
  destruct (compose_page _ _ _ _ _ _) as [out|] eqn:E; [|discriminate].
  exists out. split; [reflexivity|]. intros H.
  apply compose_page_ok in E as [Hs _].
  specialize (H 0 0). simpl in Hpix. injection Hpix as Hpix.
  rewrite Hpix in H. 
  rewrite (inside_size out (white_paper 1 1)) in H by exact Hs.
  specialize (H eq_refl eq_refl). simpl in H.
  assert ((127, 127, 127) = (0, 0, 0)) as Habs by (apply H; discriminate).
  discriminate.
Qed.

(** C6, amended. For every composed page and the diagram pasted last, the
    page differs from the page composed without that diagram only inside
    the diagram's target rectangle, as far as it falls on the page; there
    every pixel is the mix of the page below and the resized diagram
    raster, weighted by the raster's alpha: the diagram's own pixel where
    its alpha is 255 (hard overwrite), the page below where it is 0, a
    blend in between. The composed page is an opaque RGB raster of the
    paper's size. *)
Theorem diagram_paste_mixes_by_alpha
    (lanczos : Resampler) (open_bytes : string -> option Image)
    (paper : Image) (text_layer : option Image)
    (diagrams : list Diagram) (d : Diagram) (im : Image)
    (scale : float) (out : Image) :
  converted_image d = Some (as_image im) ->
  compose_page lanczos open_bytes paper text_layer (diagrams ++ [d]) scale = Ok out ->
  exists before x y w h r,
    compose_page lanczos open_bytes paper text_layer diagrams scale = Ok before /\
    target d im scale = Ok (x, y, w, h) /\
    resize lanczos im (w, h) = Ok r /\
    mode out = RGB /\ size out = size paper /\
    forall px py,
      let src := getpixel (ensure_rgba r) (px - x) (py - y) in
      if inside before px py && inside r (px - x) (py - y) then
        getpixel out px py
          = opaque (blend_pixel (alpha_of src) (getpixel before px py) src) /\
        (alpha_of src = 255 -> byte_pixel src -> getpixel out px py = opaque src) /\
        (alpha_of src = 0 -> byte_pixel (getpixel before px py) ->
         getpixel out px py = getpixel before px py)
      else getpixel out px py = getpixel before px py.
Proof.
  intros Hconv Hout. pose proof (compose_page_ok _ _ _ _ _ _ _ Hout) as [Hsize Hmode].
  unfold compose_page in *.
  destruct (with_text lanczos paper text_layer) as [page0|] eqn:Ht; rsimpl;
    [|discriminate].
  rewrite paste_diagrams_snoc in Hout.
  destruct (paste_diagrams lanczos open_bytes scale page0 diagrams) as [page1|] eqn:Hds;
    rsimpl; [|discriminate].
  destruct (paste_diagram lanczos open_bytes scale page1 d) as [page2|] eqn:Hd;
    rsimpl; [|discriminate].
  assert (out = PIL.convert page2 RGB) as -> by congruence. clear Hout.
  apply with_text_ok in Ht as [Hs0 Hm0].
  apply paste_diagrams_ok in Hds as [Hs1 Hm1].
  assert (mode page1 = RGBA) as Hrgba by congruence.
  apply paste_diagram_inv in Hd as [[Hu _]|(im' & x & y & w & h & r & Hu & Htg & Hr & ->)];
    unfold usable in Hu; rewrite Hconv in Hu; [discriminate|].
  assert (im' = im) as -> by congruence.
  exists (PIL.convert page1 RGB), x, y, w, h, r.
  repeat split; try assumption.
  intros px py.
  rewrite (inside_size (PIL.convert page1 RGB) page1) by apply convert_size.
  rewrite !convert_rgb_pixel by (rewrite ?paste_mode; assumption).
  unfold paste. cbn [getpixel].
  rewrite (inside_size (ensure_rgba r) r) by apply ensure_rgba_size.
  set (src := getpixel (ensure_rgba r) (px - x) (py - y)).
  destruct (inside page1 px py && inside r (px - x) (py - y)); [|reflexivity].
  rewrite opaque_blend. split; [reflexivity|]. split.
  - intros Ha Hb. rewrite Ha.
    destruct (getpixel page1 px py) as [[[r0 g0] b0] a0].
    destruct src as [[[sr sg] sb] sa]. destruct Hb as (Hr' & Hg' & Hb').
    cbn [blend_pixel opaque]. rewrite !blend_opaque by assumption. reflexivity.
  - intros Ha Hb. rewrite Ha.
    destruct (getpixel page1 px py) as [[[r0 g0] b0] a0].
    destruct src as [[[sr sg] sb] sa]. destruct Hb as (Hr' & Hg' & Hb').
    cbn [blend_pixel opaque]. rewrite !blend_transparent by assumption. reflexivity.
Qed.

Lemma compose_page_succeeds lanczos open_bytes paper text_layer diagrams scale :
  text_layer_ok paper text_layer = true ->
  forallb (pasteable open_bytes scale) diagrams = true ->
  exists out,
    compose_page lanczos open_bytes paper text_layer diagrams scale = Ok out.
Proof.
  intros Ht Hd.
  destruct (with_text_succeeds lanczos paper text_layer Ht) as [page Hpage].
  destruct (paste_diagrams_succeeds lanczos open_bytes scale diagrams page Hd)
    as [page' Hpage'].
  exists (PIL.convert page' RGB).
  unfold compose_page. rewrite Hpage. rsimpl. rewrite Hpage'. reflexivity.
Qed.

(** C10, as stated for every diagram list, fails on a diagram whose
    target rectangle is less than one pixel wide: the width 0.2 scales to
    0 and the resize raises instead of returning a page. *)
Lemma flat_diagram_raises :
  target (diagram_at (PIL.new RGBA (2, 2) (0, 0, 0, 255)) 1 1 0.2 2)
         (PIL.new RGBA (2, 2) (0, 0, 0, 255)) 1 = Ok (1, 1, 0, 2) /\
  compose_page nearest no_bytes (white_paper 4 4) (Some (blank_text 4 4))
    [diagram_at (PIL.new RGBA (2, 2) (0, 0, 0, 255)) 1 1 0.2 2] 1
    = Raise (ValueError "height and width must be > 0").
Proof. split; vm_compute; reflexivity. Qed.

Lemma resize_raises lanczos im w h :
  size im <> (w, h) -> w < 1 \/ h < 1 ->
  resize lanczos im (w, h) = Raise (ValueError "height and width must be > 0").
Proof.
  intros Hne Hflat. unfold resize. destruct (decide (size im = (w, h))); [contradiction|].
  cbn [fst snd].
  destruct (Z.ltb_spec w 1) as [_|Hw]; [reflexivity|].
  destruct (Z.ltb_spec h 1) as [_|Hh]; [reflexivity|]. lia.
Qed.

Lemma paste_diagram_flat_raises lanczos open_bytes scale page diagram :
  flat open_bytes scale diagram = true ->
  paste_diagram lanczos open_bytes scale page diagram
    = Raise (ValueError "height and width must be > 0").
Proof.
  unfold flat, paste_diagram.
  destruct (usable open_bytes diagram) as [[im|]|]; rsimpl; try discriminate.
  destruct (target diagram im scale) as [[[[x y] w] h]|]; rsimpl; [|discriminate].
  intros H. apply andb_true_iff in H as [Hne Hflat].
  apply negb_true_iff, bool_decide_eq_false in Hne.
  rewrite (resize_raises lanczos im w h Hne); [reflexivity|].
  apply orb_true_iff in Hflat as [Hw|Hh]; [left|right]; apply Z.ltb_lt; assumption.
Qed.

Lemma paste_diagrams_flat_raises lanczos open_bytes scale diagrams page :
  existsb (flat open_bytes scale) diagrams = true ->
  exists e, paste_diagrams lanczos open_bytes scale page diagrams = Raise e.
Proof.
  revert page.
  induction diagrams as [|d ds IH]; intros page; cbn [paste_diagrams existsb];
    [discriminate|].
  intros H. apply orb_true_iff in H as [Hd|Hds].
  - rewrite (paste_diagram_flat_raises lanczos open_bytes scale page d Hd). rsimpl. eauto.
  - destruct (paste_diagram lanczos open_bytes scale page d) as [page'|e]; rsimpl;
      [apply IH; exact Hds | eauto].
Qed.

Lemma compose_page_flat_raises lanczos open_bytes paper text_layer diagrams scale :
  existsb (flat open_bytes scale) diagrams = true ->
  exists e, compose_page lanczos open_bytes paper text_layer diagrams scale = Raise e.
Proof.
  intros H. unfold compose_page.
  destruct (with_text lanczos paper text_layer) as [page|e]; rsimpl; [|eauto].
  destruct (paste_diagrams_flat_raises lanczos open_bytes scale diagrams page H)
    as [e ->].
  rsimpl. eauto.
Qed.

(** C10, amended. For every paper raster, every RGBA text layer that has
    the paper's size or can be resized to it, and every diagram list whose
    usable diagrams have a raster that opens and a target rectangle of at
    least one pixel each way or of the raster's own size (wherever it
    lies: larger than the page or partly outside it), [compose_page]
    returns an image of the paper's pixel dimensions in mode RGB; and
    whenever [compose_page] returns at all, what it returns has the
    paper's pixel dimensions and mode RGB. When the list holds a diagram
    that the loop pastes and whose target rectangle scales to less than
    one pixel in width or height without being the raster's own size,
    [compose_page] raises and returns no page. *)
Theorem compose_page_keeps_paper_size
    (lanczos : Resampler) (open_bytes : string -> option Image)
    (paper : Image) (text_layer : option Image)
    (diagrams : list Diagram) (scale : float) :
  (text_layer_ok paper text_layer = true ->
   forallb (pasteable open_bytes scale) diagrams = true ->
   exists out,
     compose_page lanczos open_bytes paper text_layer diagrams scale = Ok out /\
     size out = size paper /\ mode out = RGB) /\
  (forall out,
     compose_page lanczos open_bytes paper text_layer diagrams scale = Ok out ->
     size out = size paper /\ mode out = RGB) /\
  (existsb (flat open_bytes scale) diagrams = true ->
   exists e,
     compose_page lanczos open_bytes paper text_layer diagrams scale = Raise e).
Proof.
  split; [|split].
  - intros Ht Hd.
    destruct (compose_page_succeeds lanczos open_bytes paper text_layer diagrams
                scale Ht Hd) as [out Hout].
    exists out. split; [exact Hout|]. eapply compose_page_ok. exact Hout.
  - intros out Hout. eapply compose_page_ok. exact Hout.
  - apply compose_page_flat_raises.
Qed.

Lemma compose_page_keeps_paper_size_witness :
  (text_layer_ok (white_paper 4 4) (Some (blank_text 4 4)) = true /\
   forallb (pasteable no_bytes 1) [overhanging_diagram] = true /\
   exists out,
     compose_page nearest no_bytes (white_paper 4 4) (Some (blank_text 4 4))
       [overhanging_diagram] 1 = Ok out /\
     size out = size (white_paper 4 4) /\ mode out = RGB) /\
  (existsb (flat no_bytes 1)
     [overhanging_diagram; diagram_at (PIL.new RGBA (2, 2) (0, 0, 0, 255)) 1 1 0.2 2]
     = true /\
   exists e,
     compose_page nearest no_bytes (white_paper 4 4) (Some (blank_text 4 4))
       [overhanging_diagram; diagram_at (PIL.new RGBA (2, 2) (0, 0, 0, 255)) 1 1 0.2 2] 1
     = Raise e).
Proof.
  split.
  - split; [vm_compute; reflexivity|]. split; [vm_compute; reflexivity|].
    apply (proj1 (compose_page_keeps_paper_size nearest no_bytes (white_paper 4 4)
                    (Some (blank_text 4 4)) [overhanging_diagram] 1));
      vm_compute; reflexivity.
  - split; [vm_compute; reflexivity|].
    apply (proj2 (proj2 (compose_page_keeps_paper_size nearest no_bytes
                           (white_paper 4 4) (Some (blank_text 4 4))
                           [overhanging_diagram;
                            diagram_at (PIL.new RGBA (2, 2) (0, 0, 0, 255)) 1 1 0.2 2]
                           1))).
    vm_compute. reflexivity.
Defined.

Lemma overhanging_page_composed :
  compose_page nearest no_bytes (white_paper 4 4) (Some (blank_text 4 4))
    ([] ++ [overhanging_diagram]) 1 = Ok overhanging_page.
Proof.
  unfold overhanging_page.
  destruct (compose_page_succeeds nearest no_bytes (white_paper 4 4)
              (Some (blank_text 4 4)) ([] ++ [overhanging_diagram]) 1)
    as (out & ->); [vm_compute; reflexivity | vm_compute; reflexivity |].
  reflexivity.
Qed.

Lemma diagram_paste_mixes_by_alpha_witness :
  converted_image overhanging_diagram
    = Some (as_image (PIL.new RGBA (2, 2) (10, 20, 30, 255))) /\
  compose_page nearest no_bytes (white_paper 4 4) (Some (blank_text 4 4))
    ([] ++ [overhanging_diagram]) 1 = Ok overhanging_page /\
  exists before x y w h r,
    compose_page nearest no_bytes (white_paper 4 4) (Some (blank_text 4 4)) [] 1
      = Ok before /\
    target overhanging_diagram (PIL.new RGBA (2, 2) (10, 20, 30, 255)) 1
      = Ok (x, y, w, h) /\
    resize nearest (PIL.new RGBA (2, 2) (10, 20, 30, 255)) (w, h) = Ok r /\
    mode overhanging_page = RGB /\
    size overhanging_page = size (white_paper 4 4).
Proof.
  split; [reflexivity|]. split; [exact overhanging_page_composed|].
  destruct (diagram_paste_mixes_by_alpha nearest no_bytes (white_paper 4 4)
              (Some (blank_text 4 4)) [] overhanging_diagram
              (PIL.new RGBA (2, 2) (10, 20, 30, 255)) 1 overhanging_page
              eq_refl overhanging_page_composed)
    as (before & x & y & w & h & r & H1 & H2 & H3 & H4 & H5 & _).
  exists before, x, y, w, h, r. auto.
Defined.


(** ** The diagram cache and converter *)

Import DiagramConverter.

Lemma string_length_app (s1 s2 : string) :
  String.length (s1 +:+ s2) = (String.length s1 + String.length s2)%nat.
Proof. induction s1 as [|c s1 IH]; simpl; [reflexivity | rewrite IH; reflexivity]. Qed.

(** Without an index row for the hash the same conversion succeeds and
    appends the row. *)
Lemma fresh_entry_is_added self api world diagram table img events :
  db world = Some table ->
  first_entry table (image_hash diagram) = None ->
  files world !! cached_path self (image_hash diagram) = None ->
  configured self = true ->
  _call_imagen api diagram "generic" = (Some img, events) ->
  exists world',
    _convert_single self api world diagram =
      (Ok (set_converted diagram (Some (as_image img))), world', events) /\
    db world' =
      Some (table ++ [mkDiagramCache (image_hash diagram) "generic"
                        (orig_path self (image_hash diagram))
                        (cached_path self (image_hash diagram))
                        (utcnow world) (utcnow world)]).
Proof.
  intros Hdb Hentry Hfile Hkey Hcall.
  unfold _convert_single. rewrite Hfile.
  unfold db_hit. rewrite Hdb, Hentry, Hkey. cbn [negb].
  unfold _detect_type. rewrite Hcall.
  unfold add_commit. cbn [Models.image_hash]. rewrite Hentry.
  eexists. split; reflexivity.
Qed.

(** C1. When the index has a row for the content hash and the blob the
    row references is gone, a configured converter treats the lookup as a
    miss and has the image stylized again; but when the stylization
    succeeds, [_convert_single] writes the blob and then raises
    IntegrityError out of the conversion stage, because the insert of a
    second row with the same unique hash is refused. The stale row stays
    as it was: the entry is not healed. *)
Theorem stale_index_entry_is_not_healed
    (self : Converter) (api : Service) (world : World) (diagram : Diagram)
    (table : list DiagramCache) (entry : DiagramCache) (img : Image)
    (events : list Event) :
  db world = Some table ->
  first_entry table (image_hash diagram) = Some entry ->
  files world !! converted_path entry = None ->
  files world !! cached_path self (image_hash diagram) = None ->
  configured self = true ->
  _call_imagen api diagram "generic" = (Some img, events) ->
  exists world',
    _convert_single self api world diagram =
      (Raise (IntegrityError "UNIQUE constraint failed: diagram_cache.image_hash"),
       world', events) /\
    db world' = Some table /\
    files world' !! cached_path self (image_hash diagram) = Some img.
Proof.
  intros Hdb Hentry Hblob Hfile Hkey Hcall.
  unfold _convert_single. rewrite Hfile.
  unfold db_hit. rewrite Hdb, Hentry, Hblob, Hkey. cbn [negb].
  unfold _detect_type. rewrite Hcall.
  unfold add_commit. cbn [Models.image_hash]. rewrite Hentry.
  eexists. split; [reflexivity|]. split; [reflexivity|]. cbn [files].
  destruct (image diagram).
  - rewrite lookup_insert_ne, lookup_insert_eq; [reflexivity|].
    unfold orig_path, cached_path. intros H.
    apply (f_equal String.length) in H. rewrite !string_length_app in H.
    simpl in H. lia.
  - apply lookup_insert_eq.
Qed.

Lemma stale_index_entry_is_not_healed_witness :
  db stale_world = Some [stale_row] /\
  first_entry [stale_row] (image_hash region) = Some stale_row /\
  files stale_world !! converted_path stale_row = None /\
  files stale_world !! cached_path converter (image_hash region) = None /\
  configured converter = true /\
  _call_imagen (always (Stylized sketch)) region "generic" = (Some sketch, [Post 0]) /\
  exists world',
    _convert_single converter (always (Stylized sketch)) stale_world region =
      (Raise (IntegrityError "UNIQUE constraint failed: diagram_cache.image_hash"),
       world', [Post 0]) /\
    db world' = Some [stale_row] /\
    files world' !! cached_path converter (image_hash region) = Some sketch.
Proof.
  split; [reflexivity|]. split; [reflexivity|].
  split; [vm_compute; reflexivity|]. split; [vm_compute; reflexivity|].
  split; [reflexivity|]. split; [reflexivity|].
  apply (stale_index_entry_is_not_healed converter (always (Stylized sketch))
           stale_world region [stale_row] stale_row sketch [Post 0]);
    solve [reflexivity | vm_compute; reflexivity].
Defined.

(** The same run seen from the page: [convert_diagrams] raises, and with
    it the page's turn of the orchestrator. *)
Lemma stale_index_entry_fails_the_page :
  fst (fst (convert_diagrams converter (always (Stylized sketch)) stale_world
              [region]))
    = Raise (IntegrityError "UNIQUE constraint failed: diagram_cache.image_hash").
Proof. vm_compute. reflexivity. Qed.







(** * Further properties of the code *)

Import Schemas Models Processor Api Random Str PIL HandwritingEngine PaperRenderer Diagrams LayoutComposer DiagramConverter.
Import Misspelling Loops InkColor Arrays Smudges PaperEffects TextLayer CacheIndex Document PDFProcessor ExportService Writes.

(** ** Misspellings *)

Lemma substring_length (n m : nat) (s : string) :
  (n + m <= String.length s)%nat -> String.length (String.substring n m s) = m.
Proof.
  revert n m. induction s as [|c s IH]; intros n m H; simpl in *.
  - destruct n, m; simpl in *; try lia; reflexivity.
  - destruct n as [|n].
    + destruct m as [|m]; [reflexivity|]. simpl. rewrite IH by lia. reflexivity.
    + apply IH. lia.
Qed.

Lemma len_app (s1 s2 : string) : len (s1 +:+ s2) = len s1 + len s2.
Proof. unfold len. rewrite string_length_app. lia. Qed.

Lemma len_of_char c : len (of_char c) = 1.
Proof. reflexivity. Qed.

Lemma len_slice_to s i : 0 <= i <= len s -> len (slice_to s i) = i.
Proof.
  intros H. unfold slice_to, from_end, len in *.
  destruct (Z.ltb_spec i 0); [lia|].
  rewrite substring_length by lia. lia.
Qed.

Lemma len_slice_from s i : 0 <= i <= len s -> len (slice_from s i) = len s - i.
Proof.
  intros H. unfold slice_from, from_end, len in *.
  destruct (Z.ltb_spec i 0); [lia|].
  rewrite substring_length by lia. lia.
Qed.

Lemma item_some s i : 0 <= i < len s -> exists c, item s i = Some c.
Proof.
  intros H. unfold item, from_end.
  destruct (Z.ltb_spec i 0); [lia|].
  destruct (Z.leb_spec 0 i); [|lia]. destruct (Z.ltb_spec i (len s)); [|lia].
  simpl. destruct (String.get (Z.to_nat i) s) eqn:Hg; [eauto|].
  exfalso. revert Hg. unfold len in H.
  assert (Z.to_nat i < String.length s)%nat as Hlt by lia.
  generalize (Z.to_nat i) Hlt. clear. induction s as [|c s IH]; intros n Hn; simpl in *.
  - lia.
  - destruct n; [discriminate|]. apply IH. lia.
Qed.

Lemma Runs_randint a b draws r :
  Runs (randint a b) draws r ->
  (b < a /\ r = None /\ draws = []) \/
  (exists v, a <= v <= b /\ r = Some v /\ draws = [DBelow (v - a)]).
Proof.
  unfold randint. destruct (Z.leb_spec (b - a + 1) 0) as [Hle|Hgt]; intros H.
  - inversion H; subst. left. repeat split; lia.
  - inversion H as [| | n k v ds r' Hv Hk]; subst. inversion Hk; subst.
    right. exists (a + v). repeat split; try lia. do 2 f_equal. lia.
Qed.

Lemma Runs_choice4 {A} (x0 x1 x2 x3 : A) draws r :
  Runs (choice x0 [x1; x2; x3]) draws r ->
  (r = x0 /\ draws = [DBelow 0]) \/ (r = x1 /\ draws = [DBelow 1]) \/
  (r = x2 /\ draws = [DBelow 2]) \/ (r = x3 /\ draws = [DBelow 3]).
Proof.
  unfold choice. intros H.
  inversion H as [| | n k v ds r' Hv Hk]; subst. inversion Hk; subst.
  simpl in Hv.
  assert (v = 0 \/ v = 1 \/ v = 2 \/ v = 3) as [->|[->|[->| ->]]] by lia; simpl; auto 10.
Qed.

(** The four mutations, as the branches of [_make_spelling_error] build
    them. *)
Lemma make_spelling_error_cases word draws res :
  3 <= len word ->
  Runs (_make_spelling_error word) draws res ->
  (exists pos a b, 1 <= pos <= len word - 2 /\ draws = [DBelow 0; DBelow (pos - 1)] /\
     item word (pos + 1) = Some a /\ item word pos = Some b /\
     res = slice_to word pos +:+ of_char a +:+ of_char b +:+ slice_from word (pos + 2)) \/
  (exists pos a, 0 <= pos <= len word - 1 /\ draws = [DBelow 1; DBelow pos] /\
     item word pos = Some a /\
     res = slice_to word pos +:+ of_char a +:+ slice_from word pos) \/
  (exists pos, 4 <= len word /\ 1 <= pos <= len word - 2 /\
     draws = [DBelow 2; DBelow (pos - 1)] /\
     res = slice_to word pos +:+ slice_from word (pos + 1)) \/
  (len word = 3 /\ draws = [DBelow 2] /\ res = word) \/
  (exists pos c, 0 <= pos <= len word - 1 /\ draws = [DBelow 3; DBelow pos] /\
     item word pos = Some c /\
     res = slice_to word pos
           +:+ of_char (if isupper c then upper (nearby_get (lower c))
                        else nearby_get (lower c))
           +:+ slice_from word (pos + 1)).
Proof.
  intros Hlen. unfold _make_spelling_error.
  destruct (Z.ltb_spec (len word) 3) as [Hlt3|_]; [lia|].
  rewrite bind_unfold. intros H.
  apply Runs_bind_inv in H as (d1 & d2 & et & -> & Hc & H).
  apply Runs_choice4 in Hc as [[-> ->]|[[-> ->]|[[-> ->]|[-> ->]]]].
  - (* swap *)
    left. simpl String.eqb in H.
    destruct (Z.leb_spec 3 (len word)) as [_|Hlt3]; [|lia]. simpl in H.
    rewrite bind_unfold in H.
    apply Runs_bind_inv in H as (d3 & d4 & pos & -> & Hp & H).
    apply Runs_randint in Hp as [(Hlt & _)|(v & Hv & -> & ->)]; [lia|].
    inversion H; subst. clear H.
    destruct (item_some word (v + 1)) as [a Ha]; [lia|].
    destruct (item_some word v) as [b Hb]; [lia|].
    exists v, a, b. cbn [mbind option_bind or_word default]. rewrite Ha, Hb.
    cbn. repeat split; try lia; reflexivity.
  - (* double *)
    right; left. simpl String.eqb in H. simpl in H.
    rewrite bind_unfold in H.
    apply Runs_bind_inv in H as (d3 & d4 & pos & -> & Hp & H).
    apply Runs_randint in Hp as [(Hlt & _)|(v & Hv & -> & ->)]; [lia|].
    inversion H; subst. clear H.
    destruct (item_some word v) as [a Ha]; [lia|].
    exists v, a. cbn [mbind option_bind or_word default]. rewrite Ha.
    cbn. rewrite Z.sub_0_r. repeat split; try lia; reflexivity.
  - (* miss *)
    simpl String.eqb in H. simpl in H.
    destruct (Z.leb_spec 4 (len word)) as [Hle4|Hlt4].
    + right; right; left. simpl in H. rewrite bind_unfold in H.
      apply Runs_bind_inv in H as (d3 & d4 & pos & -> & Hp & H).
      apply Runs_randint in Hp as [(Hlt & _)|(v & Hv & -> & ->)]; [lia|].
      inversion H; subst. clear H.
      exists v. cbn. repeat split; try lia; reflexivity.
    + right; right; right; left. simpl in H. inversion H; subst.
      repeat split; try lia; reflexivity.
  - (* nearby *)
    right; right; right; right. simpl String.eqb in H. simpl in H.
    rewrite bind_unfold in H.
    apply Runs_bind_inv in H as (d3 & d4 & pos & -> & Hp & H).
    apply Runs_randint in Hp as [(Hlt & _)|(v & Hv & -> & ->)]; [lia|].
    inversion H; subst. clear H.
    destruct (item_some word v) as [c Hc]; [lia|].
    exists v, c. cbn [mbind option_bind or_word default]. rewrite Hc.
    cbn. rewrite Z.sub_0_r. repeat split; try lia; reflexivity.
Qed.

Lemma substring_all (s : string) : String.substring 0 (String.length s) s = s.
Proof. induction s as [|c s IH]; simpl; [reflexivity | rewrite IH; reflexivity]. Qed.

Lemma append_cons (d : ascii) (x y : string) : String d x +:+ y = String d (x +:+ y).
Proof. reflexivity. Qed.

Lemma split_at_item (s : string) (i : Z) (c : ascii) :
  0 <= i -> item s i = Some c ->
  s = slice_to s i +:+ of_char c +:+ slice_from s (i + 1).
Proof.
  intros Hi. unfold item, slice_to, slice_from, from_end, len.
  destruct (Z.ltb_spec i 0) as [?|_]; [lia|].
  destruct (Z.ltb_spec (i + 1) 0) as [?|_]; [lia|].
  destruct ((0 <=? i) && (i <? Z.of_nat (String.length s))); [|discriminate].
  replace (Z.to_nat (i + 1)) with (S (Z.to_nat i)) by lia.
  generalize (Z.to_nat i). clear. intros n. revert n.
  induction s as [|d s IH]; intros n H; simpl in *.
  - destruct n; discriminate.
  - destruct n as [|n]; simpl.
    + injection H as ->. rewrite Nat.sub_0_r, substring_all. reflexivity.
    + rewrite append_cons. f_equal. apply IH. assumption.
Qed.

Lemma nearby_key_case (c : ascii) :
  isupper (nearby_key c) = isupper c /\ lower (nearby_key c) = nearby_get (lower c).
Proof.
  destruct c as [[] [] [] [] [] [] [] []]; vm_compute; split; reflexivity.
Qed.

Lemma nearby_key_outside_table (c : ascii) :
  nearby_get (lower c) = lower c -> nearby_key c = c.
Proof.
  destruct c as [[] [] [] [] [] [] [] []]; vm_compute; intros H;
    first [reflexivity | discriminate H].
Qed.

Lemma nearby_key_upper_exact (c : ascii) :
  isupper c = true -> upper_leaves_latin1 (nearby_get (lower c)) = false.
Proof.
  destruct c as [[] [] [] [] [] [] [] []]; vm_compute; intros H;
    first [reflexivity | discriminate H].
Qed.

Lemma imperfect_word_cases self word draws seg :
  strip word <> EmptyString ->
  Runs (imperfect_word self word) draws seg ->
  exists roll rest, draws = DFloat roll :: rest /\
    (0 <=? roll)%float = true /\
    ((seg = mkSegment word normal None /\ rest = []) \/
     ((roll <? imperfection_level self)%float = true /\ 3 <= len word /\
      ((exists misspelled r d, rest = DFloat r :: d /\
          Runs (_make_spelling_error word) d misspelled /\
          seg = mkSegment misspelled error (Some word)) \/
       seg = mkSegment word strikethrough (Some word) \/
       seg = mkSegment word erasure None))).
Proof.
  intros Hw. unfold imperfect_word.
  destruct (strip word) eqn:Hs; [congruence|]. clear Hs Hw.
  rewrite bind_unfold. intros H.
  apply Runs_bind_inv in H as (d1 & d2 & roll & -> & Hr & H).
  inversion Hr as [|? ? ? ? Hlo Hhi Hk|]; subst. inversion Hk; subst. clear Hr Hk.
  exists roll, d2. split; [reflexivity|]. split; [assumption|].
  destruct ((roll <? imperfection_level self)%float) eqn:Hroll; cbn [andb] in H.
  - destruct (Z.ltb_spec 2 (len word)) as [Hlen|Hlen].
    + right. split; [reflexivity|]. split; [lia|].
      rewrite bind_unfold in H.
      apply Runs_bind_inv in H as (d3 & d4 & mistake & -> & Hm & H).
      inversion Hm as [|? r ? ? Hlo' Hhi' Hk|]; subst. inversion Hk; subst. clear Hk.
      simpl app.
      destruct (String.eqb _ "spelling").
      * rewrite bind_unfold in H.
        apply Runs_bind_inv in H as (d5 & d6 & misspelled & -> & Hmis & H).
        inversion H; subst. left. exists misspelled, r, d5.
        rewrite app_nil_r. auto.
      * destruct (String.eqb _ "strikethrough"); inversion H; subst; auto.
    + left. inversion H; subst. auto.
  - left. inversion H; subst. auto.
Qed.

Lemma roll_not_below_zero (roll p : float) :
  (0 <=? roll)%float = true -> (p <=? 0)%float = true -> (roll <? p)%float = false.
Proof.
  rewrite !FloatAxioms.leb_spec, FloatAxioms.ltb_spec.
  change (Prim2SF 0) with (S754_zero false).
  destruct (Prim2SF roll) as [[]|[]| |[] m e]; destruct (Prim2SF p) as [[]|[]| |[] m' e'];
    cbn; intros; congruence.
Qed.

Lemma make_spelling_error_length word draws res :
  Runs (_make_spelling_error word) draws res ->
  len word - 1 <= len res <= len word + 1 /\
  (len word < 3 -> res = word /\ draws = []) /\
  (3 <= len word -> 3 <= len res).
Proof.
  intros H. destruct (Z.ltb_spec (len word) 3) as [Hlt|Hge].
  - unfold _make_spelling_error in H.
    destruct (Z.ltb_spec (len word) 3) as [_|?]; [|lia].
    inversion H; subst. repeat split; try lia; reflexivity.
  - destruct (make_spelling_error_cases word draws res Hge H)
      as [(pos & a & b & Hpos & _ & _ & _ & ->)
         |[(pos & a & Hpos & _ & _ & ->)
         |[(pos & H4 & Hpos & _ & ->)
         |[(H3 & _ & ->)
         |(pos & c & Hpos & _ & _ & ->)]]]];
      rewrite ?len_app, ?len_of_char, ?len_slice_to, ?len_slice_from by lia; lia.
Qed.

(** [_make_spelling_error] changes the length of a word by at most one
    character. A word of fewer than three characters is returned as it
    is, without a draw; a longer one never comes back shorter than three
    characters. *)
Theorem misspelling_changes_length_by_at_most_one word draws res :
  Runs (_make_spelling_error word) draws res ->
  len word - 1 <= len res <= len word + 1 /\
  (len word < 3 -> res = word /\ draws = []) /\
  (3 <= len word -> 3 <= len res).
Proof. apply make_spelling_error_length. Qed.

Lemma swap_draws_run :
  Runs (_make_spelling_error "helo") [DBelow 0; DBelow 0] "hleo".
Proof.
  apply (interp_run _ (constant_source 0 0) 0);
    [apply proper_make_spelling_error | vm_compute; reflexivity].
Qed.

Lemma misspelling_changes_length_by_at_most_one_witness :
  Runs (_make_spelling_error "helo") [DBelow 0; DBelow 0] "hleo" /\
  (len "helo" - 1 <= len "hleo" <= len "helo" + 1 /\
   (len "helo" < 3 -> "hleo"%string = "helo"%string /\ [DBelow 0; DBelow 0] = []) /\
   (3 <= len "helo" -> 3 <= len "hleo")).
Proof.
  split; [exact swap_draws_run|].
  exact (misspelling_changes_length_by_at_most_one "helo" _ "hleo" swap_draws_run).
Defined.

(** For a word of characters of the Latin-1 range (code points 0 to
    255, which is what a [string] holds here; a word with a character
    beyond that range is not covered): when the error type drawn is the
    nearby key, one more draw picks a position of the word, and the
    result is the word with the character at that position replaced by
    its neighbour on the keyboard, in the case of the character. The rest
    of the word is untouched, and a character whose lower case is not in
    the table stays as it is. [upper()] is applied to no character whose
    upper case leaves the Latin-1 range, so that on these words the
    replacement is the one Python computes. *)
Theorem nearby_key_replaces_one_letter_in_its_case word rest res :
  Runs (_make_spelling_error word) (DBelow 3 :: rest) res ->
  exists pos c,
    rest = [DBelow pos] /\ 0 <= pos < len word /\
    word = slice_to word pos +:+ of_char c +:+ slice_from word (pos + 1) /\
    res = slice_to word pos +:+ of_char (nearby_key c) +:+ slice_from word (pos + 1) /\
    isupper (nearby_key c) = isupper c /\
    lower (nearby_key c) = nearby_get (lower c) /\
    (nearby_get (lower c) = lower c -> nearby_key c = c /\ res = word) /\
    (isupper c = true -> upper_leaves_latin1 (nearby_get (lower c)) = false).
Proof.
  intros H. destruct (Z.ltb_spec (len word) 3) as [Hlt|Hge].
  - unfold _make_spelling_error in H.
    destruct (Z.ltb_spec (len word) 3) as [_|?]; [|lia]. inversion H.
  - destruct (make_spelling_error_cases word _ res Hge H)
      as [(pos & a & b & _ & [=] & _)
         |[(pos & a & _ & [=] & _)
         |[(pos & _ & _ & [=] & _)
         |[(_ & [=] & _)
         |(pos & c & Hpos & [= ->] & Hc & ->)]]]].
    assert (word = slice_to word pos +:+ of_char c +:+ slice_from word (pos + 1))
      as Hword by (apply split_at_item; [lia | assumption]).
    exists pos, c.
    split; [reflexivity|]. split; [lia|]. split; [exact Hword|].
    split; [reflexivity|]. split; [apply nearby_key_case|].
    split; [apply nearby_key_case|]. split.
    + intros Hout. pose proof (nearby_key_outside_table c Hout) as Hk.
      split; [exact Hk|]. unfold nearby_key in Hk. rewrite Hk.
      symmetry. exact Hword.
    + apply nearby_key_upper_exact.
Qed.

Lemma nearby_draws_run :
  Runs (_make_spelling_error "Team") [DBelow 3; DBelow 0] "Yeam".
Proof.
  apply (interp_run _ (mkSource (fun _ => 0%float) (fun i => nth i [3; 0] 0)) 0);
    [apply proper_make_spelling_error | vm_compute; reflexivity].
Qed.

Lemma nearby_key_replaces_one_letter_in_its_case_witness :
  Runs (_make_spelling_error "Team") [DBelow 3; DBelow 0] "Yeam" /\
  exists pos c,
    [DBelow 0] = [DBelow pos] /\ 0 <= pos < len "Team" /\
    "Team"%string = slice_to "Team" pos +:+ of_char c +:+ slice_from "Team" (pos + 1) /\
    "Yeam"%string
      = slice_to "Team" pos +:+ of_char (nearby_key c) +:+ slice_from "Team" (pos + 1) /\
    isupper (nearby_key c) = isupper c /\
    lower (nearby_key c) = nearby_get (lower c) /\
    (nearby_get (lower c) = lower c ->
     nearby_key c = c /\ "Yeam"%string = "Team"%string) /\
    (isupper c = true -> upper_leaves_latin1 (nearby_get (lower c)) = false).
Proof.
  split; [exact nearby_draws_run|].
  exact (nearby_key_replaces_one_letter_in_its_case "Team" _ "Yeam" nearby_draws_run).
Defined.

Lemma imperfect_word_segment self word draws seg :
  strip word <> EmptyString ->
  Runs (imperfect_word self word) draws seg ->
  original seg = word /\
  (type seg = normal -> seg = mkSegment word normal None) /\
  (type seg <> normal -> 3 <= len word /\ 3 <= len (text seg)).
Proof.
  intros Hw H.
  destruct (imperfect_word_cases self word draws seg Hw H)
    as (roll & rest & -> & Hlo &
        [[-> ->]|(Hroll & Hlen & [(m & r & d & -> & Hm & ->)|[-> | ->]])]);
    simpl; repeat split; try congruence; try lia.
  apply make_spelling_error_length in Hm. lia.
Qed.

(** [_apply_imperfections] returns one segment per word of the line, in
    order, each for the word it stands for: a normal segment carries the
    word itself and no correction, and only a word of three characters or
    more can get a defect, whose text is then three characters or more
    too. *)
Theorem defects_only_on_words_of_three_letters self line draws segs :
  Runs (_apply_imperfections self line) draws segs ->
  Forall2 (fun word seg =>
             original seg = word /\
             (type seg = normal -> seg = mkSegment word normal None) /\
             (type seg <> normal -> 3 <= len word /\ 3 <= len (text seg)))
          (split line) segs.
Proof.
  unfold _apply_imperfections. pose proof (split_words line) as Hws.
  revert draws segs. induction Hws as [|w ws [Hne Hns] Hws IH]; intros draws segs H;
    simpl in H.
  - inversion H; subst. constructor.
  - rewrite bind_unfold in H.
    apply Runs_bind_inv in H as (d1 & d2 & seg & -> & Hseg & H).
    rewrite bind_unfold in H.
    apply Runs_bind_inv in H as (d3 & d4 & segs' & -> & Hsegs & H).
    inversion H; subst. constructor.
    + eapply imperfect_word_segment; [|eassumption].
      rewrite strip_nospace; assumption.
    + eapply IH; eassumption.
Qed.

Lemma defects_only_on_words_of_three_letters_witness :
  Runs (_apply_imperfections (engine 0.2) "helo world of") misspelling_draws
       misspelling_segments /\
  Forall2 (fun word seg =>
             original seg = word /\
             (type seg = normal -> seg = mkSegment word normal None) /\
             (type seg <> normal -> 3 <= len word /\ 3 <= len (text seg)))
          (split "helo world of") misspelling_segments.
Proof.
  split; [apply misspelling_run; reflexivity|].
  apply (defects_only_on_words_of_three_letters (engine 0.2) _ misspelling_draws).
  apply misspelling_run; reflexivity.
Defined.

(** With an imperfection level of zero or less every word of the line
    comes back as a normal segment with its text unchanged, and the pass
    draws exactly one number per word. *)
Theorem no_defects_at_level_zero self line draws segs :
  (imperfection_level self <=? 0)%float = true ->
  Runs (_apply_imperfections self line) draws segs ->
  segs = map (fun word => mkSegment word normal None) (split line) /\
  length draws = length (split line).
Proof.
  intros Hp. unfold _apply_imperfections. pose proof (split_words line) as Hws.
  revert draws segs. induction Hws as [|w ws [Hne Hns] Hws IH]; intros draws segs H;
    simpl in H.
  - inversion H; subst. split; reflexivity.
  - rewrite bind_unfold in H.
    apply Runs_bind_inv in H as (d1 & d2 & seg & -> & Hseg & H).
    rewrite bind_unfold in H.
    apply Runs_bind_inv in H as (d3 & d4 & segs' & -> & Hsegs & H).
    inversion H; subst. destruct (IH _ _ Hsegs) as [-> Hd].
    assert (strip w <> EmptyString) as Hsw by (rewrite strip_nospace; assumption).
    destruct (imperfect_word_cases _ _ _ _ Hsw Hseg)
      as (roll & rest & -> & Hlo & [[-> ->]|(Hroll & _)]).
    + split; [reflexivity|]. simpl. rewrite app_nil_r, Hd. reflexivity.
    + rewrite (roll_not_below_zero roll _ Hlo Hp) in Hroll. discriminate.
Qed.

Lemma no_defects_at_level_zero_witness :
  (imperfection_level (engine 0) <=? 0)%float = true /\
  Runs (_apply_imperfections (engine 0) "helo world") [DFloat 0.5; DFloat 0.5]
       [mkSegment "helo" normal None; mkSegment "world" normal None] /\
  [mkSegment "helo" normal None; mkSegment "world" normal None]
    = map (fun word => mkSegment word normal None) (split "helo world") /\
  length [DFloat 0.5; DFloat 0.5] = length (split "helo world").
Proof.
  assert (Runs (_apply_imperfections (engine 0) "helo world") [DFloat 0.5; DFloat 0.5]
            [mkSegment "helo" normal None; mkSegment "world" normal None]) as Hrun.
  { apply (interp_run _ (constant_source 0.5 0) 0);
      [apply proper_apply_imperfections | vm_compute; reflexivity]. }
  split; [reflexivity|]. split; [exact Hrun|].
  exact (no_defects_at_level_zero (engine 0) "helo world" _ _ eq_refl Hrun).
Defined.

(** ** The ink colour *)

Lemma hex_value_plain (c : ascii) (v : Z) :
  hex_value c = Some v ->
  0 <= v <= 15 /\ int_space c = false /\ Ascii.eqb c "_" = false /\
  c <> "#"%char /\ c <> "+"%char /\ c <> "-"%char /\ c <> "x"%char /\ c <> "X"%char.
Proof.
  destruct c as [[] [] [] [] [] [] [] []]; vm_compute; intros [= <-];
    repeat split; congruence.
Qed.

Lemma int_base16_two_digits (a b : ascii) (va vb : Z) :
  hex_value a = Some va -> hex_value b = Some vb ->
  int_base16 (String a (String b EmptyString)) = Some (16 * va + vb).
Proof.
  intros Ha Hb.
  destruct (hex_value_plain a va Ha) as (_ & Hsa & Hua & _ & Hpa & Hma & _).
  destruct (hex_value_plain b vb Hb) as (_ & _ & Hub & _ & _ & _ & Hx & HX).
  unfold int_base16. cbn [skip_spaces]. rewrite Hsa.
  assert (hex_body (String a (String b EmptyString)) = Some (16 * va + vb)) as Hbody.
  { unfold hex_body.
    assert (match String a (String b EmptyString) with
            | String "0" (String "x" s') | String "0" (String "X" s') =>
                match s' with String "_" s'' => s'' | _ => s' end
            | _ => String a (String b EmptyString)
            end = String a (String b EmptyString)) as ->.
    { destruct a as [[] [] [] [] [] [] [] []]; try reflexivity.
      destruct b as [[] [] [] [] [] [] [] []]; try reflexivity; congruence. }
    assert (a <> "_"%char) as Hna by (intros ->; discriminate).
    cbn [hex_digits]. rewrite Hua, Ha, Hub, Hb.
    destruct a as [[] [] [] [] [] [] [] []]; try congruence; cbn; f_equal; lia. }
  destruct a as [[] [] [] [] [] [] [] []]; try exact Hbody; congruence.
Qed.

Lemma int_base16_empty : int_base16 EmptyString = None.
Proof. reflexivity. Qed.

Lemma substring_short (s : string) (i n : nat) :
  (String.length s <= i)%nat -> String.substring i n s = EmptyString.
Proof.
  revert i n. induction s as [|c s IH]; intros i n H; simpl in *.
  - destruct i, n; reflexivity.
  - destruct i as [|i]; [lia|]. apply IH. lia.
Qed.

Lemma substring_none (s : string) : String.substring 0 0 s = EmptyString.
Proof. destruct s; reflexivity. Qed.

(** A colour of fewer than five characters after the leading number signs
    has no third pair of digits. *)
Lemma parse_color_short (color_hex : string) :
  len (lstrip_hash color_hex) <= 4 ->
  _parse_color color_hex = Raise (ValueError "invalid literal for int() with base 16").
Proof.
  intros H. unfold _parse_color.
  assert (pair_at (lstrip_hash color_hex) 4 = EmptyString) as H4.
  { apply substring_short. unfold len in H. lia. }
  rewrite H4, int_base16_empty.
  destruct (int_base16 (pair_at (lstrip_hash color_hex) 0)); [|reflexivity].
  destruct (int_base16 (pair_at (lstrip_hash color_hex) 2)); reflexivity.
Qed.

Lemma lstrip_hash_number_signs (n : nat) (s : string) :
  lstrip_hash (number_signs n s) = lstrip_hash s.
Proof. induction n as [|n IH]; [reflexivity | exact IH]. Qed.

(** Six hexadecimal digits, in either case, after any number of leading
    number signs (none, one or more) are read as the three bytes the
    digit pairs denote, each from 0 to 255; what follows the sixth digit
    is ignored. *)
Theorem parse_color_reads_six_hex_digits
    (r1 r0 g1 g0 b1 b0 : ascii) (vr1 vr0 vg1 vg0 vb1 vb0 : Z) (rest : string)
    (n : nat) :
  hex_value r1 = Some vr1 -> hex_value r0 = Some vr0 ->
  hex_value g1 = Some vg1 -> hex_value g0 = Some vg0 ->
  hex_value b1 = Some vb1 -> hex_value b0 = Some vb0 ->
  _parse_color
    (number_signs n
       (String r1 (String r0 (String g1 (String g0 (String b1 (String b0 rest)))))))
    = Ok (16 * vr1 + vr0, 16 * vg1 + vg0, 16 * vb1 + vb0) /\
  0 <= 16 * vr1 + vr0 <= 255 /\ 0 <= 16 * vg1 + vg0 <= 255 /\
  0 <= 16 * vb1 + vb0 <= 255.
Proof.
  intros Hr1 Hr0 Hg1 Hg0 Hb1 Hb0.
  set (digits :=
         String r1 (String r0 (String g1 (String g0 (String b1 (String b0 rest)))))).
  assert (lstrip_hash digits = digits) as Hd.
  { destruct (hex_value_plain r1 vr1 Hr1) as (_ & _ & _ & Hh & _).
    unfold digits. destruct r1 as [[] [] [] [] [] [] [] []]; try reflexivity; congruence. }
  split.
  - unfold _parse_color. rewrite lstrip_hash_number_signs, Hd.
    unfold digits, pair_at. cbn [String.substring].
    rewrite ?substring_none.
    rewrite (int_base16_two_digits _ _ _ _ Hr1 Hr0),
            (int_base16_two_digits _ _ _ _ Hg1 Hg0),
            (int_base16_two_digits _ _ _ _ Hb1 Hb0).
    reflexivity.
  - repeat match goal with
           | H : hex_value _ = Some _ |- _ => apply hex_value_plain in H as [? _]
           end; lia.
Qed.

Lemma parse_color_reads_six_hex_digits_witness :
  _parse_color (number_signs 3 "1A1a2eff") = Ok (16 * 1 + 10, 16 * 1 + 10, 16 * 2 + 14) /\
  0 <= 16 * 1 + 10 <= 255 /\ 0 <= 16 * 1 + 10 <= 255 /\ 0 <= 16 * 2 + 14 <= 255.
Proof.
  exact (parse_color_reads_six_hex_digits "1" "A" "1" "a" "2" "e" 1 10 1 10 2 14
           "ff" 3 eq_refl eq_refl eq_refl eq_refl eq_refl eq_refl).
Defined.

(** A colour with fewer than five characters after its leading number
    signs, the three-digit shorthand among them, is refused with a
    ValueError, whatever the characters are. *)
Theorem parse_color_refuses_short_colours (color_hex : string) :
  len (lstrip_hash color_hex) <= 4 ->
  _parse_color color_hex = Raise (ValueError "invalid literal for int() with base 16").
Proof. apply parse_color_short. Qed.

Lemma parse_color_refuses_short_colours_witness :
  len (lstrip_hash "#fff") <= 4 /\
  _parse_color "#fff" = Raise (ValueError "invalid literal for int() with base 16").
Proof.
  split; [vm_compute; discriminate|].
  apply (parse_color_refuses_short_colours "#fff"). vm_compute. discriminate.
Defined.

(** ** Loops and smudges *)

Lemma Runs_bindE_inv {A B} (m : RandE A) (f : A -> RandE B) draws r :
  Runs (bindE m f) draws r ->
  exists d1 d2 ra, draws = d1 ++ d2 /\ Runs m d1 ra /\
    match ra with
    | Ok a => Runs (f a) d2 r
    | Raise e => d2 = [] /\ r = Raise e
    end.
Proof.
  unfold bindE. intros H.
  apply Runs_bind_inv in H as (d1 & d2 & ra & -> & Hm & Hf).
  exists d1, d2, ra. split; [reflexivity|]. split; [assumption|].
  destruct ra; [assumption|]. inversion Hf; subst. auto.
Qed.

Lemma Runs_randintE a b draws r :
  Runs (randintE a b) draws r ->
  (b < a /\ r = Raise (ValueError "empty range for randrange()") /\ draws = []) \/
  (exists v, a <= v <= b /\ r = Ok v /\ draws = [DBelow (v - a)]).
Proof.
  unfold randintE. intros H.
  apply Runs_bind_inv in H as (d1 & d2 & o & -> & Hr & Ho).
  inversion Ho; subst. rewrite app_nil_r.
  apply Runs_randint in Hr as [(Hlt & -> & ->)|(v & Hv & -> & ->)]; [left|right]; eauto.
Qed.

Lemma proper_bindE {A B} (m : RandE A) (f : A -> RandE B) :
  proper m -> (forall a, proper (f a)) -> proper (bindE m f).
Proof.
  intros Hm Hf. unfold bindE. apply proper_bind; [assumption|].
  intros [a|e]; [apply Hf | constructor].
Qed.

Lemma proper_randintE a b : proper (randintE a b).
Proof.
  unfold randintE. apply proper_bind; [apply proper_randint | intros; constructor].
Qed.

Lemma proper_for_each {A S} (xs : list A) (body : S -> A -> RandE S) (s : S) :
  (forall s x, proper (body s x)) -> proper (for_each xs body s).
Proof.
  intros Hb. revert s. induction xs as [|x xs IH]; intros s; simpl.
  - constructor.
  - apply proper_bindE; [apply Hb | apply IH].
Qed.

(** What holds of the state before a loop and is kept by every turn holds
    after it; an exception of the loop is an exception of a turn. *)
Lemma for_each_invariant {A S} (P : S -> Prop) (Q : exn -> Prop)
    (xs : list A) (body : S -> A -> RandE S) (s : S) draws r :
  (forall s x d r', P s -> Runs (body s x) d r' ->
     match r' with Ok s' => P s' | Raise e => Q e end) ->
  P s -> Runs (for_each xs body s) draws r ->
  match r with Ok s' => P s' | Raise e => Q e end.
Proof.
  intros Hb. revert s draws. induction xs as [|x xs IH]; intros s draws Hs H; simpl in H.
  - inversion H; subst. assumption.
  - apply Runs_bindE_inv in H as (d1 & d2 & ra & -> & Hx & Hrest).
    pose proof (Hb s x d1 ra Hs Hx) as Hturn. destruct ra as [s'|e].
    + exact (IH s' d2 Hturn Hrest).
    + destruct Hrest as [_ ->]. exact Hturn.
Qed.

Lemma proper_apply_smudges lib image : proper (_apply_smudges lib image).
Proof.
  unfold _apply_smudges.
  apply proper_bindE; [constructor|]. intros arr0.
  apply proper_bindE; [apply proper_randintE|]. intros n.
  apply proper_bindE; [|intros; constructor].
  apply proper_for_each. intros arr _. unfold smudge.
  repeat (apply proper_bindE; [apply proper_randintE|]; intros ?).
  apply proper_for_each. intros arr1 dx.
  apply proper_for_each. intros arr2 dy. unfold smudge_pixel.
  repeat match goal with
         | |- proper (if ?c then _ else _) => destruct c
         | |- proper (match ?c with RGB => _ | RGBA => _ end) => destruct c
         | |- proper (bindE _ _) => apply proper_bindE; [apply proper_randintE|]; intros ?
         | |- proper (retE _) => constructor
         | |- proper (Ret _) => constructor
         end.
Qed.

Lemma smudge_pixel_keeps lib image sx sy radius arr dx dy d r :
  ink_kept image arr ->
  Runs (smudge_pixel lib image sx sy radius arr dx dy) d r ->
  match r with Ok arr' => ink_kept image arr' | Raise e => smudge_fault image end.
Proof.
  intros Hk. unfold smudge_pixel.
  destruct (_ <=? _); [|intros H; inversion H; subst; assumption].
  destruct (_ && _); [|intros H; inversion H; subst; assumption].
  destruct (mode image) eqn:Hm.
  { intros H. inversion H; subst. left. assumption. }
  destruct (Z.ltb_spec 0 (alpha_of (arr (sx + dx) (sy + dy)))) as [Ha|Ha];
    [|intros H; inversion H; subst; assumption].
  intros H. apply Runs_bindE_inv in H as (d1 & d2 & rv & -> & Hv & H).
  apply Runs_randintE in Hv as [(? & _)|(v & Hv & -> & ->)]; [lia|].
  inversion H; subst. clear H.
  intros x y. unfold set_alpha.
  destruct ((x =? sx + dx) && (y =? sy + dy)) eqn:Hxy; [|apply Hk].
  apply andb_true_iff in Hxy as [Hx Hy]. apply Z.eqb_eq in Hx, Hy. subst x y.
  destruct (Hk (sx + dx) (sy + dy)) as [Hrgb Hzero].
  destruct (arr (sx + dx) (sy + dy)) as [[[r g] b] a] eqn:Harr. split.
  - exact Hrgb.
  - intros H0. specialize (Hzero H0). rewrite <- Hzero in H0.
    unfold alpha_of in *. simpl in *. lia.
Qed.

Lemma smudge_keeps lib image arr d r :
  ink_kept image arr ->
  Runs (smudge lib image arr) d r ->
  match r with Ok arr' => ink_kept image arr' | Raise e => smudge_fault image end.
Proof.
  intros Hk. unfold smudge. intros H.
  apply Runs_bindE_inv in H as (d1 & d2 & rx & -> & Hx & H).
  apply Runs_randintE in Hx as [(Hw & -> & ->)|(sx & Hsx & -> & ->)].
  { destruct H as [_ ->]. right. left. lia. }
  apply Runs_bindE_inv in H as (d3 & d4 & ry & -> & Hy & H).
  apply Runs_randintE in Hy as [(Hh & -> & ->)|(sy & Hsy & -> & ->)].
  { destruct H as [_ ->]. right. right. lia. }
  apply Runs_bindE_inv in H as (d5 & d6 & rr & -> & Hr & H).
  apply Runs_randintE in Hr as [(? & _)|(radius & Hrad & -> & ->)]; [lia|].
  revert H.
  apply (for_each_invariant (ink_kept image) (fun _ => smudge_fault image));
    [|assumption].
  intros arr1 dx d1 r1 Hk1.
  apply (for_each_invariant (ink_kept image) (fun _ => smudge_fault image));
    [|assumption].
  intros arr2 dy d2 r2 Hk2. apply smudge_pixel_keeps. assumption.
Qed.

Lemma array_ok lib image arr : array lib image = Ok arr -> arr = getpixel image.
Proof.
  unfold array. destruct (array_of_empty lib); [destruct (empty _ _)|]; congruence.
Qed.

Lemma array_raises lib image e :
  array lib image = Raise e -> PIL.width image = 0 \/ PIL.height image = 0.
Proof.
  unfold array, empty. destruct (array_of_empty lib); [|discriminate].
  destruct (Z.eqb_spec (PIL.width image) 0); [auto|].
  destruct (Z.eqb_spec (PIL.height image) 0); [auto|]. discriminate.
Qed.

Lemma fromarray_ok lib m w h arr out :
  fromarray lib m w h arr = Ok out -> out = mkImage m w h arr.
Proof.
  unfold fromarray. destruct (image_of_empty lib); [destruct (empty _ _)|]; congruence.
Qed.

Lemma fromarray_raises lib m w h arr e :
  fromarray lib m w h arr = Raise e -> w = 0 \/ h = 0.
Proof.
  unfold fromarray, empty. destruct (image_of_empty lib); [|discriminate].
  destruct (Z.eqb_spec w 0); [auto|].
  destruct (Z.eqb_spec h 0); [auto|]. discriminate.
Qed.

Lemma fromarray_succeeds lib m w h arr :
  w <> 0 -> h <> 0 -> fromarray lib m w h arr = Ok (mkImage m w h arr).
Proof.
  intros Hw Hh. unfold fromarray, empty. destruct (image_of_empty lib); [|reflexivity].
  destruct (Z.eqb_spec w 0); [lia|]. destruct (Z.eqb_spec h 0); [lia|]. reflexivity.
Qed.

Lemma array_succeeds lib image :
  PIL.width image <> 0 -> PIL.height image <> 0 -> array lib image = Ok (getpixel image).
Proof.
  intros Hw Hh. unfold array, empty. destruct (array_of_empty lib); [|reflexivity].
  destruct (Z.eqb_spec (PIL.width image) 0); [lia|].
  destruct (Z.eqb_spec (PIL.height image) 0); [lia|]. reflexivity.
Qed.

Lemma apply_smudges_keeps lib image draws r :
  Runs (_apply_smudges lib image) draws r ->
  match r with
  | Ok out =>
      mode out = mode image /\ size out = size image /\
      ink_kept image (getpixel out)
  | Raise e => smudge_fault image
  end.
Proof.
  unfold _apply_smudges. intros H.
  apply Runs_bindE_inv in H as (d0 & d0' & r0 & -> & H0 & H).
  inversion H0; subst. destruct (array lib image) as [arr0|e0] eqn:Harr.
  2:{ destruct H as [_ ->]. apply array_raises in Harr. right. lia. }
  apply array_ok in Harr. subst arr0.
  apply Runs_bindE_inv in H as (d1 & d2 & rn & -> & Hn & H).
  apply Runs_randintE in Hn as [(? & _)|(n & Hn & -> & ->)]; [lia|].
  apply Runs_bindE_inv in H as (d3 & d4 & ra & -> & Hloop & H).
  assert (match ra with
          | Ok arr => ink_kept image arr
          | Raise e => smudge_fault image
          end) as Hra.
  { revert Hloop.
    apply (for_each_invariant (ink_kept image) (fun _ => smudge_fault image)).
    - intros arr _ d r' Hk. apply smudge_keeps. assumption.
    - intros x y. split; reflexivity. }
  destruct ra as [arr|e].
  - inversion H; subst.
    destruct (fromarray lib _ _ _ arr) as [out|e] eqn:Hout.
    + apply fromarray_ok in Hout. subst out. repeat split; try reflexivity; apply Hra.
    + apply fromarray_raises in Hout. right. lia.
  - destruct H as [_ ->]. assumption.
Qed.

(** A smudge pass never inks a pixel that had no ink, never changes a
    colour band and never changes the size or the mode of the canvas,
    whatever the random draws and whichever way NumPy adds to the alpha
    byte. It can raise only on a canvas without an alpha band or less than
    100 pixels wide or high. *)
Theorem smudges_leave_blank_pixels_and_colours
    (lib : Versions) (image : Image) (draws : list Draw) (r : Result Image) :
  Runs (_apply_smudges lib image) draws r ->
  match r with
  | Ok out =>
      mode out = mode image /\ size out = size image /\
      forall x y,
        rgb (getpixel out x y) = rgb (getpixel image x y) /\
        (alpha_of (getpixel image x y) = 0 -> getpixel out x y = getpixel image x y)
  | Raise e =>
      mode image = RGB \/ PIL.width image < 100 \/ PIL.height image < 100
  end.
Proof. apply apply_smudges_keeps. Qed.

Lemma smudges_leave_blank_pixels_and_colours_witness :
  Runs (_apply_smudges numpy1 stroke_canvas)
       (snd (interp (_apply_smudges numpy1 stroke_canvas) counting_source 0))
       (fst (interp (_apply_smudges numpy1 stroke_canvas) counting_source 0)) /\
  match fst (interp (_apply_smudges numpy1 stroke_canvas) counting_source 0) with
  | Ok out =>
      mode out = mode stroke_canvas /\ size out = size stroke_canvas /\
      forall x y,
        rgb (getpixel out x y) = rgb (getpixel stroke_canvas x y) /\
        (alpha_of (getpixel stroke_canvas x y) = 0 ->
         getpixel out x y = getpixel stroke_canvas x y)
  | Raise e =>
      mode stroke_canvas = RGB \/ PIL.width stroke_canvas < 100 \/
      PIL.height stroke_canvas < 100
  end.
Proof.
  split; [apply interp_Runs, proper_apply_smudges|].
  apply (smudges_leave_blank_pixels_and_colours numpy1 stroke_canvas
           (snd (interp (_apply_smudges numpy1 stroke_canvas) counting_source 0))).
  apply interp_Runs, proper_apply_smudges.
Defined.

(** On a canvas at least one pixel and less than 100 pixels wide or high
    the pass either draws no smudge at all and hands the canvas back as it
    is, or raises the ValueError of an empty [randint] range at its first
    smudge. *)
Theorem smudges_raise_on_small_canvases
    (lib : Versions) (image : Image) (draws : list Draw) (r : Result Image) :
  0 < PIL.width image -> 0 < PIL.height image ->
  PIL.width image < 100 \/ PIL.height image < 100 ->
  Runs (_apply_smudges lib image) draws r ->
  (draws = [DBelow 0] /\ r = Ok image) \/
  (exists num_smudges rest,
     1 <= num_smudges <= 3 /\ draws = DBelow num_smudges :: rest /\
     r = Raise (ValueError "empty range for randrange()")).
Proof.
  intros Hw Hh Hsmall. unfold _apply_smudges. intros H.
  apply Runs_bindE_inv in H as (d0 & d0' & r0 & -> & H0 & H).
  inversion H0; subst. rewrite array_succeeds in H by lia.
  apply Runs_bindE_inv in H as (d1 & d2 & rn & -> & Hn & H).
  apply Runs_randintE in Hn as [(? & _)|(n & Hn & -> & ->)]; [lia|].
  apply Runs_bindE_inv in H as (d3 & d4 & ra & -> & Hloop & H).
  rewrite Z.sub_0_r. destruct (Z.eq_dec n 0) as [->|Hn0].
  - left. simpl in Hloop. inversion Hloop; subst. inversion H; subst.
    split; [reflexivity|]. rewrite fromarray_succeeds by lia.
    destruct image; reflexivity.
  - right. exists n, (d3 ++ d4). split; [lia|]. split; [reflexivity|].
    assert (exists rest, Py.range 0 n 1 = 0 :: rest) as [rest Hrange].
    { unfold Py.range. rewrite Z.div_1_r.
      replace (Z.to_nat (n - 0 + 1 - 1)) with (S (Z.to_nat (n - 1))) by lia.
      simpl. eauto. }
    rewrite Hrange in Hloop. simpl in Hloop.
    apply Runs_bindE_inv in Hloop as (d5 & d6 & rs & -> & Hs & Hrest).
    assert (rs = Raise (ValueError "empty range for randrange()")) as ->.
    { unfold smudge in Hs.
      apply Runs_bindE_inv in Hs as (e1 & e2 & rx & -> & Hx & Hs).
      apply Runs_randintE in Hx as [(Hw' & -> & ->)|(sx & Hsx & -> & ->)].
      { destruct Hs as [_ ->]. reflexivity. }
      apply Runs_bindE_inv in Hs as (e3 & e4 & ry & -> & Hy & Hs).
      apply Runs_randintE in Hy as [(Hh' & -> & ->)|(sy & Hsy & -> & ->)].
      { destruct Hs as [_ ->]. reflexivity. }
      lia. }
    destruct Hrest as [_ ->]. destruct H as [_ ->]. reflexivity.
Qed.

Lemma smudges_raise_on_small_canvases_witness :
  0 < PIL.width (PIL.new RGBA (99, 300) (0, 0, 0, 0)) /\
  0 < PIL.height (PIL.new RGBA (99, 300) (0, 0, 0, 0)) /\
  (PIL.width (PIL.new RGBA (99, 300) (0, 0, 0, 0)) < 100 \/
   PIL.height (PIL.new RGBA (99, 300) (0, 0, 0, 0)) < 100) /\
  Runs (_apply_smudges numpy1 (PIL.new RGBA (99, 300) (0, 0, 0, 0)))
       [DBelow 2] (Raise (ValueError "empty range for randrange()")) /\
  (([DBelow 2] = [DBelow 0] /\
    Raise (ValueError "empty range for randrange()")
      = Ok (PIL.new RGBA (99, 300) (0, 0, 0, 0))) \/
   (exists num_smudges rest,
      1 <= num_smudges <= 3 /\ [DBelow 2] = DBelow num_smudges :: rest /\
      Raise (ValueError "empty range for randrange()")
        = Raise (A := Image) (ValueError "empty range for randrange()"))).
Proof.
  assert (Runs (_apply_smudges numpy1 (PIL.new RGBA (99, 300) (0, 0, 0, 0)))
               [DBelow 2] (Raise (ValueError "empty range for randrange()"))) as Hrun.
  { apply (interp_run _ (constant_source 0 2) 0);
      [apply proper_apply_smudges | vm_compute; reflexivity]. }
  assert (PIL.width (PIL.new RGBA (99, 300) (0, 0, 0, 0)) < 100 \/
          PIL.height (PIL.new RGBA (99, 300) (0, 0, 0, 0)) < 100) as Hsmall
    by (left; simpl; lia).
  assert (0 < PIL.width (PIL.new RGBA (99, 300) (0, 0, 0, 0))) as Hw by (simpl; lia).
  assert (0 < PIL.height (PIL.new RGBA (99, 300) (0, 0, 0, 0))) as Hh by (simpl; lia).
  split; [exact Hw|]. split; [exact Hh|].
  split; [exact Hsmall|]. split; [exact Hrun|].
  exact (smudges_raise_on_small_canvases numpy1 _ _ _ Hw Hh Hsmall Hrun).
Defined.

(** ** Grids *)

Lemma In_range_step (a b s x : Z) :
  0 < s ->
  (In x (Py.range a b s) <-> exists i, 0 <= i /\ x = a + s * i /\ x < b).
Proof.
  intros Hs. unfold Py.range. rewrite in_map_iff. split.
  - intros (i & <- & Hi). apply in_seq in Hi. exists (Z.of_nat i).
    split; [lia|]. split; [reflexivity|].
    assert (Z.of_nat i + 1 <= (b - a + s - 1) / s) as Hle by lia.
    assert (s * (Z.of_nat i + 1) <= b - a + s - 1); [|lia].
    etransitivity; [apply Z.mul_le_mono_nonneg_l; [lia | exact Hle]|].
    apply Z.mul_div_le. lia.
  - intros (i & Hi & -> & Hlt). exists (Z.to_nat i). split; [f_equal; lia|].
    apply in_seq. split; [lia|]. simpl.
    assert (i + 1 <= (b - a + s - 1) / s); [|lia].
    apply Z.div_le_lower_bound; lia.
Qed.

Lemma range_count (g n : Z) :
  0 < g -> Z.of_nat (length (Py.range g n g)) = Z.max 0 ((n - 1) / g).
Proof.
  intros Hg. rewrite range_length.
  replace (n - g + g - 1) with (n - 1) by lia. lia.
Qed.

Lemma graph_verticals_run xs h draws ops :
  Runs (graph_verticals xs h) draws ops ->
  length ops = length xs /\ length draws = length xs /\
  Forall (fun op => exists x,
            op = draw_line [(x, Py.of_int 0); (x, Py.of_int h)] graph_color 1) ops.
Proof.
  revert draws ops. induction xs as [|x xs IH]; intros draws ops H;
    cbn [graph_verticals] in H.
  - inversion H; subst. repeat split; constructor.
  - rewrite bind_unfold in H.
    apply Runs_bind_inv in H as (d1 & d2 & j & -> & Hj & H).
    inversion Hj as [|? ? ? ? _ _ Hk|]; subst. inversion Hk; subst.
    rewrite bind_unfold in H.
    apply Runs_bind_inv in H as (d3 & d4 & ops' & -> & Hops & H).
    inversion H; subst. destruct (IH _ _ Hops) as (Hl & Hd & Hall).
    rewrite app_nil_r. simpl. repeat split; try lia.
    constructor; [eauto | assumption].
Qed.

Lemma graph_horizontals_run ys w draws ops :
  Runs (graph_horizontals ys w) draws ops ->
  length ops = length ys /\ length draws = length ys /\
  Forall (fun op => exists y,
            op = draw_line [(Py.of_int 0, y); (Py.of_int w, y)] graph_color 1) ops.
Proof.
  revert draws ops. induction ys as [|y ys IH]; intros draws ops H;
    cbn [graph_horizontals] in H.
  - inversion H; subst. repeat split; constructor.
  - rewrite bind_unfold in H.
    apply Runs_bind_inv in H as (d1 & d2 & j & -> & Hj & H).
    inversion Hj as [|? ? ? ? _ _ Hk|]; subst. inversion Hk; subst.
    rewrite bind_unfold in H.
    apply Runs_bind_inv in H as (d3 & d4 & ops' & -> & Hops & H).
    inversion H; subst. destruct (IH _ _ Hops) as (Hl & Hd & Hall).
    rewrite app_nil_r. simpl. repeat split; try lia.
    constructor; [eauto | assumption].
Qed.

Lemma proper_graph_verticals xs h : proper (graph_verticals xs h).
Proof.
  induction xs as [|x xs IH]; cbn [graph_verticals]; [constructor|].
  rewrite bind_unfold. apply proper_bind; [repeat constructor|].
  intros j. rewrite bind_unfold. apply proper_bind; [assumption|].
  intros ops. constructor.
Qed.

Lemma proper_graph_horizontals ys w : proper (graph_horizontals ys w).
Proof.
  induction ys as [|y ys IH]; cbn [graph_horizontals]; [constructor|].
  rewrite bind_unfold. apply proper_bind; [repeat constructor|].
  intros j. rewrite bind_unfold. apply proper_bind; [assumption|].
  intros ops. constructor.
Qed.

Lemma proper_draw_graph w h config : proper (_draw_graph w h config).
Proof.
  unfold _draw_graph. rewrite bind_unfold.
  apply proper_bind; [apply proper_graph_verticals|]. intros vs.
  rewrite bind_unfold. apply proper_bind; [apply proper_graph_horizontals|].
  intros hs. constructor.
Qed.

Lemma draw_graph_run w h config draws ops :
  Runs (_draw_graph w h config) draws ops ->
  exists verticals horizontals,
    ops = verticals ++ horizontals /\
    Z.of_nat (length verticals) = Z.max 0 ((w - 1) / 20) /\
    Z.of_nat (length horizontals) = Z.max 0 ((h - 1) / 20) /\
    length draws = length ops /\
    Forall (fun op => exists x,
              op = draw_line [(x, Py.of_int 0); (x, Py.of_int h)] graph_color 1)
           verticals /\
    Forall (fun op => exists y,
              op = draw_line [(Py.of_int 0, y); (Py.of_int w, y)] graph_color 1)
           horizontals.
Proof.
  unfold _draw_graph, grid_size. rewrite bind_unfold. intros H.
  apply Runs_bind_inv in H as (d1 & d2 & vs & -> & Hvs & H).
  rewrite bind_unfold in H.
  apply Runs_bind_inv in H as (d3 & d4 & hs & -> & Hhs & H).
  inversion H; subst.
  apply graph_verticals_run in Hvs as (Hlv & Hdv & Hv).
  apply graph_horizontals_run in Hhs as (Hlh & Hdh & Hh).
  exists vs, hs. split; [reflexivity|].
  rewrite Hlv, Hlh, !range_count by lia.
  repeat split; try assumption.
  rewrite app_nil_r, !length_app. lia.
Qed.

(** Graph paper of [w] by [h] pixels gets floor((w - 1) / 20) vertical
    lines and then floor((h - 1) / 20) horizontal ones (none for a side
    below 21 pixels), each a straight two-point line across the whole
    page in the grid colour, and takes one random draw per line. *)
Theorem graph_paper_line_count
    (w h : Z) (config : ProcessConfig) (draws : list Draw) (ops : list DrawOp) :
  Runs (_draw_graph w h config) draws ops ->
  exists verticals horizontals,
    ops = verticals ++ horizontals /\
    Z.of_nat (length verticals) = Z.max 0 ((w - 1) / 20) /\
    Z.of_nat (length horizontals) = Z.max 0 ((h - 1) / 20) /\
    length draws = length ops /\
    Forall (fun op => exists x,
              op = draw_line [(x, Py.of_int 0); (x, Py.of_int h)] graph_color 1)
           verticals /\
    Forall (fun op => exists y,
              op = draw_line [(Py.of_int 0, y); (Py.of_int w, y)] graph_color 1)
           horizontals.
Proof. apply draw_graph_run. Qed.

Lemma graph_paper_line_count_witness :
  Runs (_draw_graph 100 50 default_config)
       (snd (interp (_draw_graph 100 50 default_config) (constant_source 0.5 0) 0))
       (fst (interp (_draw_graph 100 50 default_config) (constant_source 0.5 0) 0)) /\
  exists verticals horizontals,
    fst (interp (_draw_graph 100 50 default_config) (constant_source 0.5 0) 0)
      = verticals ++ horizontals /\
    Z.of_nat (length verticals) = Z.max 0 ((100 - 1) / 20) /\
    Z.of_nat (length horizontals) = Z.max 0 ((50 - 1) / 20) /\
    length (snd (interp (_draw_graph 100 50 default_config) (constant_source 0.5 0) 0))
      = length (fst (interp (_draw_graph 100 50 default_config)
                            (constant_source 0.5 0) 0)) /\
    Forall (fun op => exists x,
              op = draw_line [(x, Py.of_int 0); (x, Py.of_int 50)] graph_color 1)
           verticals /\
    Forall (fun op => exists y,
              op = draw_line [(Py.of_int 0, y); (Py.of_int 100, y)] graph_color 1)
           horizontals.
Proof.
  split; [apply interp_Runs, proper_draw_graph|].
  apply (graph_paper_line_count 100 50 default_config
           (snd (interp (_draw_graph 100 50 default_config) (constant_source 0.5 0) 0))).
  apply interp_Runs, proper_draw_graph.
Defined.

Lemma major_position_is_minor (n x : Z) :
  In x (Py.range 25 n 25) -> In x (Py.range 5 n 5).
Proof.
  intros H. apply In_range_step in H as (i & Hi & -> & Hlt); [|lia].
  apply In_range_step; [lia|]. exists (5 * i + 4). lia.
Qed.

Lemma grid_length size color w h :
  0 < size ->
  Z.of_nat (length (grid size color w h))
    = Z.max 0 ((w - 1) / size) + Z.max 0 ((h - 1) / size).
Proof.
  intros Hs. unfold grid. rewrite length_app, !length_map.
  rewrite Nat2Z.inj_add, !range_count by lia. reflexivity.
Qed.

(** Engineering paper is two superimposed grids: first the minor one,
    floor((w - 1) / 5) vertical and floor((h - 1) / 5) horizontal lines,
    then the major one, floor((w - 1) / 25) and floor((h - 1) / 25) lines;
    every major line is drawn over a minor line between the same two
    points, and the lines are the same on every run. *)
Theorem engineering_major_lines_overdraw_minor_lines
    (w h : Z) (config : ProcessConfig) :
  _draw_engineering w h config = grid 5 minor_color w h ++ grid 25 major_color w h /\
  Z.of_nat (length (grid 5 minor_color w h))
    = Z.max 0 ((w - 1) / 5) + Z.max 0 ((h - 1) / 5) /\
  Z.of_nat (length (grid 25 major_color w h))
    = Z.max 0 ((w - 1) / 25) + Z.max 0 ((h - 1) / 25) /\
  (forall points,
     In (draw_line points major_color 1) (_draw_engineering w h config) ->
     In (draw_line points major_color 1) (grid 25 major_color w h) /\
     In (draw_line points minor_color 1) (grid 5 minor_color w h)).
Proof.
  split; [reflexivity|]. split; [apply grid_length; lia|].
  split; [apply grid_length; lia|].
  intros points H. unfold _draw_engineering in H. apply in_app_iff in H as [H|H].
  - exfalso. unfold grid in H.
    apply in_app_iff in H as [H|H]; apply in_map_iff in H as (x & Hx & _);
      unfold vertical, horizontal in Hx; discriminate.
  - split; [assumption|]. unfold grid in *.
    apply in_app_iff in H as [H|H]; apply in_map_iff in H as (x & Hx & Hin);
      apply in_app_iff; [left|right]; apply in_map_iff; exists x;
      (split; [|apply major_position_is_minor; assumption]);
      unfold vertical, horizontal in *; congruence.
Qed.

(** ** Coffee stains *)

Lemma ring_loop cx cy rs ops draws r :
  Runs (for_each rs (ring cx cy) ops) draws r ->
  exists added,
    r = Ok (ops ++ added) /\ length added = length rs /\
    Forall2 (fun rad e => exists alpha,
               8 <= alpha <= 20 /\
               e = draw_ellipse (cx - rad, cy - rad, cx + rad, cy + rad)
                                None (Some (stain_color alpha)) 2)
            rs added.
Proof.
  revert ops draws. induction rs as [|rad rs IH]; intros ops draws H; simpl in H.
  - inversion H; subst. exists []. rewrite app_nil_r. repeat split. constructor.
  - apply Runs_bindE_inv in H as (d1 & d2 & ra & -> & Hring & H).
    unfold ring in Hring.
    apply Runs_bindE_inv in Hring as (d3 & d4 & rv & -> & Hv & Hring).
    apply Runs_randintE in Hv as [(? & _)|(alpha & Halpha & -> & ->)]; [lia|].
    inversion Hring; subst.
    apply IH in H as (added & -> & Hlen & Hall).
    eexists (_ :: added). rewrite <- app_assoc. split; [reflexivity|].
    split; [simpl; lia|]. constructor; [eauto | assumption].
Qed.

Lemma range_down_bounds a b r : In r (range_down a b) -> b < r <= a.
Proof.
  unfold range_down. intros H. apply in_map_iff in H as (i & <- & Hi).
  apply in_seq in Hi. lia.
Qed.

Lemma range_down_length a b : length (range_down a b) = Z.to_nat (a - b).
Proof. unfold range_down. rewrite length_map, length_seq. reflexivity. Qed.

Lemma Forall2_In_r {A B} (R : A -> B -> Prop) (l : list A) (k : list B) :
  Forall2 R l k -> forall b, In b k -> exists a, In a l /\ R a b.
Proof.
  induction 1 as [|a b l k Hab _ IH]; intros b' Hin; [destruct Hin|].
  destruct Hin as [<-|Hin].
  - exists a. split; [left; reflexivity | assumption].
  - destruct (IH b' Hin) as (a' & Ha' & HR). exists a'. split; [right|]; assumption.
Qed.

Lemma stain_run paper ops draws r :
  Runs (stain paper ops) draws r ->
  match r with
  | Ok ops' =>
      exists added, ops' = ops ++ added /\ length added = 9%nat /\
                    Forall (stain_call paper) added /\
                    200 <= PIL.width paper /\ 200 <= PIL.height paper
  | Raise e =>
      e = ValueError "empty range for randrange()" /\
      (PIL.width paper < 200 \/ PIL.height paper < 200)
  end.
Proof.
  unfold stain. intros H.
  apply Runs_bindE_inv in H as (d1 & d2 & rx & -> & Hx & H).
  apply Runs_randintE in Hx as [(Hw & -> & ->)|(cx & Hcx & -> & ->)].
  { destruct H as [_ ->]. split; [reflexivity | lia]. }
  apply Runs_bindE_inv in H as (d3 & d4 & ry & -> & Hy & H).
  apply Runs_randintE in Hy as [(Hh & -> & ->)|(cy & Hcy & -> & ->)].
  { destruct H as [_ ->]. split; [reflexivity | lia]. }
  apply Runs_bindE_inv in H as (d5 & d6 & rr & -> & Hr & H).
  apply Runs_randintE in Hr as [(? & _)|(radius & Hrad & -> & ->)]; [lia|].
  apply Runs_bindE_inv in H as (d7 & d8 & rl & -> & Hloop & H).
  apply ring_loop in Hloop as (added & -> & Hlen & Hall).
  inversion H; subst. clear H.
  destruct (Z.ltb_spec 0 (radius - 10)) as [_|?]; [|lia].
  eexists (added ++ [_]). rewrite app_assoc. split; [reflexivity|].
  rewrite range_down_length in Hlen.
  split; [rewrite length_app; simpl; lia|].
  split; [|lia].
  apply Forall_app. split.
  - apply List.Forall_forall. intros e He.
    destruct (Forall2_In_r _ _ _ Hall e He) as (rad & Hin & alpha & Halpha & ->).
    apply range_down_bounds in Hin. unfold stain_call. simpl.
    repeat split; try lia. eauto.
  - constructor; [|constructor]. unfold stain_call. simpl. repeat split; lia.
Qed.

Lemma stains_run paper draws r :
  Runs (stains paper) draws r ->
  match r with
  | Ok ops =>
      (length ops = 9 \/ length ops = 18)%nat /\ Forall (stain_call paper) ops /\
      200 <= PIL.width paper /\ 200 <= PIL.height paper
  | Raise e =>
      e = ValueError "empty range for randrange()" /\
      (PIL.width paper < 200 \/ PIL.height paper < 200)
  end.
Proof.
  unfold stains. intros H.
  apply Runs_bindE_inv in H as (d1 & d2 & rn & -> & Hn & H).
  apply Runs_randintE in Hn as [(? & _)|(n & Hn & -> & ->)]; [lia|].
  assert (Py.range 0 n 1 = [0] \/ Py.range 0 n 1 = [0; 1]) as Hrange.
  { assert (n = 1 \/ n = 2) as [-> | ->] by lia; [left | right]; reflexivity. }
  cbn beta in H. destruct Hrange as [Hrange | Hrange]; rewrite Hrange in H; simpl in H.
  - apply Runs_bindE_inv in H as (d3 & d4 & r1 & -> & H1 & H).
    apply stain_run in H1. destruct r1 as [ops1|e].
    + inversion H; subst. destruct H1 as (added & -> & Hlen & Hall & Hw & Hh).
      simpl. auto.
    + destruct H as [_ ->]. assumption.
  - apply Runs_bindE_inv in H as (d3 & d4 & r1 & -> & H1 & H).
    apply stain_run in H1. destruct r1 as [ops1|e].
    + destruct H1 as (added & -> & Hlen & Hall & Hw & Hh). simpl in H.
      apply Runs_bindE_inv in H as (d5 & d6 & r2 & -> & H2 & H).
      apply stain_run in H2. destruct r2 as [ops2|e].
      * inversion H; subst. destruct H2 as (added2 & -> & Hlen2 & Hall2 & _).
        split; [rewrite length_app; lia|].
        split; [apply Forall_app; auto|]. auto.
      * destruct H as [_ ->]. assumption.
    + destruct H as [_ ->]. assumption.
Qed.

Lemma proper_stains paper : proper (stains paper).
Proof.
  unfold stains. apply proper_bindE; [apply proper_randintE|]. intros n.
  apply proper_for_each. intros ops _. unfold stain.
  repeat (apply proper_bindE; [apply proper_randintE|]; intros ?).
  apply proper_bindE.
  - apply proper_for_each. intros ops' r. unfold ring.
    apply proper_bindE; [apply proper_randintE|]. intros; constructor.
  - intros ops'. constructor.
Qed.

(** Coffee stains, when they are enabled: one or two stains of nine
    ellipses each (eight ring outlines of alpha 8 to 20 and one fill of
    alpha 8), every ellipse within the paper at 45 pixels or more from
    each edge; on a paper less than 200 pixels wide or high, and only
    there, the pass raises the ValueError of an empty [randint] range. *)
Theorem coffee_stains_stay_inside_the_page
    (paper : Image) (draws : list Draw) (r : Result (list Ellipse)) :
  Runs (stains paper) draws r ->
  match r with
  | Ok ops =>
      (length ops = 9 \/ length ops = 18)%nat /\ Forall (stain_call paper) ops /\
      200 <= PIL.width paper /\ 200 <= PIL.height paper
  | Raise e =>
      e = ValueError "empty range for randrange()" /\
      (PIL.width paper < 200 \/ PIL.height paper < 200)
  end.
Proof. apply stains_run. Qed.

Lemma coffee_stains_stay_inside_the_page_witness :
  Runs (stains (white_paper 1240 1754))
       (snd (interp (stains (white_paper 1240 1754)) counting_source 0))
       (fst (interp (stains (white_paper 1240 1754)) counting_source 0)) /\
  match fst (interp (stains (white_paper 1240 1754)) counting_source 0) with
  | Ok ops =>
      (length ops = 9 \/ length ops = 18)%nat /\
      Forall (stain_call (white_paper 1240 1754)) ops /\
      200 <= PIL.width (white_paper 1240 1754) /\
      200 <= PIL.height (white_paper 1240 1754)
  | Raise e =>
      e = ValueError "empty range for randrange()" /\
      (PIL.width (white_paper 1240 1754) < 200 \/
       PIL.height (white_paper 1240 1754) < 200)
  end.
Proof.
  split; [apply interp_Runs, proper_stains|].
  apply (coffee_stains_stay_inside_the_page (white_paper 1240 1754)
           (snd (interp (stains (white_paper 1240 1754)) counting_source 0))).
  apply interp_Runs, proper_stains.
Defined.

Lemma add_coffee_stains_run ellipses_drawn paper draws r :
  Runs (_add_coffee_stains ellipses_drawn paper) draws r ->
  match r with
  | Ok out =>
      size out = size paper /\ mode out = RGB /\
      200 <= PIL.width paper /\ 200 <= PIL.height paper
  | Raise e => PIL.width paper < 200 \/ PIL.height paper < 200
  end.
Proof.
  unfold _add_coffee_stains. intros H.
  apply Runs_bindE_inv in H as (d1 & d2 & rs & -> & Hs & H).
  apply stains_run in Hs. destruct rs as [ops|e].
  - destruct Hs as (_ & _ & Hw & Hh). inversion H; subst. clear H.
    unfold alpha_composite.
    destruct (decide _) as [_|Hn].
    + cbn. repeat split; try assumption. destruct paper as [[] w h px]; reflexivity.
    + exfalso. apply Hn. destruct paper as [[] w h px]; repeat split.
  - destruct H as [_ ->]. apply Hs.
Qed.

(** ** Edge shadow *)

Section ShadowFacts.

Variable V : Type.
Variable of_pixel : Pixel -> V.
Variable darkened : Z -> V -> V.
Variable to_pixel : V -> Pixel.

Lemma index_inside n i : 0 <= i < n -> index n i = Ok i.
Proof.
  intros H. unfold index.
  destruct (Z.leb_spec 0 i); [|lia]. destruct (Z.ltb_spec i n); [|lia]. reflexivity.
Qed.

Lemma index_outside n i : 0 <= i -> n <= i -> index n i = Raise IndexError.
Proof.
  intros H0 Hn. unfold index.
  destruct (Z.ltb_spec i n); [lia|]. rewrite andb_false_r.
  destruct (Z.ltb_spec i 0); [lia|]. rewrite andb_false_r. reflexivity.
Qed.

Lemma shadow_turn_inside h w arr i :
  0 <= i < h -> 0 <= i < w ->
  shadow_turn V darkened h w arr i
    = Ok (darken_column V darkened
            (darken_column V darkened
               (darken_row V darkened (darken_row V darkened arr i i) i (h - 1 - i))
               i i)
            i (w - 1 - i)).
Proof.
  intros Hh Hw. unfold shadow_turn.
  rewrite !index_inside by lia. reflexivity.
Qed.

Lemma shadow_turn_outside h w arr i :
  i = Z.max 0 (Z.min h w) ->
  shadow_turn V darkened h w arr i = Raise IndexError.
Proof.
  intros Hm. unfold shadow_turn.
  destruct (Z.le_gt_cases h i) as [Hle|Hgt].
  - rewrite (index_outside h i) by lia. reflexivity.
  - rewrite (index_inside h i) by lia. cbn.
    rewrite (index_inside h (h - 1 - i)) by lia. cbn.
    rewrite (index_outside w i) by lia. reflexivity.
Qed.

Lemma shadow_turns_short h w n start arr :
  (start <= Z.to_nat (Z.min h w) < start + n)%nat ->
  shadow_turns V darkened h w arr
    (map (fun i : nat => 0 + 1 * Z.of_nat i) (seq start n)) = Raise IndexError.
Proof.
  revert start arr.
  induction n as [|n IH]; intros start arr Hm; [lia|].
  cbn [seq map shadow_turns].
  destruct (Nat.eq_dec start (Z.to_nat (Z.min h w))) as [He|Hne].
  - rewrite shadow_turn_outside by lia. reflexivity.
  - rewrite shadow_turn_inside by lia. cbn. apply IH. lia.
Qed.

Lemma shadow_turns_long h w n start arr :
  (Z.of_nat (start + n) <= Z.min h w) ->
  exists arr',
    shadow_turns V darkened h w arr
      (map (fun i : nat => 0 + 1 * Z.of_nat i) (seq start n)) = Ok arr' /\
    forall x y,
      Z.of_nat (start + n) <= x < w - Z.of_nat (start + n) ->
      Z.of_nat (start + n) <= y < h - Z.of_nat (start + n) ->
      arr' x y = arr x y.
Proof.
  revert start arr. induction n as [|n IH]; intros start arr Hm.
  - exists arr. split; [reflexivity | auto].
  - cbn [seq map shadow_turns]. rewrite shadow_turn_inside by lia. cbn.
    destruct (IH (S start) (darken_column V darkened
            (darken_column V darkened
               (darken_row V darkened
                  (darken_row V darkened arr (0 + 1 * Z.of_nat start)
                     (0 + 1 * Z.of_nat start))
                  (0 + 1 * Z.of_nat start) (h - 1 - (0 + 1 * Z.of_nat start)))
               (0 + 1 * Z.of_nat start) (0 + 1 * Z.of_nat start))
            (0 + 1 * Z.of_nat start) (w - 1 - (0 + 1 * Z.of_nat start))))
      as (arr' & -> & Hin); [lia|].
    exists arr'. split; [reflexivity|].
    intros x y Hx Hy. rewrite Hin by lia.
    unfold darken_column, darken_row.
    repeat match goal with
           | |- context [?a =? ?b] => destruct (Z.eqb_spec a b); [lia|]
           end.
    reflexivity.
Qed.

Lemma add_edge_shadow_small lib paper arr :
  array lib paper = Ok arr ->
  PIL.width paper < 40 \/ PIL.height paper < 40 ->
  _add_edge_shadow V of_pixel darkened to_pixel lib paper = Raise IndexError.
Proof.
  intros Harr Hsmall. unfold _add_edge_shadow.
  rewrite Harr. cbn.
  unfold Py.range. rewrite shadow_turns_short; [reflexivity|].
  rewrite Z.div_1_r. lia.
Qed.

Lemma add_edge_shadow_large lib paper :
  40 <= PIL.width paper -> 40 <= PIL.height paper ->
  exists out,
    _add_edge_shadow V of_pixel darkened to_pixel lib paper = Ok out /\
    size out = size paper /\ mode out = mode paper /\
    forall x y,
      40 <= x < PIL.width paper - 40 -> 40 <= y < PIL.height paper - 40 ->
      getpixel out x y = to_pixel (of_pixel (getpixel paper x y)).
Proof.
  intros Hw Hh. unfold _add_edge_shadow.
  rewrite array_succeeds by lia. cbn.
  unfold Py.range. rewrite Z.div_1_r.
  destruct (shadow_turns_long (PIL.height paper) (PIL.width paper)
              (Z.to_nat (40 - 0 + 1 - 1)) 0
              (fun x y => of_pixel (getpixel paper x y))) as (arr' & -> & Hin); [lia|].
  cbn. rewrite fromarray_succeeds by lia.
  eexists. split; [reflexivity|]. repeat split.
  intros x y Hx Hy. cbn. rewrite Hin by lia. reflexivity.
Qed.

Lemma add_edge_shadow_ok lib paper out :
  _add_edge_shadow V of_pixel darkened to_pixel lib paper = Ok out ->
  size out = size paper /\ mode out = mode paper /\
  40 <= PIL.width paper /\ 40 <= PIL.height paper.
Proof.
  intros H.
  destruct (Z.le_gt_cases 40 (PIL.width paper)) as [Hw|Hw];
    [destruct (Z.le_gt_cases 40 (PIL.height paper)) as [Hh|Hh]|].
  - destruct (add_edge_shadow_large lib paper Hw Hh) as (out' & Ho & Hs & Hm & _).
    rewrite Ho in H. injection H as <-. auto.
  - exfalso. destruct (array lib paper) as [arr|e] eqn:Harr.
    + rewrite (add_edge_shadow_small lib paper arr) in H by auto. discriminate.
    + unfold _add_edge_shadow in H. rewrite Harr in H. discriminate.
  - exfalso. destruct (array lib paper) as [arr|e] eqn:Harr.
    + rewrite (add_edge_shadow_small lib paper arr) in H by auto. discriminate.
    + unfold _add_edge_shadow in H. rewrite Harr in H. discriminate.
Qed.

End ShadowFacts.

(** The edge shadow needs a paper of at least 40 by 40 pixels: on a
    smaller one the loop runs off the array and the pass raises (an
    IndexError, unless the conversion of an empty raster has raised
    before). On a larger one it returns a raster of the same size and mode
    on which every pixel at 40 pixels or more from all four edges has only
    gone through the conversion to float32 and back. *)
Theorem edge_shadow_needs_forty_pixels
    (V : Type) (of_pixel : Pixel -> V) (darkened : Z -> V -> V) (to_pixel : V -> Pixel)
    (lib : Versions) (paper : Image) :
  match _add_edge_shadow V of_pixel darkened to_pixel lib paper with
  | Ok out =>
      40 <= PIL.width paper /\ 40 <= PIL.height paper /\
      size out = size paper /\ mode out = mode paper /\
      forall x y,
        40 <= x < PIL.width paper - 40 -> 40 <= y < PIL.height paper - 40 ->
        getpixel out x y = to_pixel (of_pixel (getpixel paper x y))
  | Raise e =>
      (PIL.width paper < 40 \/ PIL.height paper < 40) /\
      (e = IndexError \/ array_of_empty lib = Some e)
  end.
Proof.
  destruct (Z.le_gt_cases 40 (PIL.width paper)) as [Hw|Hw];
    [destruct (Z.le_gt_cases 40 (PIL.height paper)) as [Hh|Hh]|].
  - destruct (add_edge_shadow_large V of_pixel darkened to_pixel lib paper Hw Hh)
      as (out & -> & Hs & Hm & Hin). auto.
  - destruct (array lib paper) as [arr|e] eqn:Harr.
    + rewrite (add_edge_shadow_small V of_pixel darkened to_pixel lib paper arr) by auto.
      auto.
    + unfold _add_edge_shadow. rewrite Harr. cbn. split; [auto|]. right.
      unfold array in Harr. destruct (array_of_empty lib); [|discriminate].
      destruct (empty _ _); congruence.
  - destruct (array lib paper) as [arr|e] eqn:Harr.
    + rewrite (add_edge_shadow_small V of_pixel darkened to_pixel lib paper arr) by auto.
      auto.
    + unfold _add_edge_shadow. rewrite Harr. cbn. split; [auto|]. right.
      unfold array in Harr. destruct (array_of_empty lib); [|discriminate].
      destruct (empty _ _); congruence.
Qed.

(** ** [render] *)

Section RenderFacts.

Variable V : Type.
Variable of_pixel : Pixel -> V.
Variable darkened : Z -> V -> V.
Variable to_pixel : V -> Pixel.
Variable noise : Z -> Z -> Z -> Z.
Variable lines_drawn : list DrawOp -> Image -> Pixels.
Variable ellipses_drawn : list Ellipse -> Image -> Pixels.
Variable lib : Versions.

Lemma grained_new_ok m width height color paper :
  (paper0 ← checked_new m (width, height) color; _add_grain lib noise paper0) = Ok paper ->
  size paper = (width, height) /\ mode paper = m /\ 0 <= width /\ 0 <= height.
Proof.
  unfold checked_new. cbn [fst snd].
  destruct (Z.ltb_spec width 0) as [?|Hw]; [discriminate|].
  destruct (Z.ltb_spec height 0) as [?|Hh]; [discriminate|]. cbn.
  unfold _add_grain. destruct (array lib _) as [arr|e]; [|discriminate]. cbn.
  intros H. apply fromarray_ok in H. subst paper. auto.
Qed.

Lemma grained_new_succeeds m width height color :
  0 < width -> 0 < height ->
  exists paper,
    (paper0 ← checked_new m (width, height) color; _add_grain lib noise paper0)
      = Ok paper.
Proof.
  intros Hw Hh. unfold checked_new. cbn [fst snd].
  destruct (Z.ltb_spec width 0) as [?|_]; [lia|].
  destruct (Z.ltb_spec height 0) as [?|_]; [lia|]. cbn.
  unfold _add_grain. rewrite array_succeeds by (cbn; lia). cbn.
  rewrite fromarray_succeeds by lia. eauto.
Qed.

Lemma proper_pattern fuel paper_type w h config :
  proper (pattern fuel paper_type w h config).
Proof.
  destruct paper_type; cbn [pattern].
  - apply proper_draw_lined.
  - rewrite bind_unfold. apply proper_bind; [apply proper_draw_graph|].
    intros; constructor.
  - constructor.
  - constructor.
Qed.

Lemma proper_add_coffee_stains paper : proper (_add_coffee_stains ellipses_drawn paper).
Proof.
  unfold _add_coffee_stains. apply proper_bindE; [apply proper_stains|].
  intros; constructor.
Qed.

Lemma proper_render fuel paper_type width height config :
  proper (render V of_pixel darkened to_pixel noise lines_drawn ellipses_drawn lib fuel paper_type width height config).
Proof.
  unfold render. destruct (_ ≫= _); [|constructor].
  apply proper_bind; [apply proper_pattern|].
  intros [[ops|e]|]; try constructor.
  apply proper_bind; [|intros; constructor].
  destruct (Schemas.enable_coffee_stains config);
    [apply proper_add_coffee_stains | constructor].
Qed.

Lemma render_run fuel paper_type width height config draws r :
  Runs (render V of_pixel darkened to_pixel noise lines_drawn ellipses_drawn lib fuel paper_type width height config) draws r ->
  match r with
  | Some (Ok paper) =>
      size paper = (width, height) /\ mode paper = RGB /\
      (Schemas.enable_page_shadows config = true -> 40 <= width /\ 40 <= height) /\
      (Schemas.enable_coffee_stains config = true -> 200 <= width /\ 200 <= height)
  | _ => True
  end.
Proof.
  unfold render.
  destruct (_ ≫= _) as [paper|e] eqn:Hnew; [|intros H; inversion H; subst; exact I].
  apply grained_new_ok in Hnew as (Hs & Hm & Hw & Hh).
  intros H. apply Runs_bind_inv in H as (d1 & d2 & drawn & -> & Hdrawn & H).
  destruct drawn as [[ops|e]|]; try (inversion H; subst; exact I).
  apply Runs_bind_inv in H as (d3 & d4 & stained & -> & Hst & H).
  inversion H; subst. clear H.
  assert (PIL.width paper = width /\ PIL.height paper = height) as [Hpw Hph]
    by (unfold size in Hs; split; congruence).
  set (paper' := mkImage (mode paper) (PIL.width paper) (PIL.height paper)
                         (lines_drawn ops paper)) in *.
  assert (match stained with
          | Ok p => size p = (width, height) /\ mode p = RGB /\
                    (Schemas.enable_coffee_stains config = true ->
                     200 <= width /\ 200 <= height)
          | Raise _ => True
          end) as Hstained.
  { destruct (Schemas.enable_coffee_stains config).
    - apply add_coffee_stains_run in Hst. destruct stained as [p|]; [|exact I].
      destruct Hst as (Hps & Hpm & Hw2 & Hh2). unfold paper', size in *. cbn in *.
      split; [congruence|]. split; [assumption|]. intros _. lia.
    - inversion Hst; subst. unfold paper', size. cbn.
      split; [congruence|]. split; [assumption|]. discriminate. }
  destruct stained as [p|e]; [|exact I]. cbn.
  destruct Hstained as (Hps & Hpm & Hst200).
  destruct (Schemas.enable_page_shadows config).
  - destruct (_add_edge_shadow _ _ _ _ _ p) as [out|e] eqn:Hout; [|exact I].
    apply add_edge_shadow_ok in Hout as (Hos & Hom & Hw40 & Hh40).
    assert (PIL.width p = width /\ PIL.height p = height) as [<- <-]
      by (unfold size in Hps; split; congruence).
    repeat split; try congruence; try lia; apply Hst200; assumption.
  - repeat split; try assumption; try discriminate; apply Hst200; assumption.
Qed.

Lemma pattern_unlined_run fuel paper_type w h config draws r :
  paper_type <> LINED ->
  Runs (pattern fuel paper_type w h config) draws r -> exists ops, r = Some (Ok ops).
Proof.
  intros Hl. destruct paper_type; [congruence| | |]; cbn [pattern]; intros H.
  - rewrite bind_unfold in H.
    apply Runs_bind_inv in H as (d1 & d2 & ops & -> & _ & H). inversion H; subst. eauto.
  - inversion H; subst. eauto.
  - inversion H; subst. eauto.
Qed.

Lemma render_unlined_succeeds fuel paper_type width height config draws r :
  paper_type <> LINED ->
  40 <= width -> 40 <= height ->
  (Schemas.enable_coffee_stains config = true -> 200 <= width /\ 200 <= height) ->
  Runs (render V of_pixel darkened to_pixel noise lines_drawn ellipses_drawn lib fuel
          paper_type width height config) draws r ->
  exists paper, r = Some (Ok paper).
Proof.
  intros Hl Hw Hh Hst. unfold render.
  destruct (grained_new_succeeds RGB width height base_color) as (paper & Hnew);
    [lia | lia |].
  rewrite Hnew. apply grained_new_ok in Hnew as (Hs & Hm & _).
  assert (PIL.width paper = width /\ PIL.height paper = height) as [Hpw Hph]
    by (unfold size in Hs; split; congruence).
  intros H. apply Runs_bind_inv in H as (d1 & d2 & drawn & -> & Hdrawn & H).
  apply pattern_unlined_run in Hdrawn as (ops & ->); [|assumption].
  apply Runs_bind_inv in H as (d3 & d4 & stained & -> & Hstained & H).
  inversion H; subst. clear H.
  assert (exists p, stained = Ok p /\ PIL.width p = PIL.width paper /\
                    PIL.height p = PIL.height paper) as (p & -> & Hpw' & Hph').
  { destruct (Schemas.enable_coffee_stains config).
    - apply add_coffee_stains_run in Hstained. destruct stained as [p|e].
      + exists p. destruct Hstained as (Hps & _). unfold size in Hps. cbn in Hps.
        split; [reflexivity|]. split; congruence.
      + cbn in Hstained. destruct (Hst eq_refl). lia.
    - inversion Hstained; subst. eexists. split; [reflexivity|]. split; reflexivity. }
  cbn. destruct (Schemas.enable_page_shadows config); [|eauto].
  destruct (add_edge_shadow_large V of_pixel darkened to_pixel lib p)
    as (out & -> & _); [lia | lia | eauto].
Qed.

Lemma pattern_lined_run fuel w h config draws r :
  0 < Schemas.line_spacing config -> 15 < w ->
  Py.int (Py.of_int w * 0.12)%float <> None ->
  (Z.to_nat h < fuel)%nat ->
  Runs (pattern fuel LINED w h config) draws r -> exists ops, r = Some (Ok ops).
Proof.
  intros Hs Hw Hm Hfuel. cbn [pattern]. unfold _draw_lined.
  destruct (Py.int _) as [margin_x|]; [|congruence].
  rewrite bind_unfold. intros H.
  apply Runs_bind_inv in H as (d1 & d2 & rules & -> & Hrules & H).
  inversion H; subst. clear H.
  set (S := Schemas.line_spacing config) in *.
  assert (turns h S (S + 40) <= Z.max 0 h) as Hturns.
  { unfold turns. replace (h - 20 - (S + 40) + S - 1) with (h - 61) by lia.
    destruct (Z.le_gt_cases 0 (h - 61)).
    - assert ((h - 61) / S <= h - 61) by (apply Z.div_le_upper_bound; nia). lia.
    - assert ((h - 61) / S < 0) by (apply Z.div_lt_upper_bound; lia). lia. }
  apply rule_lines_count in Hrules as (ops & -> & _); try assumption; [|lia].
  cbn. eauto.
Qed.

Lemma render_lined_succeeds fuel width height config draws r :
  40 <= width -> 40 <= height ->
  (Schemas.enable_coffee_stains config = true -> 200 <= width /\ 200 <= height) ->
  0 < Schemas.line_spacing config ->
  Py.int (Py.of_int width * 0.12)%float <> None ->
  (Z.to_nat height < fuel)%nat ->
  Runs (render V of_pixel darkened to_pixel noise lines_drawn ellipses_drawn lib fuel
          LINED width height config) draws r ->
  exists paper, r = Some (Ok paper).
Proof.
  intros Hw Hh Hst Hsp Hm Hfuel. unfold render.
  destruct (grained_new_succeeds RGB width height base_color) as (paper & Hnew);
    [lia | lia |].
  rewrite Hnew. apply grained_new_ok in Hnew as (Hs & Hmode & _).
  assert (PIL.width paper = width /\ PIL.height paper = height) as [Hpw Hph]
    by (unfold size in Hs; split; congruence).
  intros H. apply Runs_bind_inv in H as (d1 & d2 & drawn & -> & Hdrawn & H).
  apply pattern_lined_run in Hdrawn as (ops & ->); try assumption; [|lia].
  apply Runs_bind_inv in H as (d3 & d4 & stained & -> & Hstained & H).
  inversion H; subst. clear H.
  assert (exists p, stained = Ok p /\ PIL.width p = PIL.width paper /\
                    PIL.height p = PIL.height paper) as (p & -> & Hpw' & Hph').
  { destruct (Schemas.enable_coffee_stains config).
    - apply add_coffee_stains_run in Hstained. destruct stained as [p|e].
      + exists p. destruct Hstained as (Hps & _). unfold size in Hps. cbn in Hps.
        split; [reflexivity|]. split; congruence.
      + cbn in Hstained. destruct (Hst eq_refl). lia.
    - inversion Hstained; subst. eexists. split; [reflexivity|]. split; reflexivity. }
  cbn. destruct (Schemas.enable_page_shadows config); [|eauto].
  destruct (add_edge_shadow_large V of_pixel darkened to_pixel lib p)
    as (out & -> & _); [lia | lia | eauto].
Qed.

End RenderFacts.

(** Whenever [render] returns a paper, it is an RGB raster of exactly the
    requested width and height; with page shadows enabled that happens
    only for pages of at least 40 by 40 pixels, with coffee stains only
    for pages of at least 200 by 200 pixels. *)
Theorem render_returns_rgb_paper_of_the_requested_size
    (V : Type) (of_pixel : Pixel -> V) (darkened : Z -> V -> V) (to_pixel : V -> Pixel)
    (noise : Z -> Z -> Z -> Z) (lines_drawn : list DrawOp -> Image -> Pixels)
    (ellipses_drawn : list Ellipse -> Image -> Pixels) (lib : Versions)
    (fuel : nat) (paper_type : PaperType) (width height : Z) (config : ProcessConfig)
    (draws : list Draw) (paper : Image) :
  Runs (render V of_pixel darkened to_pixel noise lines_drawn ellipses_drawn lib fuel
          paper_type width height config) draws (Some (Ok paper)) ->
  size paper = (width, height) /\ mode paper = RGB /\
  (Schemas.enable_page_shadows config = true -> 40 <= width /\ 40 <= height) /\
  (Schemas.enable_coffee_stains config = true -> 200 <= width /\ 200 <= height).
Proof.
  intros H.
  exact (render_run V of_pixel darkened to_pixel noise lines_drawn ellipses_drawn lib
           fuel paper_type width height config draws (Some (Ok paper)) H).
Qed.

(** On a page of at least 40 by 40 pixels (200 by 200 with coffee stains)
    [render] returns a paper against every random source and for every
    paper type; for lined paper the rule loop is given more turns than
    the page has pixel rows. *)
Theorem render_succeeds_on_pages_of_forty_pixels
    (V : Type) (of_pixel : Pixel -> V) (darkened : Z -> V -> V) (to_pixel : V -> Pixel)
    (noise : Z -> Z -> Z -> Z) (lines_drawn : list DrawOp -> Image -> Pixels)
    (ellipses_drawn : list Ellipse -> Image -> Pixels) (lib : Versions)
    (fuel : nat) (paper_type : PaperType) (width height : Z) (config : ProcessConfig)
    (src : Source) (i : nat) :
  40 <= width -> 40 <= height ->
  (Schemas.enable_coffee_stains config = true -> 200 <= width /\ 200 <= height) ->
  (paper_type = LINED ->
   0 < Schemas.line_spacing config /\
   Py.int (Py.of_int width * 0.12)%float <> None /\
   (Z.to_nat height < fuel)%nat) ->
  exists paper,
    fst (interp (render V of_pixel darkened to_pixel noise lines_drawn ellipses_drawn
                   lib fuel paper_type width height config) src i) = Some (Ok paper) /\
    size paper = (width, height) /\ mode paper = RGB.
Proof.
  intros Hw Hh Hst Hlined.
  pose proof (interp_Runs _ src i
                (proper_render V of_pixel darkened to_pixel noise lines_drawn
                   ellipses_drawn lib fuel paper_type width height config)) as Hrun.
  destruct (interp _ src i) as [r draws]. cbn [fst snd] in *.
  assert (exists paper, r = Some (Ok paper)) as (paper & ->).
  { assert (paper_type = LINED \/ paper_type <> LINED) as [->|Hl]
      by (destruct paper_type; auto; right; discriminate).
    - destruct (Hlined eq_refl) as (Hs & Hm & Hfuel).
      exact (render_lined_succeeds V of_pixel darkened to_pixel noise lines_drawn
               ellipses_drawn lib fuel width height config draws r
               Hw Hh Hst Hs Hm Hfuel Hrun).
    - exact (render_unlined_succeeds V of_pixel darkened to_pixel noise lines_drawn
               ellipses_drawn lib fuel paper_type width height config draws r
               Hl Hw Hh Hst Hrun). }
  exists paper. split; [reflexivity|].
  apply render_run in Hrun as (Hsz & Hmode & _). auto.
Qed.

Lemma render_succeeds_on_pages_of_forty_pixels_witness :
  40 <= 1240 /\ 40 <= 1754 /\
  (Schemas.enable_coffee_stains default_config = true -> 200 <= 1240 /\ 200 <= 1754) /\
  (LINED = LINED ->
   0 < Schemas.line_spacing default_config /\
   Py.int (Py.of_int 1240 * 0.12)%float <> None /\
   (Z.to_nat 1754 < 1800)%nat) /\
  exists paper,
    fst (interp (render Pixel (fun p => p) exact_darkened (fun p => p) no_noise
                   undrawn undrawn numpy1 1800 LINED 1240 1754 default_config)
                (constant_source 0.5 0) 0) = Some (Ok paper) /\
    size paper = (1240, 1754) /\ mode paper = RGB.
Proof.
  assert (LINED = LINED ->
          0 < Schemas.line_spacing default_config /\
          Py.int (Py.of_int 1240 * 0.12)%float <> None /\
          (Z.to_nat 1754 < 1800)%nat) as Hlined.
  { intros _. split; [reflexivity|]. split; [vm_compute; discriminate | lia]. }
  assert (Schemas.enable_coffee_stains default_config = true ->
          200 <= 1240 /\ 200 <= 1754) as Hst by (intros _; lia).
  split; [lia|]. split; [lia|]. split; [exact Hst|]. split; [exact Hlined|].
  exact (render_succeeds_on_pages_of_forty_pixels Pixel (fun p => p) exact_darkened
           (fun p => p) no_noise undrawn undrawn numpy1 1800 LINED 1240 1754
           default_config (constant_source 0.5 0) 0
           ltac:(lia) ltac:(lia) Hst Hlined).
Defined.

Lemma render_returns_rgb_paper_of_the_requested_size_witness :
  exists draws paper,
    Runs (render Pixel (fun p => p) exact_darkened (fun p => p) no_noise undrawn undrawn
            numpy1 0 GRAPH 1240 1754 default_config) draws (Some (Ok paper)) /\
    size paper = (1240, 1754) /\ mode paper = RGB /\
    (Schemas.enable_page_shadows default_config = true -> 40 <= 1240 /\ 40 <= 1754) /\
    (Schemas.enable_coffee_stains default_config = true -> 200 <= 1240 /\ 200 <= 1754).
Proof.
  pose proof (interp_Runs _ (constant_source 0.5 0) 0
                (proper_render Pixel (fun p => p) exact_darkened (fun p => p) no_noise
                   undrawn undrawn numpy1 0 GRAPH 1240 1754 default_config)) as Hrun.
  destruct (render_unlined_succeeds Pixel (fun p => p) exact_darkened (fun p => p)
              no_noise undrawn undrawn numpy1 0 GRAPH 1240 1754 default_config _ _
              ltac:(discriminate) ltac:(lia) ltac:(lia) ltac:(discriminate) Hrun)
    as (paper & Hr).
  rewrite Hr in Hrun.
  eexists _, paper. split; [exact Hrun|].
  exact (render_returns_rgb_paper_of_the_requested_size _ _ _ _ _ _ _ _ _ _ _ _ _ _ _
           Hrun).
Defined.

(** ** The text layer and the page *)

Lemma Runs_int x draws r :
  Runs (HandwritingEngine.int x) draws r ->
  draws = [] /\
  r = of_option (Py.int x) (ValueError "cannot convert float to integer").
Proof. unfold HandwritingEngine.int. intros H. inversion H; subst. auto. Qed.

Lemma render_page_run textbbox lines_drawn lib self lines page_width page_height scale
    draws canvas :
  Runs (render_page textbbox lines_drawn lib self lines page_width page_height scale)
       draws (Ok canvas) ->
  exists canvas_w canvas_h,
    Py.int (page_width * scale)%float = Some canvas_w /\
    Py.int (page_height * scale)%float = Some canvas_h /\
    0 <= canvas_w /\ 0 <= canvas_h /\
    size canvas = (canvas_w, canvas_h) /\ mode canvas = RGBA.
Proof.
  unfold render_page. intros H.
  apply Runs_bindE_inv in H as (d1 & d2 & rw & -> & Hw & H).
  apply Runs_int in Hw as [-> ->].
  destruct (Py.int (page_width * scale)) as [canvas_w|]; cbn [of_option] in H;
    [|destruct H; discriminate].
  apply Runs_bindE_inv in H as (d3 & d4 & rh & -> & Hh & H).
  apply Runs_int in Hh as [-> ->].
  destruct (Py.int (page_height * scale)) as [canvas_h|]; cbn [of_option] in H;
    [|destruct H; discriminate].
  apply Runs_bindE_inv in H as (d5 & d6 & rc & -> & Hc & H).
  inversion Hc; subst. clear Hc. unfold checked_new in H. cbn [fst snd] in H.
  destruct (Z.ltb_spec canvas_w 0) as [?|Hw0]; [destruct H; discriminate|].
  destruct (Z.ltb_spec canvas_h 0) as [?|Hh0]; [destruct H; discriminate|].
  cbn [orb] in H.
  apply Runs_bindE_inv in H as (d7 & d8 & rl & -> & Hl & H).
  destruct rl as [ops|e]; [|destruct H; discriminate].
  exists canvas_w, canvas_h. repeat split; try assumption.
  - destruct (enable_smudges self).
    + apply apply_smudges_keeps in H as (_ & Hs & _). exact Hs.
    + inversion H; subst. reflexivity.
  - destruct (enable_smudges self).
    + apply apply_smudges_keeps in H as (Hm & _). exact Hm.
    + inversion H; subst. reflexivity.
Qed.

(** The two layers of a page fit: the orchestrator asks for a paper of
    int(width * scale) by int(height * scale) pixels, and the text layer
    [render_page] returns for the same page has exactly that size and is
    RGBA. So [compose_page] puts it on the paper without resampling it
    (the result does not depend on the resampling filter), and the page
    composed without diagrams is an RGB raster of the paper's size. *)
Theorem text_layer_fits_the_paper
    (V : Type) (of_pixel : Pixel -> V) (darkened : Z -> V -> V) (to_pixel : V -> Pixel)
    (noise : Z -> Z -> Z -> Z) (lines_drawn : list DrawOp -> Image -> Pixels)
    (ellipses_drawn : list Ellipse -> Image -> Pixels) (lib : Versions)
    (textbbox : float * float -> string -> Font -> BBox)
    (fuel : nat) (config : ProcessConfig) (self : Engine) (lines : list Line)
    (page_width page_height scale : float) (page_w page_h : Z)
    (d1 d2 : list Draw) (paper text_layer : Image)
    (lanczos : Resampler) (open_bytes : string -> option Image) :
  Py.int (page_width * scale)%float = Some page_w ->
  Py.int (page_height * scale)%float = Some page_h ->
  Runs (render V of_pixel darkened to_pixel noise lines_drawn ellipses_drawn lib fuel
          (Schemas.paper_type config) page_w page_h config) d1 (Some (Ok paper)) ->
  Runs (render_page textbbox lines_drawn lib self lines page_width page_height scale)
       d2 (Ok text_layer) ->
  size text_layer = size paper /\ mode text_layer = RGBA /\
  exists out,
    compose_page lanczos open_bytes paper (Some text_layer) [] scale = Ok out /\
    size out = (page_w, page_h) /\ mode out = RGB /\
    forall lanczos',
      compose_page lanczos' open_bytes paper (Some text_layer) [] scale = Ok out.
Proof.
  intros Hw Hh Hpaper Htext.
  apply render_run in Hpaper as (Hps & Hpm & _).
  apply render_page_run in Htext as (cw & ch & Hcw & Hch & _ & _ & Hts & Htm).
  assert (cw = page_w) as -> by congruence.
  assert (ch = page_h) as -> by congruence.
  split; [congruence|]. split; [assumption|].
  assert (forall l, compose_page l open_bytes paper (Some text_layer) [] scale
                    = Ok (PIL.convert
                            (mkImage RGBA (PIL.width paper) (PIL.height paper)
                               (fun x y => over (opaque (getpixel paper x y))
                                                (getpixel text_layer x y))) RGB))
    as Hcompose.
  { intros l. unfold compose_page, with_text.
    destruct (decide (size text_layer = size (PIL.convert paper RGBA))) as [_|Hn];
      [|exfalso; apply Hn; rewrite convert_size; congruence].
    rsimpl. unfold alpha_composite.
    match goal with
    | |- context [decide ?P] => destruct (decide P) as [_|Hn]
    end;
      [|exfalso; apply Hn; rewrite convert_mode, convert_size;
        repeat split; congruence].
    rsimpl. cbn [paste_diagrams]. rsimpl.
    destruct paper as [m w h px]. cbn in Hpm. subst m. reflexivity. }
  eexists. split; [apply Hcompose|]. split; [|split; [reflexivity | apply Hcompose]].
  unfold size in *. cbn. congruence.
Qed.

Lemma text_layer_fits_the_paper_witness :
  exists d1 paper,
    Py.int (595 * (150 / 72))%float = Some 1239 /\
    Py.int (842 * (150 / 72))%float = Some 1754 /\
    Runs (render Pixel (fun p => p) exact_darkened (fun p => p) no_noise undrawn undrawn
            numpy1 0 (Schemas.paper_type graph_config) 1239 1754 graph_config)
         d1 (Some (Ok paper)) /\
    Runs (render_page box_metrics undrawn numpy1 other_engine [] 595 842 (150 / 72))
         [] (Ok (blank_text 1239 1754)) /\
    size (blank_text 1239 1754) = size paper /\ mode (blank_text 1239 1754) = RGBA /\
    exists out,
      compose_page nearest no_bytes paper (Some (blank_text 1239 1754)) []
                   (150 / 72) = Ok out /\
      size out = (1239, 1754) /\ mode out = RGB /\
      forall lanczos',
        compose_page lanczos' no_bytes paper (Some (blank_text 1239 1754)) []
                     (150 / 72) = Ok out.
Proof.
  pose proof (interp_Runs _ (constant_source 0.5 0) 0
                (proper_render Pixel (fun p => p) exact_darkened (fun p => p) no_noise
                   undrawn undrawn numpy1 0 GRAPH 1239 1754 graph_config)) as Hrun.
  destruct (render_unlined_succeeds Pixel (fun p => p) exact_darkened (fun p => p)
              no_noise undrawn undrawn numpy1 0 GRAPH 1239 1754 graph_config _ _
              ltac:(discriminate) ltac:(lia) ltac:(lia) ltac:(discriminate) Hrun)
    as (paper & Hr).
  rewrite Hr in Hrun.
  assert (Py.int (595 * (150 / 72))%float = Some 1239) as Hw
    by (vm_compute; reflexivity).
  assert (Py.int (842 * (150 / 72))%float = Some 1754) as Hh
    by (vm_compute; reflexivity).
  assert (Runs (render_page box_metrics undrawn numpy1 other_engine [] 595 842 (150 / 72))
               [] (Ok (blank_text 1239 1754))) as Htext.
  { unfold render_page, HandwritingEngine.int. rewrite Hw, Hh. cbn. constructor. }
  eexists _, paper. split; [exact Hw|]. split; [exact Hh|].
  split; [exact Hrun|]. split; [exact Htext|].
  exact (text_layer_fits_the_paper Pixel (fun p => p) exact_darkened (fun p => p)
           no_noise undrawn undrawn numpy1 box_metrics 0 graph_config other_engine []
           595 842 (150 / 72) 1239 1754 _ [] paper (blank_text 1239 1754)
           nearest no_bytes Hw Hh Hrun Htext).
Defined.

(** ** What a conversion keeps *)

Lemma orig_path_is_not_cached_path self h : orig_path self h <> cached_path self h.
Proof.
  unfold orig_path, cached_path. intros H.
  apply (f_equal String.length) in H. rewrite !string_length_app in H.
  simpl in H. lia.
Qed.

Lemma convert_single_cases self api world diagram :
  let h := image_hash diagram in
  (exists blob,
     files world !! cached_path self h = Some blob /\
     _convert_single self api world diagram =
       (Ok (set_from_cache
              (set_converted diagram (Some (as_image (PIL.convert blob RGBA)))) true),
        world, [])) \/
  (exists entry blob,
     files world !! cached_path self h = None /\
     db_hit world h = Some (entry, blob) /\
     _convert_single self api world diagram =
       (Ok (set_from_cache
              (set_converted diagram (Some (as_image (PIL.convert blob RGBA)))) true),
        mkWorld (files world) ((fun table => touch table h (utcnow world)) <$> db world)
                (utcnow world), [])) \/
  (files world !! cached_path self h = None /\ db_hit world h = None /\
   configured self = false /\
   _convert_single self api world diagram =
     (Ok (set_warning (set_converted diagram (original_of diagram))
            "No Imagen API key configured. Using original diagram."), world, [])) \/
  (exists events,
     files world !! cached_path self h = None /\ db_hit world h = None /\
     configured self = true /\
     _call_imagen api diagram (_detect_type diagram) = (None, events) /\
     _convert_single self api world diagram =
       (Ok (set_warning
              match image diagram with
              | Some orig => set_converted diagram (Some (as_image orig))
              | None => diagram
              end "AI conversion failed. Using original."), world, events)) \/
  (exists img events,
     files world !! cached_path self h = None /\ db_hit world h = None /\
     configured self = true /\
     _call_imagen api diagram (_detect_type diagram) = (Some img, events) /\
     let files1 := <[cached_path self h := img]> (files world) in
     match db world with
     | None =>
         _convert_single self api world diagram =
           (Ok (set_converted diagram (Some (as_image img))),
            mkWorld files1 None (utcnow world), events)
     | Some table =>
         let files2 := match image diagram with
                       | Some orig => <[orig_path self h := orig]> files1
                       | None => files1
                       end in
         let row := mkDiagramCache h (_detect_type diagram) (orig_path self h)
                      (cached_path self h) (utcnow world) (utcnow world) in
         match first_entry table h with
         | None =>
             _convert_single self api world diagram =
               (Ok (set_converted diagram (Some (as_image img))),
                mkWorld files2 (Some (table ++ [row])) (utcnow world), events)
         | Some _ =>
             _convert_single self api world diagram =
               (Raise (IntegrityError
                         "UNIQUE constraint failed: diagram_cache.image_hash"),
                mkWorld files2 (Some table) (utcnow world), events)
         end
     end).
Proof.
  intros h. unfold _convert_single. fold h.
  destruct (files world !! cached_path self h) as [blob|] eqn:Hfile; [left; eauto|].
  destruct (db_hit world h) as [[entry blob]|] eqn:Hhit; [right; left; eauto 10|].
  destruct (configured self) eqn:Hkey; cbn [negb]; [|right; right; left; auto].
  destruct (_call_imagen api diagram (_detect_type diagram)) as [[img|] events] eqn:Hcall.
  - right; right; right; right. exists img, events.
    repeat (split; [reflexivity || assumption|]).
    cbn zeta. destruct (db world) as [table|]; [|reflexivity].
    unfold add_commit. cbn [Models.image_hash].
    destruct (first_entry table h); reflexivity.
  - right; right; right; left. exists events. auto.
Qed.

Lemma first_entry_none table h : first_entry table h = None -> ~ In h (hashes table).
Proof.
  unfold first_entry, hashes. induction table as [|row table IH]; simpl; [auto|].
  destruct (String.eqb_spec (Models.image_hash row) h) as [He|Hne]; [discriminate|].
  intros Hf [Hin|Hin]; [congruence | exact (IH Hf Hin)].
Qed.

Lemma hashes_touch table h now : hashes (touch table h now) = hashes table.
Proof.
  unfold hashes, touch. rewrite map_map. apply map_ext.
  intros row. destruct (String.eqb _ h); reflexivity.
Qed.

Lemma cache_grown_refl world : cache_grown world world.
Proof.
  split; [auto|]. split; [reflexivity|].
  destruct (db world); [|exact I]. split; [exists []; rewrite app_nil_r|]; auto.
Qed.

Lemma cache_grown_trans w1 w2 w3 : cache_grown w1 w2 -> cache_grown w2 w3 -> cache_grown w1 w3.
Proof.
  intros (Hf1 & Hn1 & Hd1) (Hf2 & Hn2 & Hd2).
  split; [auto|]. split; [congruence|].
  destruct (db w1), (db w2), (db w3); try contradiction; try exact I.
  destruct Hd1 as [[a1 Ha1] Hu1], Hd2 as [[a2 Ha2] Hu2]. split; [|auto].
  exists (a1 ++ a2). rewrite Ha2, Ha1, app_assoc. reflexivity.
Qed.

Lemma is_Some_insert (m : gmap string Image) k v path :
  is_Some (m !! path) -> is_Some (<[k := v]> m !! path).
Proof.
  intros H. destruct (decide (k = path)) as [->|Hne].
  - rewrite lookup_insert_eq. eauto.
  - rewrite lookup_insert_ne by assumption. exact H.
Qed.

Lemma convert_single_grows self api world diagram r world' events :
  _convert_single self api world diagram = (r, world', events) ->
  cache_grown world world'.
Proof.
  intros H.
  destruct (convert_single_cases self api world diagram)
    as [(blob & _ & Hc)|[(entry & blob & _ & _ & Hc)|[(_ & _ & _ & Hc)
       |[(ev & _ & _ & _ & _ & Hc)|(img & ev & _ & _ & _ & _ & Hc)]]]].
  - rewrite Hc in H. injection H as <- <- <-. apply cache_grown_refl.
  - rewrite Hc in H. injection H as <- <- <-.
    split; [auto|]. split; [reflexivity|]. cbn [db].
    destruct (db world) as [table|]; cbn; [|exact I].
    rewrite hashes_touch. split; [exists []; rewrite app_nil_r|]; auto.
  - rewrite Hc in H. injection H as <- <- <-. apply cache_grown_refl.
  - rewrite Hc in H. injection H as <- <- <-. apply cache_grown_refl.
  - cbn zeta in Hc. destruct (db world) as [table|] eqn:Hdb.
    + assert (forall path,
                is_Some (files world !! path) ->
                is_Some (match image diagram with
                         | Some orig =>
                             <[orig_path self (image_hash diagram) := orig]>
                               (<[cached_path self (image_hash diagram) := img]>
                                  (files world))
                         | None =>
                             <[cached_path self (image_hash diagram) := img]>
                               (files world)
                         end !! path)) as Hfiles.
      { intros path Hp. destruct (image diagram);
          repeat apply is_Some_insert; assumption. }
      destruct (first_entry table (image_hash diagram)) eqn:Hentry;
        rewrite Hc in H; injection H as <- <- <-;
        (split; [exact Hfiles|]); (split; [reflexivity|]); cbn [db]; rewrite Hdb.
      * split; [exists []; rewrite app_nil_r|]; auto.
      * unfold hashes. rewrite map_app. cbn [map Models.image_hash].
        split; [eauto|]. intros Hnd. apply NoDup_app. split; [assumption|].
        split; [|apply NoDup_singleton].
        intros h Hin Hin'. apply list_elem_of_singleton in Hin'. subst h.
        apply first_entry_none in Hentry. apply Hentry.
        apply list_elem_of_In. exact Hin.
    + rewrite Hc in H. injection H as <- <- <-.
      split; [intros path Hp; apply is_Some_insert; assumption|].
      split; [reflexivity|]. cbn [db]. rewrite Hdb. exact I.
Qed.

Lemma convert_diagrams_grows self api diagrams world r world' events :
  convert_diagrams self api world diagrams = (r, world', events) ->
  cache_grown world world'.
Proof.
  revert world r world' events.
  induction diagrams as [|d ds IH]; intros world r world' events H; simpl in H.
  - injection H as <- <- <-. apply cache_grown_refl.
  - destruct (_convert_single self api world d) as [[[c|e] w1] ev1] eqn:H1.
    + destruct (convert_diagrams self api w1 ds) as [[r2 w2] ev2] eqn:H2.
      injection H as <- <- <-.
      eapply cache_grown_trans;
        [eapply convert_single_grows | eapply IH]; eassumption.
    + injection H as <- <- <-. eapply convert_single_grows; eassumption.
Qed.

(** A conversion only ever grows the cache, whether it returns or raises:
    no file is removed, no index row is removed or has its hash changed,
    new rows come after the old ones, and an index whose hashes are unique
    before a page's diagrams are converted has unique hashes after it. *)
Theorem conversion_only_grows_the_cache
    (self : Converter) (api : Service) (world world' : World)
    (diagrams : list Diagram) (r : Result (list Diagram)) (events : list Event) :
  convert_diagrams self api world diagrams = (r, world', events) ->
  (forall path, is_Some (files world !! path) -> is_Some (files world' !! path)) /\
  utcnow world' = utcnow world /\
  match db world, db world' with
  | Some table, Some table' =>
      (exists added, hashes table' = hashes table ++ added) /\
      (NoDup (hashes table) -> NoDup (hashes table'))
  | None, None => True
  | _, _ => False
  end.
Proof. apply convert_diagrams_grows. Qed.

Lemma conversion_only_grows_the_cache_witness :
  convert_diagrams converter (always (Stylized sketch)) stale_world [region]
    = (fst (fst (convert_diagrams converter (always (Stylized sketch)) stale_world
                   [region])),
       snd (fst (convert_diagrams converter (always (Stylized sketch)) stale_world
                   [region])),
       snd (convert_diagrams converter (always (Stylized sketch)) stale_world
              [region])) /\
  cache_grown stale_world
    (snd (fst (convert_diagrams converter (always (Stylized sketch)) stale_world
                 [region]))).
Proof.
  assert (forall {A B C} (p : A * B * C), p = (fst (fst p), snd (fst p), snd p)) as Hp
    by (intros A B C [[a b] c]; reflexivity).
  split; [apply Hp|].
  exact (conversion_only_grows_the_cache converter (always (Stylized sketch))
           stale_world _ [region] _ _ (Hp _ _ _ _)).
Defined.

Lemma call_imagen_no_call_without_key :
  forall self api world diagram,
    configured self = false ->
    exists converted world',
      _convert_single self api world diagram = (Ok converted, world', []) /\
      same_region diagram converted /\
      files world' = files world /\
      (hashes <$> db world') = (hashes <$> db world).
Proof.
  intros self api world diagram Hkey.
  destruct (convert_single_cases self api world diagram)
    as [(blob & _ & Hc)|[(entry & blob & _ & _ & Hc)|[(_ & _ & _ & Hc)
       |[(ev & _ & _ & Hk & _)|(img & ev & _ & _ & Hk & _)]]]];
    try congruence; rewrite Hc; eexists _, _;
    (split; [reflexivity|]); (split; [repeat split|]); (split; [reflexivity|]);
    try reflexivity.
  cbn [db]. destruct (db world); cbn; [rewrite hashes_touch|]; reflexivity.
Qed.

(** Without an API key (empty, or the placeholder of the sample
    settings) the converter never calls the stylization service, never
    sleeps and never raises: every diagram of the page comes back, in
    order and with its raster, hash and placement untouched, and no file
    and no index row is added. *)
Theorem unconfigured_converter_makes_no_call
    (self : Converter) (api : Service) (world : World) (diagrams : list Diagram) :
  configured self = false ->
  exists results world',
    convert_diagrams self api world diagrams = (Ok results, world', []) /\
    Forall2 same_region diagrams results /\
    files world' = files world /\
    (hashes <$> db world') = (hashes <$> db world).
Proof.
  intros Hkey. revert world.
  induction diagrams as [|d ds IH]; intros world; simpl.
  - exists [], world. repeat split. constructor.
  - destruct (call_imagen_no_call_without_key self api world d Hkey)
      as (c & w1 & -> & Hsame & Hf1 & Hd1).
    destruct (IH w1) as (results & w2 & -> & Hall & Hf2 & Hd2).
    exists (c :: results), w2. cbn. repeat split; try congruence.
    constructor; assumption.
Qed.

Lemma unconfigured_converter_makes_no_call_witness :
  configured keyless = false /\
  exists results world',
    convert_diagrams keyless (always (Stylized sketch)) stale_world [region; region]
      = (Ok results, world', []) /\
    Forall2 same_region [region; region] results /\
    files world' = files stale_world /\
    (hashes <$> db world') = (hashes <$> db stale_world).
Proof.
  split; [reflexivity|].
  exact (unconfigured_converter_makes_no_call keyless (always (Stylized sketch))
           stale_world [region; region] eq_refl).
Defined.

Lemma convert_single_same_region self api world diagram converted world' events :
  _convert_single self api world diagram = (Ok converted, world', events) ->
  same_region diagram converted.
Proof.
  intros H.
  destruct (convert_single_cases self api world diagram)
    as [(blob & _ & Hc)|[(entry & blob & _ & _ & Hc)|[(_ & _ & _ & Hc)
       |[(ev & _ & _ & _ & _ & Hc)|(img & ev & _ & _ & _ & _ & Hc)]]]].
  1-3: rewrite Hc in H; injection H as <- <- <-; repeat split.
  - rewrite Hc in H. injection H as <- <- <-. destruct (image diagram); repeat split.
  - cbn zeta in Hc. destruct (db world) as [table|].
    + destruct (first_entry table (image_hash diagram));
        rewrite Hc in H; [discriminate|]. injection H as <- <- <-. repeat split.
    + rewrite Hc in H. injection H as <- <- <-. repeat split.
Qed.

Lemma keyless_conversion_run :
  exists results world',
    convert_diagrams keyless (always (Stylized sketch)) stale_world [region; region]
      = (Ok results, world', []).
Proof. eexists _, _. vm_compute. reflexivity. Qed.

(** When [convert_diagrams] returns, it returns one dict per diagram of
    the page, in the order of the input, each with the raster, the bytes,
    the hash and the placement (x, y, width, height) it came with: only
    the converted image, the cache flag and the warning are written. *)
Theorem converted_diagrams_keep_order_and_placement
    (self : Converter) (api : Service) (world world' : World)
    (diagrams results : list Diagram) (events : list Event) :
  convert_diagrams self api world diagrams = (Ok results, world', events) ->
  Forall2 same_region diagrams results.
Proof.
  revert world results world' events.
  induction diagrams as [|d ds IH]; intros world results world' events H; simpl in H.
  - injection H as <- <- <-. constructor.
  - destruct (_convert_single self api world d) as [[[c|e] w1] ev1] eqn:H1;
      [|discriminate].
    destruct (convert_diagrams self api w1 ds) as [[[rs|e] w2] ev2] eqn:H2;
      cbn in H; [|discriminate].
    injection H as <- <- <-. constructor.
    + eapply convert_single_same_region; eassumption.
    + eapply IH; eassumption.
Qed.

Lemma converted_diagrams_keep_order_and_placement_witness :
  exists results world',
    convert_diagrams keyless (always (Stylized sketch)) stale_world [region; region]
      = (Ok results, world', []) /\
    Forall2 same_region [region; region] results.
Proof.
  destruct (keyless_conversion_run) as (results & world' & Hrun).
  exists results, world'. split; [exact Hrun|].
  exact (converted_diagrams_keep_order_and_placement keyless (always (Stylized sketch))
           stale_world world' [region; region] results [] Hrun).
Defined.

(** A stylization is paid for once. When [_convert_single] returns a
    freshly stylized image for a diagram (no cache flag, no warning), the
    image is in the file cache under the diagram's hash; from then on
    every conversion of a diagram with that hash returns the cached image
    as RGBA with the cache flag set, without a call to the service,
    without a sleep, and without touching the cache, whatever the service
    would answer. *)
Theorem stylized_diagram_is_served_from_the_cache
    (self : Converter) (api : Service) (world world' : World)
    (diagram converted : Diagram) (events : list Event) :
  from_cache diagram = None -> warning diagram = None ->
  _convert_single self api world diagram = (Ok converted, world', events) ->
  from_cache converted = None -> warning converted = None ->
  exists img,
    converted_image converted = Some (as_image img) /\
    files world' !! cached_path self (image_hash diagram) = Some img /\
    forall (api' : Service) (diagram' : Diagram),
      image_hash diagram' = image_hash diagram ->
      _convert_single self api' world' diagram' =
        (Ok (set_from_cache
               (set_converted diagram' (Some (as_image (PIL.convert img RGBA)))) true),
         world', []).
Proof.
  intros Hfc Hwarn H Hfresh Hnowarn.
  assert (forall img files',
            files' !! cached_path self (image_hash diagram) = Some img ->
            forall db' now (api' : Service) (diagram' : Diagram),
              image_hash diagram' = image_hash diagram ->
              _convert_single self api' (mkWorld files' db' now) diagram' =
                (Ok (set_from_cache
                       (set_converted diagram'
                          (Some (as_image (PIL.convert img RGBA)))) true),
                 mkWorld files' db' now, [])) as Hhit.
  { intros img files' Hfile db' now api' diagram' Hh.
    unfold _convert_single. rewrite Hh. cbn [files]. rewrite Hfile. reflexivity. }
  destruct (convert_single_cases self api world diagram)
    as [(blob & _ & Hc)|[(entry & blob & _ & _ & Hc)|[(_ & _ & _ & Hc)
       |[(ev & _ & _ & _ & _ & Hc)|(img & ev & _ & _ & _ & _ & Hc)]]]].
  1-4: rewrite Hc in H; injection H as <- <- <-; cbn in Hfresh, Hnowarn; discriminate.
  cbn zeta in Hc. destruct (db world) as [table|].
  - destruct (first_entry table (image_hash diagram));
      rewrite Hc in H; [discriminate|]. injection H as <- <- <-.
    exists img. split; [reflexivity|].
    assert (match image diagram with
            | Some orig =>
                <[orig_path self (image_hash diagram) := orig]>
                  (<[cached_path self (image_hash diagram) := img]> (files world))
            | None => <[cached_path self (image_hash diagram) := img]> (files world)
            end !! cached_path self (image_hash diagram) = Some img) as Hfile.
    { destruct (image diagram).
      - rewrite lookup_insert_ne by apply orig_path_is_not_cached_path.
        apply lookup_insert_eq.
      - apply lookup_insert_eq. }
    split; [exact Hfile|]. intros api' diagram' Hh. apply Hhit; assumption.
  - rewrite Hc in H. injection H as <- <- <-.
    exists img. split; [reflexivity|].
    split; [apply lookup_insert_eq|]. intros api' diagram' Hh.
    apply Hhit; [apply lookup_insert_eq | assumption].
Qed.

Lemma stylized_diagram_is_served_from_the_cache_witness :
  exists world' converted,
    from_cache region = None /\ warning region = None /\
    _convert_single converter (always (Stylized sketch)) (mkWorld ∅ (Some []) 20) region
      = (Ok converted, world', [Post 0]) /\
    from_cache converted = None /\ warning converted = None /\
    exists img,
      converted_image converted = Some (as_image img) /\
      files world' !! cached_path converter (image_hash region) = Some img /\
      forall (api' : Service) (diagram' : Diagram),
        image_hash diagram' = image_hash region ->
        _convert_single converter api' world' diagram' =
          (Ok (set_from_cache
                 (set_converted diagram' (Some (as_image (PIL.convert img RGBA)))) true),
           world', []).
Proof.
  destruct (fresh_entry_is_added converter (always (Stylized sketch))
              (mkWorld ∅ (Some []) 20) region [] sketch [Post 0]
              eq_refl eq_refl (lookup_empty _) eq_refl eq_refl) as (world' & Hrun & _).
  eexists world', _. split; [reflexivity|]. split; [reflexivity|].
  split; [exact Hrun|]. split; [reflexivity|]. split; [reflexivity|].
  exact (stylized_diagram_is_served_from_the_cache converter (always (Stylized sketch))
           (mkWorld ∅ (Some []) 20) world' region _ [Post 0]
           eq_refl eq_refl Hrun eq_refl eq_refl).
Defined.

(** ** Documents and the frame of a paste *)

Lemma compose_document_ok lanczos open_bytes pages_data scale composed :
  compose_document lanczos open_bytes pages_data scale = Ok composed ->
  Forall2 (fun page_data page =>
             size page = size (paper page_data) /\ mode page = RGB)
          pages_data composed.
Proof.
  revert composed. induction pages_data as [|pd rest IH]; intros composed;
    cbn [compose_document].
  - intros [= <-]. constructor.
  - destruct (compose_page lanczos open_bytes (paper pd) (text_layer pd)
                (diagrams pd) scale) as [page|] eqn:Hpage; rsimpl; [|discriminate].
    destruct (compose_document lanczos open_bytes rest scale) as [pages|] eqn:Hrest;
      rsimpl; [|discriminate].
    intros [= <-]. constructor; [|apply IH; reflexivity].
    eapply compose_page_ok. eassumption.
Qed.

Lemma compose_document_succeeds lanczos open_bytes pages_data scale :
  forallb (composable open_bytes scale) pages_data = true ->
  exists composed, compose_document lanczos open_bytes pages_data scale = Ok composed.
Proof.
  induction pages_data as [|pd rest IH]; cbn [compose_document forallb]; [eauto|].
  intros H. apply andb_true_iff in H as [Hpd Hrest].
  unfold composable in Hpd. apply andb_true_iff in Hpd as [Ht Hd].
  destruct (compose_page_succeeds lanczos open_bytes (paper pd) (text_layer pd)
              (diagrams pd) scale Ht Hd) as [page ->].
  destruct (IH Hrest) as [pages ->]. rsimpl. eauto.
Qed.

(** A document whose pages can each be composed is composed as a whole:
    [compose_document] returns one page per page data dict, in the order
    of the input, each an RGB raster of the size of its own paper. *)
Theorem compose_document_returns_one_page_per_input
    (lanczos : Resampler) (open_bytes : string -> option Image)
    (pages_data : list PageLayers) (scale : float) :
  forallb (composable open_bytes scale) pages_data = true ->
  exists composed,
    compose_document lanczos open_bytes pages_data scale = Ok composed /\
    Forall2 (fun page_data page =>
               size page = size (paper page_data) /\ mode page = RGB)
            pages_data composed.
Proof.
  intros H.
  destruct (compose_document_succeeds lanczos open_bytes pages_data scale H)
    as [composed Hc].
  exists composed. split; [assumption|]. eapply compose_document_ok. eassumption.
Qed.

Lemma compose_document_returns_one_page_per_input_witness :
  forallb (composable no_bytes 1) two_pages = true /\
  exists composed,
    compose_document nearest no_bytes two_pages 1 = Ok composed /\
    Forall2 (fun page_data page =>
               size page = size (paper page_data) /\ mode page = RGB)
            two_pages composed.
Proof.
  split; [vm_compute; reflexivity|].
  apply (compose_document_returns_one_page_per_input nearest no_bytes two_pages 1).
  vm_compute. reflexivity.
Defined.

Lemma ensure_rgba_width im : PIL.width (ensure_rgba im) = PIL.width im.
Proof. pose proof (ensure_rgba_size im) as H. unfold size in H. congruence. Qed.

Lemma ensure_rgba_height im : PIL.height (ensure_rgba im) = PIL.height im.
Proof. pose proof (ensure_rgba_size im) as H. unfold size in H. congruence. Qed.

Lemma paste_outside im src x0 y0 mask px py :
  ~ (x0 <= px < x0 + PIL.width src /\ y0 <= py < y0 + PIL.height src) ->
  getpixel (paste im src (x0, y0) mask) px py = getpixel im px py.
Proof.
  intros Hout. unfold paste. cbn [getpixel].
  destruct (inside im px py); [|reflexivity]. cbn [andb].
  destruct (inside src (px - x0) (py - y0)) eqn:Hin; [|reflexivity].
  exfalso. apply Hout. unfold inside in Hin.
  repeat (apply andb_true_iff in Hin as [Hin ?]).
  apply Z.leb_le in Hin. repeat match goal with
                                | H : (_ <=? _) = true |- _ => apply Z.leb_le in H
                                | H : (_ <? _) = true |- _ => apply Z.ltb_lt in H
                                end.
  lia.
Qed.

Lemma paste_diagram_frame lanczos open_bytes scale page diagram page' px py :
  paste_diagram lanczos open_bytes scale page diagram = Ok page' ->
  ~ covered open_bytes scale diagram px py ->
  getpixel page' px py = getpixel page px py.
Proof.
  intros H Hout. apply paste_diagram_inv in H
    as [[_ ->]|(im & x & y & w & h & r & Hu & Ht & Hr & ->)]; [reflexivity|].
  apply paste_outside. rewrite ensure_rgba_width, ensure_rgba_height.
  apply resize_ok in Hr as [Hs _]. unfold size in Hs.
  assert (PIL.width r = w /\ PIL.height r = h) as [-> ->] by (split; congruence).
  intros Hin. apply Hout. exists im, x, y, w, h. auto.
Qed.

Lemma paste_diagrams_frame lanczos open_bytes scale diagrams page page' px py :
  paste_diagrams lanczos open_bytes scale page diagrams = Ok page' ->
  (forall d, In d diagrams -> ~ covered open_bytes scale d px py) ->
  getpixel page' px py = getpixel page px py.
Proof.
  revert page. induction diagrams as [|d ds IH]; intros page; cbn [paste_diagrams].
  - intros [= <-] _. reflexivity.
  - destruct (paste_diagram lanczos open_bytes scale page d) as [p|] eqn:Hd;
      rsimpl; [|discriminate].
    intros H Hout. rewrite (IH p H) by (intros d' Hin; apply Hout; right; assumption).
    eapply paste_diagram_frame; [eassumption|]. apply Hout. left. reflexivity.
Qed.

(** A diagram is pasted inside its target rectangle only: at a point that
    lies in the target rectangle of no diagram of the page, the composed
    page shows what the same paper and text layer give without any
    diagram. *)
Theorem diagrams_leave_the_rest_of_the_page
    (lanczos : Resampler) (open_bytes : string -> option Image)
    (paper : Image) (text_layer : option Image) (diagrams : list Diagram)
    (scale : float) (out : Image) (px py : Z) :
  compose_page lanczos open_bytes paper text_layer diagrams scale = Ok out ->
  (forall d, In d diagrams -> ~ covered open_bytes scale d px py) ->
  exists bare,
    compose_page lanczos open_bytes paper text_layer [] scale = Ok bare /\
    getpixel out px py = getpixel bare px py.
Proof.
  unfold compose_page.
  destruct (with_text lanczos paper text_layer) as [page|] eqn:Ht; rsimpl;
    [|discriminate].
  destruct (paste_diagrams lanczos open_bytes scale page diagrams) as [page'|] eqn:Hd;
    rsimpl; [|discriminate].
  intros H Hout. assert (out = PIL.convert page' RGB) as -> by congruence.
  cbn [paste_diagrams]. rsimpl. eexists. split; [reflexivity|].
  pose proof (paste_diagrams_frame _ _ _ _ _ _ px py Hd Hout) as Hpx.
  apply paste_diagrams_ok in Hd as [_ Hm].
  unfold PIL.convert. rewrite Hm. destruct (mode page); cbn [getpixel]; congruence.
Qed.

Lemma diagrams_leave_the_rest_of_the_page_witness :
  exists out,
    compose_page nearest no_bytes (white_paper 4 4) (Some (blank_text 4 4))
                 [overhanging_diagram] 1 = Ok out /\
    (forall d, In d [overhanging_diagram] -> ~ covered no_bytes 1 d 0 0) /\
    exists bare,
      compose_page nearest no_bytes (white_paper 4 4) (Some (blank_text 4 4)) [] 1
        = Ok bare /\
      getpixel out 0 0 = getpixel bare 0 0.
Proof.
  destruct (compose_page_succeeds nearest no_bytes (white_paper 4 4)
              (Some (blank_text 4 4)) [overhanging_diagram] 1 eq_refl eq_refl)
    as [out Hout].
  assert (forall d, In d [overhanging_diagram] -> ~ covered no_bytes 1 d 0 0) as Hfree.
  { intros d [<-|[]] (im & x & y & w & h & Hu & Ht & Hx & Hy).
    cbn in Hu. injection Hu as <-. vm_compute in Ht. injection Ht as <- <- <- <-. lia. }
  exists out. split; [exact Hout|]. split; [exact Hfree|].
  exact (diagrams_leave_the_rest_of_the_page nearest no_bytes (white_paper 4 4)
           (Some (blank_text 4 4)) [overhanging_diagram] 1 out 0 0 Hout Hfree).
Defined.

(** ** Diagram regions *)

Lemma extract_region_window png_bytes sha256_hexdigest page_image scale_x scale_y
    region d :
  extract_region png_bytes sha256_hexdigest page_image scale_x scale_y region = Some d ->
  window_of page_image png_bytes sha256_hexdigest d /\
  placement d = region_placement region.
Proof.
  unfold extract_region, crop_box.
  destruct (Py.int (region_x region * scale_x)) as [l|]; [|discriminate].
  destruct (Py.int (region_y region * scale_y)) as [t|]; [|discriminate].
  destruct (Py.int ((region_x region + region_width region) * scale_x)) as [r|];
    [|discriminate].
  destruct (Py.int ((region_y region + region_height region) * scale_y)) as [b|];
    [|discriminate].
  cbn [mbind option_bind].
  destruct (Z.ltb_spec (Z.max 0 l) (Z.min (PIL.width page_image) r)) as [Hx|];
    [|discriminate].
  destruct (Z.ltb_spec (Z.max 0 t) (Z.min (PIL.height page_image) b)) as [Hy|];
    [|discriminate].
  cbn [andb]. intros [= <-]. split; [|reflexivity].
  exists (crop page_image (Z.max 0 l, Z.max 0 t, Z.min (PIL.width page_image) r,
                           Z.min (PIL.height page_image) b)),
         (Z.max 0 l), (Z.max 0 t).
  cbn [crop PIL.width PIL.height getpixel mode image image_bytes image_hash
       converted_image].
  repeat match goal with |- _ /\ _ => split end; try lia; try reflexivity.
  intros x y. f_equal; lia.
Qed.

Lemma extract_diagram_images_run png_bytes sha256_hexdigest page_image page_size
    image_regions extracted :
  extract_diagram_images png_bytes sha256_hexdigest (Some page_image) page_size
                         image_regions = Ok extracted ->
  Forall (window_of page_image png_bytes sha256_hexdigest) extracted /\
  sublist (map placement extracted) (map region_placement image_regions).
Proof.
  unfold extract_diagram_images.
  destruct image_regions as [|r0 rs] eqn:Hregions.
  { intros [= <-]. split; constructor. }
  rewrite <- Hregions. clear Hregions.
  destruct (truediv _ (fst page_size)) as [scale_x|]; rsimpl; [|discriminate].
  destruct (truediv _ (snd page_size)) as [scale_y|]; rsimpl; [|discriminate].
  intros [= <-]. split.
  - induction image_regions as [|r rs' IH]; cbn; [constructor|].
    destruct (extract_region _ _ _ _ _ r) as [d|] eqn:Hd; [|assumption].
    constructor; [|assumption]. eapply extract_region_window. eassumption.
  - induction image_regions as [|r rs' IH]; cbn; [constructor|].
    destruct (extract_region _ _ _ _ _ r) as [d|] eqn:Hd.
    + cbn. apply extract_region_window in Hd as [_ ->]. constructor. assumption.
    + constructor. assumption.
Qed.

(** Every diagram [extract_diagram_images] returns is a window of the
    rendered page: at least one pixel wide and high, within the bounds of
    the page raster, showing the page's pixels, and carried with the PNG
    bytes of the window and their hash. Regions that fall off the page,
    are empty after the clamp or have a coordinate that is no number are
    left out; the diagrams returned keep the order and the placement of
    their regions. *)
Theorem extracted_diagrams_are_windows_of_the_page
    (png_bytes : Image -> string) (sha256_hexdigest : string -> string)
    (page_image : Image) (page_size : float * float)
    (image_regions : list Region) (extracted : list Diagram) :
  extract_diagram_images png_bytes sha256_hexdigest (Some page_image) page_size
                         image_regions = Ok extracted ->
  Forall (window_of page_image png_bytes sha256_hexdigest) extracted /\
  sublist (map placement extracted) (map region_placement image_regions).
Proof. apply extract_diagram_images_run. Qed.

Lemma extracted_diagrams_are_windows_of_the_page_witness :
  exists extracted,
    extract_diagram_images (fun _ => "PNG"%string) (fun b => b)
      (Some (white_paper 1240 1754)) (595, 842)%float
      [mkRegion 72 72 144 144; mkRegion 600 72 10 10] = Ok extracted /\
    Forall (window_of (white_paper 1240 1754) (fun _ => "PNG"%string) (fun b => b))
           extracted /\
    sublist (map placement extracted)
            (map region_placement [mkRegion 72 72 144 144; mkRegion 600 72 10 10]).
Proof.
  eexists. split; [vm_compute; reflexivity|].
  apply (extracted_diagrams_are_windows_of_the_page (fun _ => "PNG"%string)
           (fun b => b) (white_paper 1240 1754) (595, 842)%float
           [mkRegion 72 72 144 144; mkRegion 600 72 10 10]).
  vm_compute. reflexivity.
Defined.

(** ** Text lines *)

Lemma insert_sorted_perm {A} (lt : A -> A -> bool) (a : A) (l : list A) :
  Permutation (insert_sorted lt a l) (a :: l).
Proof.
  induction l as [|b l IH]; cbn; [reflexivity|].
  destruct (lt a b); [reflexivity|].
  rewrite IH. apply perm_swap.
Qed.

Lemma sorted_perm {A} (lt : A -> A -> bool) (l : list A) :
  Permutation (sorted lt l) l.
Proof.
  unfold sorted.
  assert (forall acc, Permutation (fold_left (fun acc a => insert_sorted lt a acc) l acc)
                                  (acc ++ l)) as H.
  { induction l as [|a l IH]; intros acc; cbn.
    - rewrite app_nil_r. reflexivity.
    - rewrite IH, insert_sorted_perm.
      change (a :: acc ++ l) with ((a :: acc) ++ l).
      rewrite (Permutation_middle acc l a). reflexivity. }
  apply (H []).
Qed.

Lemma line_of_elements first others y :
  Permutation (lg_elements (line_of first others y)) (first :: others) /\
  lg_elements (line_of first others y) <> [] /\
  lg_text (line_of first others y)
    = join (map te_text (lg_elements (line_of first others y))) /\
  lg_y (line_of first others y) = y /\
  exists head,
    hd_error (lg_elements (line_of first others y)) = Some head /\
    lg_x (line_of first others y) = te_x head /\
    lg_font_size (line_of first others y) = te_font_size head.
Proof.
  unfold line_of. cbn [lg_elements lg_text lg_y lg_x lg_font_size].
  pose proof (sorted_perm x_lt (first :: others)) as Hp.
  split; [exact Hp|].
  destruct (sorted x_lt (first :: others)) as [|h l] eqn:Hs.
  - apply Permutation_nil in Hp. discriminate.
  - split; [discriminate|]. split; [reflexivity|]. split; [reflexivity|].
    exists h. repeat split.
Qed.

Lemma group_from_perm first others y rest :
  Permutation (concat (map lg_elements (group_from first others y rest)))
              (first :: others ++ rest).
Proof.
  revert first others y. induction rest as [|elem rest IH]; intros first others y;
    cbn [group_from].
  - cbn [map concat]. rewrite !app_nil_r.
    exact (proj1 (line_of_elements first others y)).
  - destruct (abs (te_y elem - y) <? 5)%float.
    + rewrite IH, <- (List.app_assoc others [elem] rest). reflexivity.
    + cbn [map concat]. rewrite IH.
      destruct (line_of_elements first others y) as [Hp _]. rewrite Hp.
      apply (Permutation_app_head (first :: others)). reflexivity.
Qed.

Lemma group_from_lines first others y rest :
  Forall (fun line =>
            lg_elements line <> [] /\
            lg_text line = join (map te_text (lg_elements line)) /\
            exists head,
              hd_error (lg_elements line) = Some head /\
              lg_x line = te_x head /\ lg_font_size line = te_font_size head)
         (group_from first others y rest).
Proof.
  revert first others y. induction rest as [|elem rest IH]; intros first others y;
    cbn [group_from].
  - constructor; [|constructor].
    destruct (line_of_elements first others y) as (_ & Hne & Ht & _ & Hh). auto.
  - destruct (abs (te_y elem - y) <? 5)%float; [apply IH|].
    constructor; [|apply IH].
    destruct (line_of_elements first others y) as (_ & Hne & Ht & _ & Hh). auto.
Qed.

(** [_group_into_lines] loses no word and invents none: the elements of
    the lines it returns, taken together, are the text elements of the
    page, each exactly once. No line is empty; the text of a line is the
    texts of its elements joined by single blanks, and its x and font size
    are those of its first element. No element gives no line. *)
Theorem every_word_lands_in_one_line (text_elements : list TextElement) :
  Permutation (concat (map lg_elements (_group_into_lines text_elements)))
              text_elements /\
  Forall (fun line =>
            lg_elements line <> [] /\
            lg_text line = join (map te_text (lg_elements line)) /\
            exists head,
              hd_error (lg_elements line) = Some head /\
              lg_x line = te_x head /\ lg_font_size line = te_font_size head)
         (_group_into_lines text_elements) /\
  (_group_into_lines text_elements = [] <-> text_elements = []).
Proof.
  unfold _group_into_lines.
  pose proof (sorted_perm position_lt text_elements) as Hp.
  destruct (sorted position_lt text_elements) as [|first rest] eqn:Hs.
  - apply Permutation_nil in Hp. subst.
    split; [reflexivity|]. split; [constructor|]. split; reflexivity.
  - split; [rewrite group_from_perm; exact Hp|].
    split; [apply group_from_lines|]. split.
    + destruct rest as [|e rest]; cbn [group_from]; [discriminate|].
      destruct (abs _ <? 5)%float; [|discriminate].
      intros H. pose proof (group_from_perm first ([] ++ [e]) (te_y first) rest) as Hg.
      rewrite H in Hg. cbn in Hg. apply Permutation_nil in Hg. discriminate.
    + intros ->. apply Permutation_sym, Permutation_nil in Hp. discriminate.
Qed.

(** On the page of [three_words] the two words at y 100 and 100.5 form
    the first line, ordered by x, and the word at y 130 the second. *)
Lemma three_words_in_two_lines :
  map lg_text (_group_into_lines three_words) = ["hello world"; "next"]%string.
Proof. vm_compute. reflexivity. Qed.

(** ** Exported images *)

Lemma export_from_pages i pages output_dir fmt :
  Forall2 (fun page file => snd file = saved fmt page)
          pages (export_from i pages output_dir fmt) /\
  (forall k : nat, (k < length pages)%nat ->
     nth_error (map fst (export_from i pages output_dir fmt)) k
       = Some (child output_dir
                 ("page_" +:+ pretty (i + Z.of_nat k + 1) +:+ "." +:+ fmt))).
Proof.
  revert i. induction pages as [|page rest IH]; intros i; cbn [export_from].
  - split; [constructor|]. intros k Hk. cbn in Hk. lia.
  - destruct (IH (i + 1)) as [Hall Hnth]. split; [constructor; [reflexivity|exact Hall]|].
    intros [|k] Hk; cbn [map nth_error fst].
    + rewrite Z.add_0_r. reflexivity.
    + cbn [length] in Hk. rewrite (Hnth k) by lia.
      replace (i + 1 + Z.of_nat k + 1) with (i + Z.of_nat (S k) + 1) by lia.
      reflexivity.
Qed.

Lemma flatten_pixel page x y :
  inside page x y = true -> byte_pixel (getpixel page x y) ->
  (alpha_of (getpixel page x y) = 0 ->
   getpixel (flatten page) x y = (255, 255, 255, 255)) /\
  (alpha_of (getpixel page x y) = 255 ->
   getpixel (flatten page) x y = opaque (getpixel page x y)).
Proof.
  intros Hin Hb. unfold flatten, paste, PIL.new, size, inside in *.
  cbn [getpixel PIL.width PIL.height fst snd] in *.
  rewrite !Z.sub_0_r, Hin. cbn [andb].
  destruct (getpixel page x y) as [[[r g] b] a]. cbn [alpha_of snd] in *.
  destruct Hb as (Hr & Hg & Hb).
  split; intros ->; cbn [blend_pixel opaque].
  - rewrite !blend_transparent by (unfold is_byte; lia). reflexivity.
  - rewrite !blend_opaque by assumption. reflexivity.
Qed.

(** [export_images] writes one file per page and returns their paths in
    the order of the pages, page_1, page_2 and so on with the extension
    as it was given. For "jpg" and "jpeg" in any case an RGBA page is
    flattened onto white: the file is RGB, of the page's size, white where
    the page is fully transparent and of the page's colour where it is
    opaque; an RGB page, and every page for another format, is written as
    it is. *)
Theorem jpeg_export_flattens_onto_white
    (pages : list Image) (output_dir fmt : string) :
  snd (export_images pages output_dir fmt)
    = map fst (fst (export_images pages output_dir fmt)) /\
  length (snd (export_images pages output_dir fmt)) = length pages /\
  (forall k : nat, (k < length pages)%nat ->
     nth_error (snd (export_images pages output_dir fmt)) k
       = Some (child output_dir ("page_" +:+ pretty (Z.of_nat k + 1) +:+ "." +:+ fmt))) /\
  Forall2 (fun page file =>
             size (snd file) = size page /\
             (is_jpeg fmt = false \/ mode page = RGB -> snd file = page) /\
             (is_jpeg fmt = true -> mode page = RGBA ->
              mode (snd file) = RGB /\
              forall x y,
                inside page x y = true -> byte_pixel (getpixel page x y) ->
                (alpha_of (getpixel page x y) = 0 ->
                 getpixel (snd file) x y = (255, 255, 255, 255)) /\
                (alpha_of (getpixel page x y) = 255 ->
                 getpixel (snd file) x y = opaque (getpixel page x y))))
          pages (fst (export_images pages output_dir fmt)).
Proof.
  unfold export_images. cbn [fst snd].
  destruct (export_from_pages 0 pages output_dir fmt) as [Hall Hnth].
  split; [reflexivity|].
  split; [rewrite length_map; symmetry; eapply Forall2_length; exact Hall|].
  split; [intros k Hk; rewrite (Hnth k Hk); reflexivity|].
  eapply Forall2_impl; [exact Hall|].
  intros page file ->. unfold saved.
  destruct (is_jpeg fmt); [destruct (mode page) eqn:Hm|].
  - repeat split; try discriminate; reflexivity.
  - split; [reflexivity|]. split; [intros [?|?]; discriminate|].
    intros _ _. split; [reflexivity|]. intros x y. apply flatten_pixel.
  - repeat split; try discriminate; reflexivity.
Qed.

(** ** The background task *)

Import Task.

Lemma page_writes_progress num_pages page_num pr :
  Forall progress_only (fst (page_writes num_pages page_num pr)).
Proof.
  unfold page_writes.
  destruct (page_progress_base page_num num_pages) as [base|e]; cbn [fst];
    [|constructor].
  assert (forall p s, progress_only (progress_stage p s)) as Hp
    by (intros; repeat split).
  destruct (faults_at pr 1); cbn [fst]; [repeat constructor; apply Hp|].
  destruct (faults_at pr 2); cbn [fst]; [repeat constructor; apply Hp|].
  destruct (faults_at pr 3); cbn [fst]; [repeat constructor; apply Hp|].
  destruct (images pr).
  - destruct (faults_at pr 4); cbn [fst app]; repeat constructor; apply Hp.
  - cbn [fst app]. repeat constructor; apply Hp.
Qed.

Lemma page_loop_progress num_pages page_nums run :
  Forall progress_only (fst (page_loop num_pages page_nums run)).
Proof.
  induction page_nums as [|p ps IH]; cbn [page_loop]; [constructor|].
  pose proof (page_writes_progress num_pages p (run p)) as Hp.
  destruct (page_writes num_pages p (run p)) as [ws [m|]]; cbn [fst] in *;
    [assumption|].
  destruct (page_loop num_pages ps run) as [ws' r]. cbn [fst] in *.
  apply Forall_app. auto.
Qed.

(** The writes of a run: progress writes, then one write that sets the
    status. *)
Lemma process_document_task_shape num_pages run export_fault result now :
  exists ws last,
    process_document_task num_pages run export_fault result now = ws ++ [last] /\
    Forall progress_only ws /\
    match page_loop num_pages (Py.range 1 (num_pages + 1) 1) run, export_fault with
    | (_, Some m), _ | (_, None), Some m => last = failed m
    | (_, None), None => last = completed result now
    end.
Proof.
  unfold process_document_task.
  pose proof (page_loop_progress num_pages (Py.range 1 (num_pages + 1) 1) run) as Hp.
  assert (forall p s, progress_only (progress_stage p s)) as Hps
    by (intros; repeat split).
  destruct (page_loop num_pages (Py.range 1 (num_pages + 1) 1) run) as [ws [m|]];
    cbn [fst] in Hp.
  - exists (progress_stage 5 "Extracting PDF content..." :: ws), (failed m).
    split; [reflexivity|]. split; [constructor; [apply Hps | exact Hp]|reflexivity].
  - destruct export_fault as [m|].
    + exists (progress_stage 5 "Extracting PDF content..." :: ws
              ++ [progress_stage 90 "Generating output files..."]), (failed m).
      split; [cbn; rewrite <- app_assoc; reflexivity|].
      split; [|reflexivity].
      constructor; [apply Hps|]. apply Forall_app. split; [exact Hp|].
      constructor; [apply Hps | constructor].
    + exists (progress_stage 5 "Extracting PDF content..." :: ws
              ++ [progress_stage 90 "Generating output files..."]),
             (completed result now).
      split; [cbn; rewrite <- app_assoc; reflexivity|].
      split; [|reflexivity].
      constructor; [apply Hps|]. apply Forall_app. split; [exact Hp|].
      constructor; [apply Hps | constructor].
Qed.



Lemma updates_app db job_id ws last clock k :
  updates db job_id (ws ++ [last]) clock k
    = _update_job (updates db job_id ws clock k) job_id last
                  (clock (k + length ws)%nat).
Proof.
  revert db k. induction ws as [|u ws IH]; intros db k; cbn [updates app length].
  - rewrite Nat.add_0_r. reflexivity.
  - rewrite IH. do 2 f_equal. lia.
Qed.

Lemma updates_progress db job_id ws clock k job :
  Forall progress_only ws -> db !! job_id = Some job ->
  exists job',
    updates db job_id ws clock k !! job_id = Some job' /\
    same_upload job job' /\ status job' = status job /\
    error_message job' = error_message job /\ result_path job' = result_path job /\
    completed_at job' = completed_at job.
Proof.
  intros Hws. revert db k job.
  induction Hws as [|u ws (Hs & He & Hr & Hc) _ IH]; intros db k job Hjob;
    cbn [updates].
  - exists job. repeat split; assumption.
  - destruct (IH (_update_job db job_id u (clock k)) (S k)
                (set_fields u (clock k) job))
      as (job' & Hl & (H1 & H2 & H3 & H4 & H5) & H6 & H7 & H8 & H9).
    { unfold _update_job. rewrite Hjob. apply lookup_insert_eq. }
    exists job'. split; [exact Hl|].
    unfold set_fields in *. cbn in *. rewrite Hs, He, Hr, Hc in *. cbn in *.
    repeat split; assumption.
Qed.

Lemma update_job_at db job_id u now job :
  db !! job_id = Some job ->
  _update_job db job_id u now !! job_id = Some (set_fields u now job).
Proof. intros H. unfold _update_job. rewrite H. apply lookup_insert_eq. Qed.



(** The task as a whole. Either no exception leaves it, and its writes
    are progress writes and then one write that sets the status (the
    write of a completed run being made only after every page went
    through and the export returned); or the session is lost, and the
    task leaves progress writes only, and the uploads and results
    directories as they were. *)
Lemma task_writes_shape settings write_pdf job job_id doc files now :
  (raises (task_writes settings write_pdf job job_id doc files now) = false /\
   exists ws last,
     writes (task_writes settings write_pdf job job_id doc files now) = ws ++ [last] /\
     Forall progress_only ws /\
     (last = not_found \/ (exists m, last = failed m) \/
      (last = completed (pdf_output_path settings job_id) now /\
       exists num_pages,
         info doc = Ok num_pages /\
         export settings write_pdf job_id num_pages doc files
           = (None, disk (task_writes settings write_pdf job job_id doc files now)))))
  \/
  (raises (task_writes settings write_pdf job job_id doc files now) = true /\
   Forall progress_only
     (writes (task_writes settings write_pdf job job_id doc files now)) /\
   disk (task_writes settings write_pdf job job_id doc files now) = files /\
   exists num_pages, info doc = Ok num_pages /\ session_lost doc num_pages = true).
Proof.
  unfold task_writes.
  destruct (upload_path job) as [pdf_path|];
    [|left; split; [reflexivity|]; exists [], not_found; repeat split; auto].
  destruct (String.eqb pdf_path "" || negb (on_disk doc));
    [left; split; [reflexivity|]; exists [], not_found; repeat split; auto|].
  destruct (init_fault doc) as [m|];
    [left; split; [reflexivity|]; exists [], (failed m); repeat split; eauto|].
  destruct (info doc) as [num_pages|e];
    [|left; split; [reflexivity|]; exists [], (failed (str e)); repeat split; eauto].
  destruct (page_loop num_pages (Py.range 1 (num_pages + 1) 1) (run doc))
    as [ws0 [m|]] eqn:Hloop.
  - destruct (session_lost doc num_pages) eqn:Hlost.
    + right. cbn [raises writes disk]. split; [reflexivity|]. split.
      * constructor; [repeat split|].
        pose proof (page_loop_progress num_pages (Py.range 1 (num_pages + 1) 1)
                      (run doc)) as Hp.
        rewrite Hloop in Hp. exact Hp.
      * split; [reflexivity|]. exists num_pages. split; [reflexivity | exact Hlost].
    + left. cbn [raises writes disk]. split; [reflexivity|].
      destruct (process_document_task_shape num_pages (run doc) None
                  (pdf_output_path settings job_id) now)
        as (ws & last & Heq & Hws & Hlast).
      rewrite Hloop in Hlast. exists ws, last. eauto 6.
  - destruct (export settings write_pdf job_id num_pages doc files)
      as [fault files'] eqn:Hexport.
    left. cbn [raises writes disk]. split; [reflexivity|].
    destruct (process_document_task_shape num_pages (run doc) (str <$> fault)
                (pdf_output_path settings job_id) now) as (ws & last & Heq & Hws & Hlast).
    rewrite Hloop in Hlast. exists ws, last.
    split; [exact Heq|]. split; [exact Hws|].
    destruct fault as [e|]; cbn in Hlast.
    + right. left. eauto.
    + right. right. split; [exact Hlast|]. exists num_pages.
      split; [reflexivity|exact Hexport].
Qed.

(** What the task leaves of a job record that is there. *)
Lemma background_task_job settings write_pdf store job_id doc now clock job :
  jobs store !! job_id = Some job ->
  exists job1,
    same_upload job job1 /\ status job1 = status job /\
    error_message job1 = error_message job /\ result_path job1 = result_path job /\
    completed_at job1 = completed_at job /\
    ((background_task_raises settings write_pdf store job_id doc now = false /\
      exists (ws : list Update) last,
        (last = not_found \/ (exists m, last = failed m) \/
         (last = completed (pdf_output_path settings job_id) now /\
          exists num_pages,
            info doc = Ok num_pages /\
            export settings write_pdf job_id num_pages doc (files store)
              = (None,
                 files (background_task settings write_pdf store job_id doc now clock)))) /\
        jobs (background_task settings write_pdf store job_id doc now clock) !! job_id
          = Some (set_fields last (clock (length ws)) job1))
     \/
     (background_task_raises settings write_pdf store job_id doc now = true /\
      files (background_task settings write_pdf store job_id doc now clock)
        = files store /\
      (exists num_pages, info doc = Ok num_pages /\ session_lost doc num_pages = true) /\
      jobs (background_task settings write_pdf store job_id doc now clock) !! job_id
        = Some job1)).
Proof.
  intros Hjob. unfold background_task, background_task_raises. rewrite Hjob.
  cbn [jobs files].
  destruct (task_writes_shape settings write_pdf job job_id doc (files store) now)
    as [(Hraises & ws & last & Heq & Hws & Hlast)|(Hraises & Hws & Hdisk & Hlost)].
  - destruct (updates_progress (jobs store) job_id ws clock 0 job Hws Hjob)
      as (job1 & Hl & Hsame & Hs & He & Hr & Hc).
    exists job1. do 5 (split; [assumption|]). left.
    split; [exact Hraises|]. exists ws, last. split; [exact Hlast|].
    rewrite Heq, updates_app. apply update_job_at. exact Hl.
  - destruct (updates_progress (jobs store) job_id _ clock 0 job Hws Hjob)
      as (job1 & Hl & Hsame & Hs & He & Hr & Hc).
    exists job1. do 5 (split; [assumption|]). right. auto.
Qed.




(** The run of the example: the stale row of the second page leaves the
    started job Processing, at the progress of the last write that went
    through, and the task raises; a document without such a row leaves
    it Completed. *)
Lemma stale_cache_leaves_the_job_processing :
  background_task_raises defaults writes_output
    (mkStore {[ "j4"%string := started_job ]} ∅) "j4" stale_cache_document 9 = true /\
  jobs (background_task defaults writes_output
          (mkStore {[ "j4"%string := started_job ]} ∅) "j4" stale_cache_document 9
          Z.of_nat) !! "j4"%string
    = Some (mkJob "j4" "notes.pdf" PROCESSING (Some default_config) 2 60
              "Converting diagrams on page 2..."
              (Some "storage/uploads/j4/original.pdf"%string) None None 8 None) /\
  background_task_raises defaults writes_output
    (mkStore {[ "j4"%string := started_job ]} ∅) "j4" (sound_document 2) 9 = false /\
  status <$> jobs (background_task defaults writes_output
                     (mkStore {[ "j4"%string := started_job ]} ∅) "j4"
                     (sound_document 2) 9 Z.of_nat) !! "j4"%string
    = Some COMPLETED.
Proof. repeat split; reflexivity. Qed.

(** *** The result directory *)

Lemma child_length directory name :
  String.length (child directory name)
    = (String.length directory + 1 + String.length name)%nat.
Proof. unfold child. rewrite !string_length_app. cbn. lia. Qed.

Lemma pdf_output_path_not_empty settings job_id :
  String.eqb (pdf_output_path settings job_id) "" = false.
Proof.
  apply String.eqb_neq. intros H. apply (f_equal String.length) in H.
  unfold pdf_output_path in H. rewrite child_length in H. cbn in H. lia.
Qed.

Lemma pdf_output_path_not_a_directory settings job_id :
  pdf_output_path settings job_id <> result_dir settings job_id /\
  pdf_output_path settings job_id <> preview_dir settings job_id.
Proof.
  split; intros H; apply (f_equal String.length) in H;
    unfold pdf_output_path, preview_dir in H; rewrite !child_length in H;
    cbn in H; lia.
Qed.

Lemma page_range_spec num_pages page_num :
  In page_num (Py.range 1 (num_pages + 1) 1) <-> 1 <= page_num <= num_pages.
Proof.
  rewrite In_range_step by lia. split.
  - intros (i & ? & ? & ?). lia.
  - intros ?. exists (page_num - 1). lia.
Qed.

(** A document without pages: the loop and the export write nothing. *)
Lemma task_writes_no_pages settings write_pdf job job_id doc files now pdf_path :
  upload_path job = Some pdf_path -> pdf_path <> ""%string -> on_disk doc = true ->
  init_fault doc = None -> info doc = Ok 0 ->
  task_writes settings write_pdf job job_id doc files now
    = mkTaskRun
        [progress_stage 5 "Extracting PDF content...";
         progress_stage 90 "Generating output files...";
         completed (pdf_output_path settings job_id) now]
        ({[ preview_dir settings job_id ]} ∪ ({[ result_dir settings job_id ]} ∪ files))
        false.
Proof.
  intros Hup Hne Hdisk Hinit Hinfo. unfold task_writes.
  rewrite Hup, Hdisk, Hinit, Hinfo.
  apply String.eqb_neq in Hne. rewrite Hne. cbn [orb negb].
  change (Py.range 1 (0 + 1) 1) with (@nil Z). cbn [page_loop].
  unfold export. change (Py.range 1 (0 + 1) 1) with (@nil Z).
  cbn [map export_pdf list_to_set]. unfold process_document_task.
  change (Py.range 1 (0 + 1) 1) with (@nil Z). cbn [page_loop fmap option_fmap option_map app].
  f_equal. apply (left_id_L ∅ (∪)).
Qed.

Lemma background_task_no_pages settings write_pdf store job_id doc now clock job pdf_path :
  jobs store !! job_id = Some job ->
  upload_path job = Some pdf_path -> pdf_path <> ""%string -> on_disk doc = true ->
  init_fault doc = None -> info doc = Ok 0 ->
  exists job',
    jobs (background_task settings write_pdf store job_id doc now clock) !! job_id
      = Some job' /\
    status job' = COMPLETED /\
    result_path job' = Some (pdf_output_path settings job_id) /\
    files (background_task settings write_pdf store job_id doc now clock)
      = {[ preview_dir settings job_id ]} ∪ ({[ result_dir settings job_id ]} ∪ files store).
Proof.
  intros Hjob Hup Hne Hdisk Hinit Hinfo. unfold background_task. rewrite Hjob.
  rewrite (task_writes_no_pages settings write_pdf job job_id doc (files store) now
             pdf_path Hup Hne Hdisk Hinit Hinfo).
  cbn [jobs files updates writes disk].
  eexists. split; [|split; [|split; [|reflexivity]]].
  - apply update_job_at. apply update_job_at. apply update_job_at. exact Hjob.
  - reflexivity.
  - reflexivity.
Qed.

(** A document in which the reader counts no page goes through the task
    without an exception: the job is marked Completed with the path of
    result.pdf as its result, but [export_pdf] returns before it writes
    anything, so unless that file was there before the run the download
    of the completed job is answered with 404, Result file not found. *)
Theorem document_without_pages_completes_without_a_result
    settings write_pdf stem store job_id doc now clock job pdf_path format :
  jobs store !! job_id = Some job ->
  upload_path job = Some pdf_path -> pdf_path <> ""%string -> on_disk doc = true ->
  init_fault doc = None -> info doc = Ok 0 ->
  pdf_output_path settings job_id ∉ files store ->
  (exists job',
     jobs (background_task settings write_pdf store job_id doc now clock) !! job_id
       = Some job' /\
     status job' = COMPLETED /\
     result_path job' = Some (pdf_output_path settings job_id)) /\
  download_result stem
      (background_task settings write_pdf store job_id doc now clock) job_id format
    = Raise (HTTPException 404 "Result file not found").
Proof.
  intros Hjob Hup Hne Hdisk Hinit Hinfo Hfresh.
  destruct (background_task_no_pages settings write_pdf store job_id doc now clock job
              pdf_path Hjob Hup Hne Hdisk Hinit Hinfo) as (job' & Hl & Hs & Hr & Hf).
  split; [eauto|].
  unfold download_result. rewrite Hl, Hs, Hr, Hf.
  rewrite bool_decide_eq_true_2 by reflexivity. cbn [negb].
  rewrite pdf_output_path_not_empty. cbn [orb].
  destruct (pdf_output_path_not_a_directory settings job_id) as [Hd Hp].
  rewrite bool_decide_eq_false_2; [reflexivity|].
  rewrite !not_elem_of_union, !not_elem_of_singleton. auto.
Qed.

Lemma document_without_pages_completes_without_a_result_witness :
  (exists job',
     jobs (background_task defaults writes_output
             (mkStore {[ "j1"%string := failed_job ]} ∅) "j1" (sound_document 0) 9
             Z.of_nat) !! "j1"%string = Some job' /\
     status job' = COMPLETED /\
     result_path job' = Some (pdf_output_path defaults "j1")) /\
  download_result (fun name => name)
      (background_task defaults writes_output
         (mkStore {[ "j1"%string := failed_job ]} ∅) "j1" (sound_document 0) 9
         Z.of_nat) "j1" PDF
    = Raise (HTTPException 404 "Result file not found").
Proof.
  apply (document_without_pages_completes_without_a_result defaults writes_output
           (fun name => name)
           (mkStore {[ "j1"%string := failed_job ]} ∅) "j1" (sound_document 0) 9
           Z.of_nat failed_job "uploads/j1/original.pdf" PDF);
    try reflexivity.
  - discriminate.
  - cbn [files]. apply not_elem_of_empty.
Defined.

(** The export of a run with pages in it. *)
Lemma export_files settings write_pdf job_id num_pages doc files files' :
  (forall pages fs page_num,
     preview_path settings job_id page_num ∈ fs ->
     preview_path settings job_id page_num
       ∈ snd (write_pdf pages (pdf_output_path settings job_id) fs)) ->
  (forall pages fs,
     fst (write_pdf pages (pdf_output_path settings job_id) fs) = None ->
     pdf_output_path settings job_id
       ∈ snd (write_pdf pages (pdf_output_path settings job_id) fs)) ->
  export settings write_pdf job_id num_pages doc files = (None, files') ->
  (forall page_num, 1 <= page_num <= num_pages ->
     preview_path settings job_id page_num ∈ files') /\
  (1 <= num_pages -> pdf_output_path settings job_id ∈ files').
Proof.
  intros Hkeep Hout. unfold export.
  set (fs := list_to_set _ ∪ _).
  assert (forall page_num, 1 <= page_num <= num_pages ->
            preview_path settings job_id page_num ∈ fs) as Hprev.
  { intros page_num Hp. unfold fs. apply elem_of_union_l, elem_of_list_to_set.
    apply list_elem_of_In, in_map, page_range_spec. exact Hp. }
  clearbody fs.
  destruct (map (composed doc) (Py.range 1 (num_pages + 1) 1)) as [|page rest] eqn:Hpages;
    cbn [export_pdf].
  - intros [= <-]. split; [exact Hprev|]. intros Hn.
    assert (In 1 (Py.range 1 (num_pages + 1) 1)) as Hin by (apply page_range_spec; lia).
    apply (in_map (composed doc)) in Hin. rewrite Hpages in Hin. destruct Hin.
  - intros Hw. split.
    + intros page_num Hp.
      pose proof (Hkeep (page :: rest) fs page_num (Hprev page_num Hp)) as Hk.
      rewrite Hw in Hk. exact Hk.
    + intros _. pose proof (Hout (page :: rest) fs) as Ho. rewrite Hw in Ho.
      apply Ho. reflexivity.
Qed.

(** Once the task has left a job Completed that was not Completed
    before it, every page of the document has its preview and, when the
    document has a page, the download is served: provided the PDF writer
    leaves the previews of the job in place and, when it returns, has
    written its output file. The download is named after the uploaded
    file, whatever format is asked for. (A job that was Completed before
    the run keeps that status when the task loses its session, without a
    file being written: hence the condition on the job.) *)
Theorem completed_job_serves_previews_and_download
    settings write_pdf stem store job_id doc now clock job job' :
  (forall pages fs page_num,
     preview_path settings job_id page_num ∈ fs ->
     preview_path settings job_id page_num
       ∈ snd (write_pdf pages (pdf_output_path settings job_id) fs)) ->
  (forall pages fs,
     fst (write_pdf pages (pdf_output_path settings job_id) fs) = None ->
     pdf_output_path settings job_id
       ∈ snd (write_pdf pages (pdf_output_path settings job_id) fs)) ->
  jobs store !! job_id = Some job ->
  status job <> COMPLETED ->
  jobs (background_task settings write_pdf store job_id doc now clock) !! job_id
    = Some job' ->
  status job' = COMPLETED ->
  exists num_pages,
    info doc = Ok num_pages /\
    (forall page_num, 1 <= page_num <= num_pages ->
       get_preview settings
         (background_task settings write_pdf store job_id doc now clock) job_id page_num
       = Ok (mkFileResponse (preview_path settings job_id page_num) None "image/png")) /\
    (1 <= num_pages -> forall format,
       download_result stem
         (background_task settings write_pdf store job_id doc now clock) job_id format
       = Ok (mkFileResponse (pdf_output_path settings job_id)
               (Some ("handwritten_" +:+ stem (filename job) +:+ "."
                      +:+ format_value format))
               (match format with
                | PDF => "application/pdf"
                | _ => "image/" +:+ format_value format
                end))).
Proof.
  intros Hkeep Hout Hjob Hrunning Hjob' Hdone.
  destruct (background_task_job settings write_pdf store job_id doc now clock job Hjob)
    as (job1 & (_ & Hname & _) & Hs & _ & _ & _ &
        [(_ & ws & last & Hlast & Hl)|(_ & _ & _ & Hl)]).
  2: { exfalso. rewrite Hl in Hjob'. injection Hjob' as <-. apply Hrunning.
       congruence. }
  rewrite Hl in Hjob'. injection Hjob' as <-.
  destruct Hlast as [->|[[m ->]|[-> (num_pages & Hinfo & Hexport)]]];
    try discriminate Hdone.
  destruct (export_files settings write_pdf job_id num_pages doc (files store) _
              Hkeep Hout Hexport) as [Hprev Hpdf].
  exists num_pages. split; [exact Hinfo|]. split.
  - intros page_num Hp. unfold get_preview. rewrite Hl. cbn [status set_fields].
    cbn [default u_status completed].
    rewrite bool_decide_eq_true_2 by reflexivity. cbn [negb].
    rewrite bool_decide_eq_true_2 by (apply Hprev; exact Hp). reflexivity.
  - intros Hn format. unfold download_result. rewrite Hl.
    cbn [status result_path filename set_fields default u_status u_result_path
         completed].
    rewrite bool_decide_eq_true_2 by reflexivity. cbn [negb].
    rewrite pdf_output_path_not_empty. cbn [orb].
    rewrite bool_decide_eq_true_2 by (apply Hpdf; exact Hn). cbn [negb].
    rewrite Hname. reflexivity.
Qed.

Lemma completed_job_serves_previews_and_download_witness :
  exists num_pages,
    info (sound_document 2) = Ok num_pages /\
    (forall page_num, 1 <= page_num <= num_pages ->
       get_preview defaults
         (background_task defaults writes_output
            (mkStore {[ "j1"%string := failed_job ]} ∅) "j1" (sound_document 2) 9
            Z.of_nat) "j1" page_num
       = Ok (mkFileResponse (preview_path defaults "j1" page_num) None "image/png")) /\
    (1 <= num_pages -> forall format,
       download_result (fun name => name)
         (background_task defaults writes_output
            (mkStore {[ "j1"%string := failed_job ]} ∅) "j1" (sound_document 2) 9
            Z.of_nat) "j1" format
       = Ok (mkFileResponse (pdf_output_path defaults "j1")
               (Some ("handwritten_" +:+ filename failed_job +:+ "."
                      +:+ format_value format))
               (match format with
                | PDF => "application/pdf"
                | _ => "image/" +:+ format_value format
                end))).
Proof.
  apply (completed_job_serves_previews_and_download defaults writes_output
           (fun name => name) (mkStore {[ "j1"%string := failed_job ]} ∅) "j1"
           (sound_document 2) 9 Z.of_nat failed_job
           (mkJob "j1" "notes.pdf" COMPLETED (Some default_config) 2 100 "Completed"
                  (Some "uploads/j1/original.pdf"%string)
                  (Some "storage/results/j1/result.pdf"%string)
                  (Some "boom"%string) 10 (Some 9))).
  - intros pages fs page_num H. apply elem_of_union_r. exact H.
  - intros pages fs _. apply elem_of_union_l, elem_of_singleton. reflexivity.
  - reflexivity.
  - discriminate.
  - reflexivity.
  - reflexivity.
Defined.

(** *** Upload, start, download *)

Lemma upload_pdf_accepted settings store filename content_length job_id page_count now
    response store' :
  upload_pdf settings store filename content_length job_id page_count now
    = (Ok response, store') ->
  exists name,
    filename = Some name /\ is_pdf_name name = true /\
    content_length <= max_file_size_bytes settings /\
    jobs store !! job_id = None /\
    response = mkUploadResponse job_id "uploaded" name (default 0 page_count)
                 "File uploaded successfully" /\
    store' = mkStore
      (<[job_id := mkJob job_id name UPLOADED None (default 0 page_count) 0 ""
                     (Some (child (child (uploads_path settings) job_id) "original.pdf"))
                     None None now None]> (jobs store))
      ({[ child (child (uploads_path settings) job_id) "original.pdf" ]}
         ∪ ({[ child (uploads_path settings) job_id ]} ∪ files store)).
Proof.
  unfold upload_pdf. destruct filename as [name|]; [|discriminate].
  destruct (String.eqb name "" || negb (is_pdf_name name)) eqn:Hname; [discriminate|].
  destruct (Z.ltb_spec (max_file_size_bytes settings) content_length) as [Hbig|Hfit];
    [discriminate|].
  destruct (jobs store !! job_id) eqn:Hfree; [discriminate|].
  intros [= <- <-]. exists name.
  apply orb_false_iff in Hname as [_ Hpdf]. apply negb_false_iff in Hpdf.
  repeat split; assumption.
Qed.

(** What the handlers answer for a job that is neither Completed nor
    free to start. *)
Lemma processing_job_answers settings db job_id job stem files' format page_num
    request t :
  db !! job_id = Some job -> status job = PROCESSING ->
  download_result stem (mkStore db files') job_id format
    = Raise (HTTPException 400 "Job not yet completed") /\
  get_preview settings (mkStore db files') job_id page_num
    = Raise (HTTPException 400 "Job not yet completed") /\
  Api.response (process_document db job_id request t)
    = Raise (HTTPException 400 "Job is already processing") /\
  Api.jobs (process_document db job_id request t) = db.
Proof.
  intros Hjob Hs. unfold download_result, get_preview, process_document.
  cbn [jobs]. rewrite Hjob, Hs.
  rewrite !bool_decide_eq_false_2 by discriminate. cbn [negb].
  destruct (decide (PROCESSING = PROCESSING)) as [_|Hne]; [|congruence].
  repeat split.
Qed.

Lemma process_document_starts db job_id job request t :
  db !! job_id = Some job -> status job = UPLOADED ->
  process_document db job_id request t
    = mkOutcome
        (Ok (mkProcessResponse job_id "processing"
               "Processing started. Use /status endpoint to track progress."))
        (<[job_id := mkJob (id job) (filename job) PROCESSING (Some request)
                       (num_pages job) 0 "Starting..." (upload_path job)
                       (result_path job) (error_message job) t (completed_at job)]> db)
        (Some (job_id, request)).
Proof.
  intros Hjob Hs. unfold process_document. rewrite Hjob, Hs.
  destruct (decide (UPLOADED = PROCESSING)) as [H|_]; [discriminate H|].
  destruct (decide (UPLOADED = COMPLETED)) as [H|_]; [discriminate H|].
  reflexivity.
Qed.

(** An accepted upload has a name ending in .pdf in some case and is not
    over the size limit; its file is on disk under the uploads directory
    and its job is Uploaded with the page count of the reader, 0 when the
    reader raised; other jobs are as before. Right after the upload the
    download and the previews of the job are refused with 400. A start
    request is then accepted and queues the task with the requested
    configuration. From there on, in every state that progress writes of
    the task lead to (the job is Processing), the download and the
    previews are still refused with 400, and every further start request
    is refused with 400, Job is already processing, and changes nothing.
    What a start request meets once the task has ended is another matter:
    a Failed job is started again, a Completed one is refused as already
    completed. *)
Theorem accepted_upload_is_stored_and_starts_once
    settings store filename content_length job_id page_count now response store'
    stem format page_num request t :
  upload_pdf settings store filename content_length job_id page_count now
    = (Ok response, store') ->
  (exists name, filename = Some name /\ is_pdf_name name = true /\
                ur_filename response = name) /\
  content_length <= max_file_size_bytes settings /\
  ur_job_id response = job_id /\ ur_status response = "uploaded"%string /\
  ur_pages response = default 0 page_count /\
  (exists job file_path,
     jobs store' !! job_id = Some job /\ status job = UPLOADED /\
     num_pages job = default 0 page_count /\
     upload_path job = Some file_path /\ file_path ∈ files store') /\
  (forall other, other <> job_id -> jobs store' !! other = jobs store !! other) /\
  (forall files',
     download_result stem (mkStore (jobs store') files') job_id format
       = Raise (HTTPException 400 "Job not yet completed") /\
     get_preview settings (mkStore (jobs store') files') job_id page_num
       = Raise (HTTPException 400 "Job not yet completed")) /\
  Api.response (process_document (jobs store') job_id request t)
    = Ok (mkProcessResponse job_id "processing"
            "Processing started. Use /status endpoint to track progress.") /\
  queued (process_document (jobs store') job_id request t) = Some (job_id, request) /\
  (forall (ws : list Update) (clock : nat -> Z) (k : nat) files' request' t',
     Forall progress_only ws ->
     download_result stem
         (mkStore (updates (Api.jobs (process_document (jobs store') job_id request t))
                           job_id ws clock k) files') job_id format
       = Raise (HTTPException 400 "Job not yet completed") /\
     get_preview settings
         (mkStore (updates (Api.jobs (process_document (jobs store') job_id request t))
                           job_id ws clock k) files') job_id page_num
       = Raise (HTTPException 400 "Job not yet completed") /\
     Api.response
       (process_document
          (updates (Api.jobs (process_document (jobs store') job_id request t))
                   job_id ws clock k) job_id request' t')
       = Raise (HTTPException 400 "Job is already processing") /\
     Api.jobs
       (process_document
          (updates (Api.jobs (process_document (jobs store') job_id request t))
                   job_id ws clock k) job_id request' t')
       = updates (Api.jobs (process_document (jobs store') job_id request t))
                 job_id ws clock k).
Proof.
  intros Hup.
  destruct (upload_pdf_accepted _ _ _ _ _ _ _ _ _ Hup)
    as (name & -> & Hpdf & Hfit & Hfree & -> & ->).
  cbn [ur_filename ur_job_id ur_status ur_pages jobs files].
  split; [eauto|]. split; [exact Hfit|]. do 3 (split; [reflexivity|]).
  split.
  { eexists _, _. split; [apply lookup_insert_eq|]. cbn.
    repeat split. apply elem_of_union_l, elem_of_singleton. reflexivity. }
  split; [intros other Hne; apply lookup_insert_ne; congruence|].
  split.
  { intros files'. unfold download_result, get_preview. cbn [jobs].
    rewrite !lookup_insert_eq. cbn [status].
    rewrite !bool_decide_eq_false_2 by discriminate. split; reflexivity. }
  match goal with
  | |- context [process_document (<[job_id := ?j]> ?m) job_id request t] =>
      rewrite (process_document_starts (<[job_id := j]> m) job_id j request t
                 (lookup_insert_eq _ _ _) eq_refl)
  end.
  cbn [Api.response queued Api.jobs].
  do 2 (split; [reflexivity|]).
  intros ws clock k files' request' t' Hws.
  match goal with
  | |- context [updates ?db job_id ws clock k] =>
      destruct (updates_progress db job_id ws clock k _ Hws (lookup_insert_eq _ _ _))
        as (job' & Hl & _ & Hs & _)
  end.
  exact (processing_job_answers settings _ job_id job' stem files' format page_num
           request' t' Hl Hs).
Qed.

Lemma accepted_upload_is_stored_and_starts_once_witness :
  (exists name, Some "Notes.PDF"%string = Some name /\ is_pdf_name name = true /\
                ur_filename (mkUploadResponse "j3" "uploaded" "Notes.PDF" 0
                               "File uploaded successfully") = name) /\
  1000 <= max_file_size_bytes defaults /\
  ur_job_id (mkUploadResponse "j3" "uploaded" "Notes.PDF" 0
               "File uploaded successfully") = "j3"%string /\
  ur_status (mkUploadResponse "j3" "uploaded" "Notes.PDF" 0
               "File uploaded successfully") = "uploaded"%string /\
  ur_pages (mkUploadResponse "j3" "uploaded" "Notes.PDF" 0
              "File uploaded successfully") = default 0 None /\
  (exists job file_path,
     jobs (snd (upload_pdf defaults (mkStore ∅ ∅) (Some "Notes.PDF"%string) 1000 "j3"
                  None 4)) !! "j3"%string = Some job /\
     status job = UPLOADED /\ num_pages job = default 0 None /\
     upload_path job = Some file_path /\
     file_path ∈ files (snd (upload_pdf defaults (mkStore ∅ ∅) (Some "Notes.PDF"%string)
                               1000 "j3" None 4))) /\
  (forall other, other <> "j3"%string ->
     jobs (snd (upload_pdf defaults (mkStore ∅ ∅) (Some "Notes.PDF"%string) 1000 "j3"
                  None 4)) !! other = jobs (mkStore ∅ ∅) !! other) /\
  (forall files',
     download_result (fun name => name)
         (mkStore (jobs (snd (upload_pdf defaults (mkStore ∅ ∅)
                                (Some "Notes.PDF"%string) 1000 "j3" None 4))) files')
         "j3" PNG
       = Raise (HTTPException 400 "Job not yet completed") /\
     get_preview defaults
         (mkStore (jobs (snd (upload_pdf defaults (mkStore ∅ ∅)
                                (Some "Notes.PDF"%string) 1000 "j3" None 4))) files')
         "j3" 1
       = Raise (HTTPException 400 "Job not yet completed")) /\
  Api.response
    (process_document
       (jobs (snd (upload_pdf defaults (mkStore ∅ ∅) (Some "Notes.PDF"%string) 1000 "j3"
                     None 4))) "j3" default_config 5)
    = Ok (mkProcessResponse "j3" "processing"
            "Processing started. Use /status endpoint to track progress.") /\
  queued
    (process_document
       (jobs (snd (upload_pdf defaults (mkStore ∅ ∅) (Some "Notes.PDF"%string) 1000 "j3"
                     None 4))) "j3" default_config 5)
    = Some ("j3"%string, default_config) /\
  (forall (ws : list Update) (clock : nat -> Z) (k : nat) files' request' t',
     Forall progress_only ws ->
     download_result (fun name => name)
         (mkStore
            (updates
               (Api.jobs
                  (process_document
                     (jobs (snd (upload_pdf defaults (mkStore ∅ ∅)
                                   (Some "Notes.PDF"%string) 1000 "j3" None 4)))
                     "j3" default_config 5))
               "j3" ws clock k) files') "j3" PNG
       = Raise (HTTPException 400 "Job not yet completed") /\
     get_preview defaults
         (mkStore
            (updates
               (Api.jobs
                  (process_document
                     (jobs (snd (upload_pdf defaults (mkStore ∅ ∅)
                                   (Some "Notes.PDF"%string) 1000 "j3" None 4)))
                     "j3" default_config 5))
               "j3" ws clock k) files') "j3" 1
       = Raise (HTTPException 400 "Job not yet completed") /\
     Api.response
       (process_document
          (updates
             (Api.jobs
                (process_document
                   (jobs (snd (upload_pdf defaults (mkStore ∅ ∅)
                                 (Some "Notes.PDF"%string) 1000 "j3" None 4)))
                   "j3" default_config 5))
             "j3" ws clock k) "j3" request' t')
       = Raise (HTTPException 400 "Job is already processing") /\
     Api.jobs
       (process_document
          (updates
             (Api.jobs
                (process_document
                   (jobs (snd (upload_pdf defaults (mkStore ∅ ∅)
                                 (Some "Notes.PDF"%string) 1000 "j3" None 4)))
                   "j3" default_config 5))
             "j3" ws clock k) "j3" request' t')
       = updates
           (Api.jobs
              (process_document
                 (jobs (snd (upload_pdf defaults (mkStore ∅ ∅)
                               (Some "Notes.PDF"%string) 1000 "j3" None 4)))
                 "j3" default_config 5))
           "j3" ws clock k).
Proof.
  apply (accepted_upload_is_stored_and_starts_once defaults (mkStore ∅ ∅)
           (Some "Notes.PDF"%string) 1000 "j3" None 4
           (mkUploadResponse "j3" "uploaded" "Notes.PDF" 0 "File uploaded successfully")
           (snd (upload_pdf defaults (mkStore ∅ ∅) (Some "Notes.PDF"%string) 1000 "j3"
                   None 4))
           (fun name => name) PNG 1 default_config 5).
  reflexivity.
Defined.

(** ** The fonts of an engine *)

